(** * The Playwright test model of playwright-vscode (testModel.ts)

    A shallow embedding of [TestFile], [TestProject] and [TestModel] and of
    the reconciliation passes [listFiles], [listTests],
    [updateFromRunningProjects], [workspaceChanged] and [setProjectEnabled].

    Modelling decisions, all taken from the source:
    - [TestProject] and [TestFile] are JavaScript objects handled by
      reference.  The model keeps two stores, [projHeap] and [fileHeap]; a
      reference is an index into its store and [new] appends to it.  Objects
      dropped from a [Map] stay in the store, as they do for whoever still
      holds them.
    - [Map<string, V>] is an association list in insertion order
      ([JsMap]), [Set<string>] a list in insertion order ([JsSet]).
    - A non-null assertion [e!] on an absent value throws; passes that use it
      run in a small monad with state, exceptions and an event log.
    - [_didUpdate.fire()] and the calls to the external test runner are
      events of the log.
    - The [number] in [TestFile._revision] only ever holds small integers
      (it counts calls from 0, exact below 2^53); it is a [Z].
    - [await] is sequential: a pass runs to completion. *)

From stdpp Require Import base list strings.
From Stdlib Require Import ZArith Lia.

Set Warnings "-register-all,-clear-no-such-hyp".
Open Scope Z_scope.
Open Scope nat_scope.

(** ** Reporter types (reporter.d.ts) *)

Record Location := {
  loc_file : string;
  loc_line : Z;
  loc_column : Z;
}.

Record TestError := {
  err_location : option Location;
  err_message : option string;
  err_snippet : option string;
  err_stack : option string;
  err_value : option string;
}.

(** [FullProject]: the fields the model reads. *)
Record FullProject := {
  fp_name : string;
  fp_testDir : string;
}.

(** [TestCase]: the model stores test cases and never looks inside; what
    identifies one is kept. *)
Record TestCase := {
  tc_id : string;
  tc_title : string;
  tc_location : Location;
}.

(** [Suite] is an interface: the results of its methods [project()] and
    [allTests()] are carried as fields next to its properties. *)
Inductive Suite := mkSuite {
  s_title : string;
  s_project : option FullProject;
  s_location : option Location;
  s_suites : list Suite;
  s_tests : list TestCase;
  s_allTests : list TestCase;
}.

(** [type TestEntry = TestCase | Suite] *)
Inductive TestEntry :=
| EntryCase (t : TestCase)
| EntrySuite (s : Suite).

(** [[...fileSuite.suites, ...fileSuite.tests]] *)
Definition suite_entries (fileSuite : Suite) : list TestEntry :=
  map EntrySuite (s_suites fileSuite) ++ map EntryCase (s_tests fileSuite).

(** ** JavaScript [Map<string, V>] and [Set<string>], in insertion order *)

Module JsMap.
Abbreviation t V := (list (string * V)).

Section Defs.
Context {V : Type}.

Fixpoint get (k : string) (m : t V) : option V :=
  match m with
  | [] => None
  | (k', v) :: m' => if decide (k' = k) then Some v else get k m'
  end.

Definition has (k : string) (m : t V) : bool :=
  match get k m with Some _ => true | None => false end.

(** [set] overwrites in place when the key exists, else appends. *)
Fixpoint set (k : string) (v : V) (m : t V) : t V :=
  match m with
  | [] => [(k, v)]
  | (k', v') :: m' =>
      if decide (k' = k) then (k, v) :: m' else (k', v') :: set k v m'
  end.

Fixpoint delete (k : string) (m : t V) : t V :=
  match m with
  | [] => []
  | (k', v) :: m' =>
      if decide (k' = k) then delete k m' else (k', v) :: delete k m'
  end.

Definition keys (m : t V) : list string := map fst m.
Definition values (m : t V) : list V := map snd m.
End Defs.
End JsMap.

Module JsSet.
Abbreviation t := (list string).

Definition has (x : string) (s : t) : bool := bool_decide (x ∈ s).

Definition add (x : string) (s : t) : t :=
  if has x s then s else s ++ [x].

Fixpoint delete (x : string) (s : t) : t :=
  match s with
  | [] => []
  | y :: s' => if decide (y = x) then delete x s' else y :: delete x s'
  end.

(** [new Set(iterable)] *)
Definition of_list (l : list string) : t :=
  fold_left (fun s x => add x s) l [].
End JsSet.

(** ** Model types *)

(** References into the two object stores. *)
Abbreviation ProjRef := nat.
Abbreviation FileRef := nat.

(** [class TestFile] *)
Record TestFile := {
  tf_project : ProjRef;
  tf_file : string;
  _entries : option (list TestEntry);
  _revision : Z;
}.

(** [type TestProject]; the back reference [model] is the one model. *)
Record TestProject := {
  name : string;
  testDir : string;
  files : JsMap.t FileRef;
  isEnabled : bool;
}.

(** Modelled from the spec: [TestConfig], declared in playwrightTest.ts; the
    configuration record (workspace root, config file path, runner
    executable and version, resolved test-ID attribute name), with the fields
    the constructor of [TestModel] and [listFiles] write. *)
Record TestConfig := {
  workspaceFolder : string;
  configFile : string;
  cli : string;
  version : Z;
  testIdAttributeName : option string;
}.

(** Modelled from the spec: the [use] options of a reported project,
    [{ testIdAttribute? }]. *)
Record ProjectUse := {
  testIdAttribute : option string;
}.

(** Modelled from the spec: [ProjectConfigWithFiles], declared in
    listTests.ts; an element of the report of the runner,
    [{ name, testDir, use?, files }]. *)
Record ProjectConfigWithFiles := {
  pc_name : string;
  pc_testDir : string;
  pc_use : option ProjectUse;
  pc_files : list string;
}.

(** Modelled from the spec: the report of the runner,
    [{ error?, projects }]. *)
Record ConfigListFilesReport := {
  rep_error : option TestError;
  rep_projects : list ProjectConfigWithFiles;
}.

(** Modelled from the spec: [WorkspaceChange], declared in
    workspaceObserver.ts; the created, changed and deleted file sets. *)
Record WorkspaceChange := {
  created : JsSet.t;
  changed : JsSet.t;
  deleted : JsSet.t;
}.

(** The fields of [TestModel] together with the two object stores. *)
Record TestModel := {
  projHeap : list TestProject;
  fileHeap : list TestFile;
  config : TestConfig;
  _projects : JsMap.t ProjRef;
  _fileToSources : JsMap.t (list string);
  _sourceToFile : JsMap.t string;
}.

(** Modelled from the spec: the external test runner [PlaywrightTest],
    declared in playwrightTest.ts, as what it answers to the two listing
    requests: [listFiles(config)] gives a report,
    [listTests(config, files)] gives [{ rootSuite, errors }]. *)
Record PlaywrightTest := {
  pw_listFiles : TestConfig -> ConfigListFilesReport;
  pw_listTests : TestConfig -> list string -> Suite * list TestError;
}.

(** Modelled from the spec: [resolveSourceMap(file, fileToSources,
    sourceToFile)], declared in utils.ts; it gives the source files of a
    file and fills the two caches. *)
Definition SourceMapResolver :=
  string -> JsMap.t (list string) -> JsMap.t string ->
  list string * (JsMap.t (list string) * JsMap.t string).

Record Collaborators := {
  playwrightTest : PlaywrightTest;
  resolveSourceMap : SourceMapResolver;
}.

(** ** Effects: state, exceptions, event log *)

Inductive Event :=
| DidUpdate
| CallListFiles (cfg : TestConfig)
| CallListTests (cfg : TestConfig) (requested : list string).

Inductive JsError := TypeError.

Inductive Outcome (A : Type) :=
| Returned (a : A)
| Thrown (e : JsError).
Arguments Returned {A} a.
Arguments Thrown {A} e.

Record Result (A : Type) := mkResult {
  outcome : Outcome A;
  final : TestModel;
  events : list Event;
}.
Arguments mkResult {A}.
Arguments outcome {A}.
Arguments final {A}.
Arguments events {A}.

Definition M (A : Type) := TestModel -> Result A.

Definition ret {A} (a : A) : M A := fun s => mkResult (Returned a) s [].

Definition bind {A B} (m : M A) (k : A -> M B) : M B := fun s =>
  let r := m s in
  match outcome r with
  | Returned a =>
      let r' := k a (final r) in
      mkResult (outcome r') (final r') (events r ++ events r')
  | Thrown e => mkResult (Thrown e) (final r) (events r)
  end.

Definition throw {A} (e : JsError) : M A := fun s => mkResult (Thrown e) s [].
Definition get_model : M TestModel := fun s => mkResult (Returned s) s [].
Definition modify (f : TestModel -> TestModel) : M unit :=
  fun s => mkResult (Returned tt) (f s) [].
Definition emit (e : Event) : M unit := fun s => mkResult (Returned tt) s [e].
(** A step that cannot throw and fires nothing. *)
Definition lift {A} (f : TestModel -> A * TestModel) : M A :=
  fun s => mkResult (Returned (fst (f s))) (snd (f s)) [].

Declare Scope js_scope.
Delimit Scope js_scope with js.
Notation "x <- m ;; k" := (bind m (fun x => k))
  (at level 100, m at next level, right associativity) : js_scope.
Notation "m ;;; k" := (bind m (fun _ => k))
  (at level 100, right associativity) : js_scope.
Open Scope js_scope.

(** [e!] *)
Definition non_null {A} (o : option A) : M A :=
  match o with Some a => ret a | None => throw TypeError end.

(** [for (const x of xs) body(x)] *)
Fixpoint for_of {A} (xs : list A) (body : A -> M unit) : M unit :=
  match xs with
  | [] => ret tt
  | x :: xs' => body x ;;; for_of xs' body
  end.

(** [this._didUpdate.fire()] *)
Definition fire : M unit := emit DidUpdate.

Definition is_DidUpdate (e : Event) : bool :=
  match e with DidUpdate => true | _ => false end.

(** How many times the change event was fired. *)
Definition fired (evs : list Event) : nat :=
  length (List.filter is_DidUpdate evs).

(** ** [class TestFile] *)

Definition new_TestFile (project : ProjRef) (file : string) : TestFile :=
  {| tf_project := project; tf_file := file; _entries := None; _revision := 0 |}.

Definition entries (f : TestFile) : option (list TestEntry) := _entries f.

Definition setEntries (es : list TestEntry) (f : TestFile) : TestFile :=
  {| tf_project := tf_project f;
     tf_file := tf_file f;
     _entries := Some es;
     _revision := (_revision f + 1)%Z |}.

Definition revision (f : TestFile) : Z := _revision f.

(** ** Field updates of the model and of its objects *)

Definition set_projHeap (h : list TestProject) (s : TestModel) : TestModel :=
  {| projHeap := h; fileHeap := fileHeap s; config := config s;
     _projects := _projects s; _fileToSources := _fileToSources s;
     _sourceToFile := _sourceToFile s |}.

Definition set_fileHeap (h : list TestFile) (s : TestModel) : TestModel :=
  {| projHeap := projHeap s; fileHeap := h; config := config s;
     _projects := _projects s; _fileToSources := _fileToSources s;
     _sourceToFile := _sourceToFile s |}.

Definition set_projects (m : JsMap.t ProjRef) (s : TestModel) : TestModel :=
  {| projHeap := projHeap s; fileHeap := fileHeap s; config := config s;
     _projects := m; _fileToSources := _fileToSources s;
     _sourceToFile := _sourceToFile s |}.

Definition set_sourceMaps (c : JsMap.t (list string) * JsMap.t string)
    (s : TestModel) : TestModel :=
  {| projHeap := projHeap s; fileHeap := fileHeap s; config := config s;
     _projects := _projects s; _fileToSources := fst c;
     _sourceToFile := snd c |}.

Definition set_testIdAttributeName (a : option string) (s : TestModel)
    : TestModel :=
  {| projHeap := projHeap s; fileHeap := fileHeap s;
     config := {| workspaceFolder := workspaceFolder (config s);
                  configFile := configFile (config s);
                  cli := cli (config s);
                  version := version (config s);
                  testIdAttributeName := a |};
     _projects := _projects s; _fileToSources := _fileToSources s;
     _sourceToFile := _sourceToFile s |}.

Definition set_files (m : JsMap.t FileRef) (P : TestProject) : TestProject :=
  {| name := name P; testDir := testDir P; files := m;
     isEnabled := isEnabled P |}.

Definition set_isEnabled (b : bool) (P : TestProject) : TestProject :=
  {| name := name P; testDir := testDir P; files := files P;
     isEnabled := b |}.

(** [project.files] for the object behind a reference. *)
Definition project_files (s : TestModel) (project : ProjRef)
    : JsMap.t FileRef :=
  match projHeap s !! project with
  | Some P => files P
  | None => []
  end.

(** [file.entries()] for the object behind a reference. *)
Definition file_entries (s : TestModel) (file : FileRef)
    : option (list TestEntry) :=
  match fileHeap s !! file with
  | Some f => entries f
  | None => None
  end.

(** [file.setEntries(es)] for the object behind a reference. *)
Definition file_setEntries (file : FileRef) (es : list TestEntry)
    (s : TestModel) : TestModel :=
  set_fileHeap (alter (setEntries es) file (fileHeap s)) s.

(** [project.files.delete(file)] *)
Definition project_files_delete (project : ProjRef) (file : string)
    (s : TestModel) : TestModel :=
  set_projHeap
    (alter (fun P => set_files (JsMap.delete file (files P)) P) project
       (projHeap s)) s.

(** ** [class TestModel] *)

(** The constructor: no project yet, empty source map caches. *)
Definition new_TestModel (workspaceFolder configFile cli : string)
    (version : Z) : TestModel :=
  {| projHeap := []; fileHeap := [];
     config := {| workspaceFolder := workspaceFolder;
                  configFile := configFile; cli := cli; version := version;
                  testIdAttributeName := None |};
     _projects := []; _fileToSources := []; _sourceToFile := [] |}.

Definition setProjectEnabled (project : ProjRef) (enabled : bool) : M unit :=
  modify (fun s =>
    set_projHeap (alter (set_isEnabled enabled) project (projHeap s)) s) ;;;
  fire.

Definition allProjects (s : TestModel) : JsMap.t ProjRef := _projects s.

Definition enabledProjects (s : TestModel) : list ProjRef :=
  List.filter
    (fun p => match projHeap s !! p with
              | Some P => isEnabled P
              | None => false
              end)
    (JsMap.values (_projects s)).

Definition enabledFiles (s : TestModel) : list string :=
  concat (map (fun p => JsMap.keys (project_files s p)) (enabledProjects s)).

Definition _createProject (projectReport : ProjectConfigWithFiles)
    (s : TestModel) : ProjRef * TestModel :=
  let project := length (projHeap s) in
  let obj := {| name := pc_name projectReport;
                testDir := pc_testDir projectReport;
                files := [];
                isEnabled := true |} in
  (project,
   set_projects (JsMap.set (name obj) project (_projects s))
     (set_projHeap (projHeap s ++ [obj]) s)).

Definition _createFile (project : ProjRef) (file : string) (s : TestModel)
    : FileRef * TestModel :=
  let testFile := length (fileHeap s) in
  (testFile,
   set_projHeap
     (alter (fun P => set_files (JsMap.set file testFile (files P)) P)
        project (projHeap s))
     (set_fileHeap (fileHeap s ++ [new_TestFile project file]) s)).

(** First loop of [_updateProject]: one iteration. *)
Definition _updateProject_add (project : ProjRef)
    (acc : JsSet.t * TestModel) (file : string) : JsSet.t * TestModel :=
  (JsSet.add file (fst acc),
   match JsMap.get file (project_files (snd acc) project) with
   | Some _ => snd acc
   | None => snd (_createFile project file (snd acc))
   end).

(** Second loop of [_updateProject]: one iteration. *)
Definition _updateProject_prune (project : ProjRef) (filesToKeep : JsSet.t)
    (s : TestModel) (file : string) : TestModel :=
  if JsSet.has file filesToKeep then s
  else project_files_delete project file s.

Definition _updateProject (project : ProjRef)
    (projectReport : ProjectConfigWithFiles) (s : TestModel) : TestModel :=
  let acc :=
    fold_left (_updateProject_add project) (pc_files projectReport) ([], s) in
  fold_left (_updateProject_prune project (fst acc))
    (JsMap.keys (project_files (snd acc) project)) (snd acc).

(** [listFiles], the loop that resolves files to sources: the inner loop
    over [project.files]. *)
Definition resolve_files (rsm : SourceMapResolver) (fs : list string)
    (c : JsMap.t (list string) * JsMap.t string)
    : list string * (JsMap.t (list string) * JsMap.t string) :=
  fold_left
    (fun acc file =>
       let r := rsm file (fst (snd acc)) (snd (snd acc)) in
       (fst acc ++ fst r, snd r))
    fs ([], c).

(** One iteration of the outer loop: [project.files = files] and
    [this.config.testIdAttributeName = project.use?.testIdAttribute]. *)
Definition resolve_project (rsm : SourceMapResolver)
    (acc : list ProjectConfigWithFiles * TestModel)
    (project : ProjectConfigWithFiles)
    : list ProjectConfigWithFiles * TestModel :=
  let s := snd acc in
  let r := resolve_files rsm (pc_files project)
             (_fileToSources s, _sourceToFile s) in
  (fst acc ++ [{| pc_name := pc_name project;
                  pc_testDir := pc_testDir project;
                  pc_use := pc_use project;
                  pc_files := fst r |}],
   set_testIdAttributeName
     (match pc_use project with
      | Some u => testIdAttribute u
      | None => None
      end)
     (set_sourceMaps (snd r) s)).

Definition resolve_projects (rsm : SourceMapResolver)
    (projects : list ProjectConfigWithFiles) (s : TestModel)
    : list ProjectConfigWithFiles * TestModel :=
  fold_left (resolve_project rsm) projects ([], s).

(** One iteration of the loop over [report.projects]. *)
Definition listFiles_project (acc : JsSet.t * TestModel)
    (projectReport : ProjectConfigWithFiles) : JsSet.t * TestModel :=
  let created :=
    match JsMap.get (pc_name projectReport) (_projects (snd acc)) with
    | Some project => (project, snd acc)
    | None => _createProject projectReport (snd acc)
    end in
  (JsSet.add (pc_name projectReport) (fst acc),
   _updateProject (fst created) projectReport (snd created)).

(** One iteration of the loop over [this._projects.keys()]. *)
Definition listFiles_prune (projectsToKeep : JsSet.t) (s : TestModel)
    (projectName : string) : TestModel :=
  if JsSet.has projectName projectsToKeep then s
  else set_projects (JsMap.delete projectName (_projects s)) s.

(** [listFiles] after the report came back without an error. *)
Definition listFiles_apply (rsm : SourceMapResolver)
    (report : ConfigListFilesReport) (s : TestModel) : TestModel :=
  let resolved := resolve_projects rsm (rep_projects report) s in
  let acc := fold_left listFiles_project (fst resolved) ([], snd resolved) in
  fold_left (listFiles_prune (fst acc)) (JsMap.keys (_projects (snd acc)))
    (snd acc).

Definition listFiles (c : Collaborators) : M (option TestError) :=
  s <- get_model ;;
  emit (CallListFiles (config s)) ;;;
  let report := pw_listFiles (playwrightTest c) (config s) in
  match rep_error report with
  | Some e => ret (Some e)
  | None =>
      modify (listFiles_apply (resolveSourceMap c) report) ;;;
      fire ;;;
      ret None
  end.

(** A loop that carries a local variable. *)
Fixpoint for_of_acc {A B} (xs : list A) (body : B -> A -> M B) (b : B) : M B :=
  match xs with
  | [] => ret b
  | x :: xs' => b' <- body b x ;; for_of_acc xs' body b'
  end.

(** [projectSuites.find(e => e.project()!.name === projectName)] *)
Fixpoint find_projectSuite (projectSuites : list Suite) (projectName : string)
    : M (option Suite) :=
  match projectSuites with
  | [] => ret None
  | e :: rest =>
      p <- non_null (s_project e) ;;
      if decide (fp_name p = projectName) then ret (Some e)
      else find_projectSuite rest projectName
  end.

(** [_updateProjects], loop over the file suites: one iteration. *)
Definition _updateProjects_fileSuite (project : ProjRef)
    (filesToDelete : JsSet.t) (fileSuite : Suite) : M JsSet.t :=
  loc <- non_null (s_location fileSuite) ;;
  s <- get_model ;;
  match JsMap.get (loc_file loc) (project_files s project) with
  | None => ret (JsSet.delete (loc_file loc) filesToDelete)
  | Some file =>
      modify (file_setEntries file (suite_entries fileSuite)) ;;;
      ret (JsSet.delete (loc_file loc) filesToDelete)
  end.

(** [_updateProjects], loop over [filesToDelete]: one iteration. *)
Definition _updateProjects_missing (project : ProjRef) (file : string)
    : M unit :=
  s <- get_model ;;
  match JsMap.get file (project_files s project) with
  | Some testFile => modify (file_setEntries testFile [])
  | None => ret tt
  end.

(** [_updateProjects], body of the loop over [this._projects]. *)
Definition _updateProjects_project (projectSuites : list Suite)
    (requestedFiles : list string) (entry : string * ProjRef) : M unit :=
  projectSuite <- find_projectSuite projectSuites (fst entry) ;;
  filesToDelete <-
    for_of_acc
      (match projectSuite with Some ps => s_suites ps | None => [] end)
      (_updateProjects_fileSuite (snd entry))
      (JsSet.of_list requestedFiles) ;;
  for_of filesToDelete (_updateProjects_missing (snd entry)).

Definition _updateProjects (projectSuites : list Suite)
    (requestedFiles : list string) : M unit :=
  s <- get_model ;;
  for_of (_projects s)
    (_updateProjects_project projectSuites requestedFiles) ;;;
  fire.

Definition listTests (c : Collaborators) (files : list string)
    : M (list TestError) :=
  s <- get_model ;;
  emit (CallListTests (config s) files) ;;;
  let answer := pw_listTests (playwrightTest c) (config s) files in
  _updateProjects (s_suites (fst answer)) files ;;;
  ret (snd answer).

(** [_updateFromRunningProject], body of the loop over the file suites. *)
Definition _updateFromRunningProject_fileSuite (project : ProjRef)
    (fileSuite : Suite) : M unit :=
  if bool_decide (length (s_allTests fileSuite) = 0) then ret tt
  else
    loc <- non_null (s_location fileSuite) ;;
    s <- get_model ;;
    file <- match JsMap.get (loc_file loc) (project_files s project) with
            | Some file => ret file
            | None => lift (_createFile project (loc_file loc))
            end ;;
    s' <- get_model ;;
    match file_entries s' file with
    | None => modify (file_setEntries file (suite_entries fileSuite))
    | Some _ => ret tt
    end.

Definition _updateFromRunningProject (project : ProjRef)
    (projectSuite : Suite) : M unit :=
  for_of (s_suites projectSuite)
    (_updateFromRunningProject_fileSuite project) ;;;
  fire.

(** [updateFromRunningProjects], body of the loop. *)
Definition updateFromRunningProjects_projectSuite (projectSuite : Suite)
    : M unit :=
  p <- non_null (s_project projectSuite) ;;
  s <- get_model ;;
  match JsMap.get (fp_name p) (_projects s) with
  | Some project => _updateFromRunningProject project projectSuite
  | None => ret tt
  end.

Definition updateFromRunningProjects (projectSuites : list Suite) : M unit :=
  for_of projectSuites updateFromRunningProjects_projectSuite.

(** [_mapFilesToSources] *)
Definition _mapFilesToSources (s : TestModel) (fs : JsSet.t) : JsSet.t :=
  fold_left
    (fun result file =>
       match JsMap.get file (_fileToSources s) with
       | Some sources => fold_left (fun r f => JsSet.add f r) sources result
       | None => JsSet.add file result
       end)
    fs [].

(** [workspaceChanged], the loop over the deleted files for one project;
    the flag is [modelChanged]. *)
Definition workspaceChanged_delete (project : ProjRef)
    (acc : bool * TestModel) (file : string) : bool * TestModel :=
  if JsMap.has file (project_files (snd acc) project)
  then (true, project_files_delete project file (snd acc))
  else acc.

Definition workspaceChanged_deleted (deleted : JsSet.t) (s : TestModel)
    : bool * TestModel :=
  if bool_decide (length deleted = 0) then (false, s)
  else
    fold_left
      (fun acc project => fold_left (workspaceChanged_delete project) deleted acc)
      (JsMap.values (_projects s)) (false, s).

(** [hasMatchingFiles] *)
Definition hasMatchingFiles (s : TestModel) (created : JsSet.t) : bool :=
  fold_left
    (fun acc project =>
       fold_left
         (fun acc file =>
            match projHeap s !! project with
            | Some P => if String.prefix (testDir P) file then true else acc
            | None => acc
            end)
         created acc)
    (JsMap.values (_projects s)) false.

(** [filesToLoad] *)
Definition filesToLoad_project (s : TestModel) (changed : JsSet.t)
    (acc : JsSet.t) (project : ProjRef) : JsSet.t :=
  fold_left
    (fun acc file =>
       match JsMap.get file (project_files s project) with
       | None => acc
       | Some testFile =>
           match file_entries s testFile with
           | None => acc
           | Some _ => JsSet.add file acc
           end
       end)
    changed acc.

Definition filesToLoad (s : TestModel) (changed : JsSet.t) : JsSet.t :=
  fold_left (filesToLoad_project s changed) (JsMap.values (_projects s)) [].

Definition narrowDownFilesToEnabledProjects (s : TestModel)
    (fileNames : JsSet.t) : JsSet.t :=
  fold_left
    (fun result project =>
       fold_left
         (fun result fileName =>
            if JsMap.has fileName (project_files s project)
            then JsSet.add fileName result
            else result)
         fileNames result)
    (enabledProjects s) [].

Definition workspaceChanged_created (c : Collaborators) (created : JsSet.t)
    : M unit :=
  if bool_decide (length created = 0) then ret tt
  else
    s <- get_model ;;
    if hasMatchingFiles s created then listFiles c ;;; ret tt else ret tt.

Definition workspaceChanged_changed (c : Collaborators) (changed : JsSet.t)
    : M unit :=
  if bool_decide (length changed = 0) then ret tt
  else
    s <- get_model ;;
    if bool_decide (length (filesToLoad s changed) = 0) then ret tt
    else listTests c (filesToLoad s changed) ;;; ret tt.

Definition workspaceChanged (c : Collaborators) (change : WorkspaceChange)
    : M unit :=
  s <- get_model ;;
  let changed' := _mapFilesToSources s (changed change) in
  let created' := _mapFilesToSources s (created change) in
  let deleted' := _mapFilesToSources s (deleted change) in
  modelChanged <- lift (workspaceChanged_deleted deleted') ;;
  workspaceChanged_created c created' ;;;
  workspaceChanged_changed c changed' ;;;
  if modelChanged : bool then fire else ret tt.

(** Operations a client can invoke on the model, each with the answers the
    collaborators give at that time. *)
Inductive ModelOp :=
| OpListFiles (c : Collaborators)
| OpListTests (c : Collaborators) (files : list string)
| OpUpdateFromRunningProjects (projectSuites : list Suite)
| OpWorkspaceChanged (c : Collaborators) (change : WorkspaceChange)
| OpSetProjectEnabled (project : ProjRef) (enabled : bool).

(** The model after an operation, whether it returned or threw. *)
Definition run_op (op : ModelOp) (s : TestModel) : TestModel :=
  match op with
  | OpListFiles c => final (listFiles c s)
  | OpListTests c fs => final (listTests c fs s)
  | OpUpdateFromRunningProjects ps => final (updateFromRunningProjects ps s)
  | OpWorkspaceChanged c ch => final (workspaceChanged c ch s)
  | OpSetProjectEnabled p b => final (setProjectEnabled p b s)
  end.

Definition run_ops (ops : list ModelOp) (s : TestModel) : TestModel :=
  fold_left (fun s op => run_op op s) ops s.

(** ** A small workspace to run the model on *)

Module Sample.
Open Scope string_scope.

Definition a_spec : string := "/proj/tests/a.spec.ts".
Definition b_spec : string := "/proj/tests/b.spec.ts".

Definition case (title file : string) : TestCase :=
  {| tc_id := title; tc_title := title;
     tc_location := {| loc_file := file; loc_line := 3; loc_column := 1 |} |}.

Definition fileSuite (file : string) (tests : list TestCase) : Suite :=
  mkSuite file None
    (Some {| loc_file := file; loc_line := 0; loc_column := 0 |})
    [] tests tests.

Definition projectSuite (name : string) (fileSuites : list Suite) : Suite :=
  mkSuite name (Some {| fp_name := name; fp_testDir := "/proj/tests" |})
    None fileSuites [] (concat (map s_allTests fileSuites)).

Definition rootSuite (projectSuites : list Suite) : Suite :=
  mkSuite "" None None projectSuites []
    (concat (map s_allTests projectSuites)).

Definition chromium (fs : list string) : ProjectConfigWithFiles :=
  {| pc_name := "chromium"; pc_testDir := "/proj/tests";
     pc_use := None; pc_files := fs |}.

Definition firefox (fs : list string) : ProjectConfigWithFiles :=
  {| pc_name := "firefox"; pc_testDir := "/proj/tests";
     pc_use := None; pc_files := fs |}.

(** No source maps: every file is its own source. *)
Definition no_sourceMaps : SourceMapResolver :=
  fun file f2s s2f => ([file], (f2s, s2f)).

(** A runner that lists two projects and parses one test in a.spec.ts. *)
Definition runner : Collaborators :=
  {| playwrightTest :=
       {| pw_listFiles := fun _ =>
            {| rep_error := None;
               rep_projects := [chromium [a_spec; b_spec]; firefox [a_spec]] |};
          pw_listTests := fun _ _ =>
            (rootSuite [projectSuite "chromium"
                          [fileSuite a_spec [case "logs in" a_spec]]], []) |};
     resolveSourceMap := no_sourceMaps |}.

(** A runner whose configuration fails to load. *)
Definition broken_runner : Collaborators :=
  {| playwrightTest :=
       {| pw_listFiles := fun _ =>
            {| rep_error := Some {| err_location := None;
                                    err_message := Some "config failed";
                                    err_snippet := None;
                                    err_stack := None; err_value := None |};
               rep_projects := [chromium [a_spec]] |};
          pw_listTests := fun _ _ => (rootSuite [], []) |};
     resolveSourceMap := no_sourceMaps |}.

Definition empty_model : TestModel :=
  new_TestModel "/proj" "/proj/playwright.config.ts" "cli.js" 1.

(** A runner that from now on lists chromium alone, with a.spec.ts and a
    new c.spec.ts. *)
Definition c_spec : string := "/proj/tests/c.spec.ts".

Definition narrow_runner : Collaborators :=
  {| playwrightTest :=
       {| pw_listFiles := fun _ =>
            {| rep_error := None;
               rep_projects := [chromium [a_spec; c_spec]] |};
          pw_listTests := fun _ _ => (rootSuite [], []) |};
     resolveSourceMap := no_sourceMaps |}.

(** A resolver with one source map: the bundle stands for a.spec.ts and
    c.spec.ts, and the resolver records it in both caches; any other file
    is its own source. *)
Definition bundle : string := "/proj/out/bundle.js".

Definition bundle_sourceMaps : SourceMapResolver :=
  fun file f2s s2f =>
    if decide (file = bundle)
    then ([a_spec; c_spec],
          (JsMap.set bundle [a_spec; c_spec] f2s,
           JsMap.set c_spec bundle (JsMap.set a_spec bundle s2f)))
    else ([file], (f2s, s2f)).

(** A runner that lists, for firefox, b.spec.ts and the bundle, and then
    chromium with the bundle alone. *)
Definition bundling_runner : Collaborators :=
  {| playwrightTest :=
       {| pw_listFiles := fun _ =>
            {| rep_error := None;
               rep_projects := [firefox [b_spec; bundle]; chromium [bundle]] |};
          pw_listTests := fun _ _ => (rootSuite [], []) |};
     resolveSourceMap := bundle_sourceMaps |}.

(** A runner whose report names chromium twice. *)
Definition repeating_runner : Collaborators :=
  {| playwrightTest :=
       {| pw_listFiles := fun _ =>
            {| rep_error := None;
               rep_projects := [chromium [a_spec]; chromium [b_spec]] |};
          pw_listTests := fun _ _ => (rootSuite [], []) |};
     resolveSourceMap := no_sourceMaps |}.

(** After a first discovery: chromium with a and b, firefox with a. *)
Definition listed : TestModel := final (listFiles runner empty_model).

(** After parsing a.spec.ts: chromium's a has one entry, firefox's a has
    been confirmed empty, chromium's b is still unparsed. *)
Definition parsed : TestModel := final (listTests runner [a_spec] listed).
End Sample.

(** ** Relations between the model before and after a pass *)

(** Objects are never taken out of the store: a pass appends new ones. *)
Definition fileHeap_extends : relation TestModel :=
  fun s s' => fileHeap s `prefix_of` fileHeap s'.

(** Every [TestFile] object stays the same object (same project, same path)
    and its revision does not go down. *)
Definition files_grow : relation TestModel :=
  fun s s' =>
    forall r f, fileHeap s !! r = Some f ->
      exists f', fileHeap s' !! r = Some f' /\
                 tf_project f' = tf_project f /\
                 tf_file f' = tf_file f /\
                 (revision f <= revision f')%Z.

(** What a live run may do to the model: the project map, the configuration
    and the source map caches stay; every project object keeps its name,
    directory, flag and every file it had; a [TestFile] object either stays
    as it is or, if it had no entries, received some. *)
Definition running_frame : relation TestModel :=
  fun s s' =>
    _projects s' = _projects s /\
    config s' = config s /\
    _fileToSources s' = _fileToSources s /\
    _sourceToFile s' = _sourceToFile s /\
    (forall p P, projHeap s !! p = Some P ->
       exists P', projHeap s' !! p = Some P' /\
                  name P' = name P /\ testDir P' = testDir P /\
                  isEnabled P' = isEnabled P /\
                  forall x r, JsMap.get x (files P) = Some r ->
                              JsMap.get x (files P') = Some r) /\
    (forall r f, fileHeap s !! r = Some f ->
       exists f', fileHeap s' !! r = Some f' /\
                  (f' = f \/
                   (entries f = None /\ exists es, f' = setEntries es f))).


(** ** The stages of [workspaceChanged] *)

(** The model once the deleted files have been dropped. *)
Definition after_deleted (change : WorkspaceChange) (s : TestModel)
    : TestModel :=
  snd (workspaceChanged_deleted (_mapFilesToSources s (deleted change)) s).

(** The model once the created files have been handled, when the pass
    turns to the changed files. *)
Definition after_created (c : Collaborators) (change : WorkspaceChange)
    (s : TestModel) : TestModel :=
  final (workspaceChanged_created c (_mapFilesToSources s (created change))
           (after_deleted change s)).

(** [true] when the computation returned, [false] when it threw. *)
Definition returned {A} (r : Result A) : bool :=
  match outcome r with Returned _ => true | Thrown _ => false end.

(** Whether a project holds one of the deleted files. *)
Definition removes_some (s : TestModel) (del : JsSet.t) (p : ProjRef) : bool :=
  existsb (fun x => JsMap.has x (project_files s p)) del.

(** ** Consistency of the object graph *)

(** A [TestFile] stored under [file] in the map of [project] is the object
    that was built by [new TestFile(project, file)]. *)
Definition slot_ok (s : TestModel) (project : ProjRef) (file : string)
    (testFile : FileRef) : Prop :=
  exists f, fileHeap s !! testFile = Some f /\
            tf_project f = project /\ tf_file f = file.

(** A project stored under [n] in [_projects] is an object named [n] whose
    file map has distinct keys and consistent slots. *)
Definition project_ok (s : TestModel) (n : string) (project : ProjRef)
    : Prop :=
  exists P, projHeap s !! project = Some P /\
            name P = n /\
            NoDup (JsMap.keys (files P)) /\
            forall x r, JsMap.get x (files P) = Some r -> slot_ok s project x r.

(** The invariant of the model: [_projects] is a map (distinct keys) and
    the back references of its objects agree with where they are stored. *)
Definition wf (s : TestModel) : Prop :=
  NoDup (JsMap.keys (_projects s)) /\
  forall n project,
    JsMap.get n (_projects s) = Some project -> project_ok s n project.

(** A slot created by [_createFile] since the model was [s]. *)
Definition fresh_slot (s s' : TestModel) (project : ProjRef) (file : string)
    (testFile : FileRef) : Prop :=
  length (fileHeap s) <= testFile /\
  fileHeap s' !! testFile = Some (new_TestFile project file).

(** The project objects of [s] are still there, with their name, directory
    and flag. *)
Definition projects_stable (s s' : TestModel) : Prop :=
  forall q P, projHeap s !! q = Some P ->
    exists P', projHeap s' !! q = Some P' /\ name P' = name P /\
               testDir P' = testDir P /\ isEnabled P' = isEnabled P.

(** Every slot of a file map is one the model had in [s] or a fresh one. *)
Definition slots_from (s s' : TestModel) : Prop :=
  forall q x r, JsMap.get x (project_files s' q) = Some r ->
    JsMap.get x (project_files s q) = Some r \/ fresh_slot s s' q x r.

(** What [_updateProject] may do: it touches the file map of one project
    object and appends to the store of files. *)
Definition updates_project (p : ProjRef) : relation TestModel :=
  fun s s' =>
    _projects s' = _projects s /\
    length (projHeap s') = length (projHeap s) /\
    (forall q, q <> p -> projHeap s' !! q = projHeap s !! q) /\
    projects_stable s s' /\
    fileHeap_extends s s' /\
    slots_from s s'.

(** What a discovery pass may do: project objects stay, new ones are
    enabled; file objects stay, new slots are fresh. *)
Definition reconciles : relation TestModel :=
  fun s s' =>
    length (projHeap s) <= length (projHeap s') /\
    projects_stable s s' /\
    fileHeap_extends s s' /\
    slots_from s s' /\
    (forall n l, JsMap.get n (_projects s') = Some l ->
       JsMap.get n (_projects s) = Some l \/
       (length (projHeap s) <= l /\
        exists P, projHeap s' !! l = Some P /\ name P = n /\
                  isEnabled P = true)).

(** The two object stores and the project map are the same. *)
Definition same_graph (s s' : TestModel) : Prop :=
  projHeap s' = projHeap s /\ fileHeap s' = fileHeap s /\
  _projects s' = _projects s.

(** The pass keeps the invariant. *)
Definition keeps_wf : relation TestModel := fun s s' => wf s -> wf s'.

(** The project suite [_updateProjects] picks for a project name, when the
    search does not throw. *)
Definition projectSuite_for (projectSuites : list Suite) (projectName : string)
    : option Suite :=
  List.find
    (fun e => match s_project e with
              | Some p => bool_decide (fp_name p = projectName)
              | None => false
              end)
    projectSuites.

(** What a targeted parse may do while it handles one project: it only
    replaces entries, and only of files of that project. *)
Definition entries_only (project : ProjRef) : relation TestModel :=
  fun s s' =>
    projHeap s' = projHeap s /\
    _projects s' = _projects s /\
    forall r, r ∉ JsMap.values (project_files s project) ->
              fileHeap s' !! r = fileHeap s !! r.

(** The file object [r] holds the empty sequence, at a revision above [k]. *)
Definition confirmed_empty (r : FileRef) (k : Z) (s : TestModel) : Prop :=
  exists f, fileHeap s !! r = Some f /\ entries f = Some [] /\
            (k < revision f)%Z.

(** ** Properties of computations *)

(** A relation between the model before and after that every step of a
    computation respects, whatever the outcome. *)
Definition preserves {A} (R : relation TestModel) (m : M A) : Prop :=
  forall s, R s (final (m s)).

(** A computation that leaves no event in the log. *)
Definition silent {A} (m : M A) : Prop := forall s, events (m s) = [].

(** ** Further relations between the model before and after a pass *)

(** A [TestFile] object that has entries still has entries. *)
Definition stays_parsed : relation TestModel :=
  fun s s' =>
    forall r f, fileHeap s !! r = Some f -> entries f <> None ->
      exists f', fileHeap s' !! r = Some f' /\ entries f' <> None.

(** What a targeted parse may change: nothing but the contents of the
    [TestFile] objects. *)
Definition membership_kept : relation TestModel :=
  fun s s' =>
    projHeap s' = projHeap s /\
    _projects s' = _projects s /\
    config s' = config s /\
    _fileToSources s' = _fileToSources s /\
    _sourceToFile s' = _sourceToFile s /\
    length (fileHeap s') = length (fileHeap s).

(** The operation is a [setProjectEnabled] on the project object [q]. *)
Definition enables (q : ProjRef) (op : ModelOp) : bool :=
  match op with
  | OpSetProjectEnabled p _ => bool_decide (p = q)
  | _ => false
  end.

(** A project suite has a project, and each of its file suites that
    satisfies [needed] has a location. *)
Definition suite_located (needed : Suite -> bool) (projectSuite : Suite)
    : Prop :=
  is_Some (s_project projectSuite) /\
  forall fileSuite, fileSuite ∈ s_suites projectSuite ->
    needed fileSuite = true -> is_Some (s_location fileSuite).

(** [fileSuite.allTests().length] is not zero. *)
Definition has_tests (fileSuite : Suite) : bool :=
  negb (bool_decide (length (s_allTests fileSuite) = 0)).

(** The project object [q] is still there with its name and directory, and
    with its flag when [flag] is set. *)
Definition project_kept (flag : bool) (q : ProjRef) : relation TestModel :=
  fun s s' =>
    forall P, projHeap s !! q = Some P ->
      exists P', projHeap s' !! q = Some P' /\
                 name P' = name P /\ testDir P' = testDir P /\
                 (flag = true -> isEnabled P' = isEnabled P).

(** [project.use?.testIdAttribute] of the last reported project, or the
    old value when no project is reported. *)
Definition last_testIdAttribute (projects : list ProjectConfigWithFiles)
    (old : option string) : option string :=
  match last projects with
  | Some p => match pc_use p with
              | Some u => testIdAttribute u
              | None => None
              end
  | None => old
  end.

(** The configuration record is the same. *)
Definition config_kept : relation TestModel :=
  fun s s' => config s' = config s.

(** The project map, the configuration and the directory of every project
    object are the same. *)
Definition dirs_kept : relation TestModel :=
  fun s s' =>
    _projects s' = _projects s /\
    config s' = config s /\
    forall q, testDir <$> projHeap s' !! q = testDir <$> projHeap s !! q.

(** A created file lies under the directory of a project of the map. *)
Definition under_testDir (s : TestModel) (created : JsSet.t) : Prop :=
  exists q P x,
    q ∈ JsMap.values (_projects s) /\ projHeap s !! q = Some P /\
    x ∈ created /\ String.prefix (testDir P) x = true.

(** The file object [r] holds the sequence [es], at a revision above [k]. *)
Definition holds_entries (r : FileRef) (es : list TestEntry) (k : Z)
    (s : TestModel) : Prop :=
  exists f, fileHeap s !! r = Some f /\ entries f = Some es /\
            (k < revision f)%Z.

(** No file suite of the suite picked for the project name is located in
    the path. *)
Definition unreported (projectSuites : list Suite) (projectName : string)
    (file : string) : Prop :=
  forall suite fileSuite loc,
    projectSuite_for projectSuites projectName = Some suite ->
    fileSuite ∈ s_suites suite ->
    s_location fileSuite = Some loc -> loc_file loc <> file.

(** The project holds, under the path, a file object that has entries. *)
Definition parsed_at (project : ProjRef) (file : string) (s : TestModel)
    : Prop :=
  exists r f es,
    JsMap.get file (project_files s project) = Some r /\
    fileHeap s !! r = Some f /\ entries f = Some es.



(** * Properties *)

(** ** The model at work *)

(** A first discovery on a new model: two projects, enabled, their files
    not parsed yet; one change event. *)
Example first_discovery :
  allProjects Sample.listed = [("chromium"%string, 0); ("firefox"%string, 1)] /\
  projHeap Sample.listed =
    [{| name := "chromium"; testDir := "/proj/tests";
        files := [(Sample.a_spec, 0); (Sample.b_spec, 1)];
        isEnabled := true |};
     {| name := "firefox"; testDir := "/proj/tests";
        files := [(Sample.a_spec, 2)]; isEnabled := true |}] /\
  fileHeap Sample.listed =
    [new_TestFile 0 Sample.a_spec; new_TestFile 0 Sample.b_spec;
     new_TestFile 1 Sample.a_spec] /\
  fired (events (listFiles Sample.runner Sample.empty_model)) = 1.
Proof. repeat split. Qed.

(** Parsing a.spec.ts: chromium's file gets the one test at revision 1,
    firefox's is confirmed empty, chromium's b.spec.ts is left alone. *)
Example first_parse :
  fileHeap Sample.parsed =
    [{| tf_project := 0; tf_file := Sample.a_spec;
        _entries := Some [EntryCase (Sample.case "logs in" Sample.a_spec)];
        _revision := 1 |};
     new_TestFile 0 Sample.b_spec;
     {| tf_project := 1; tf_file := Sample.a_spec;
        _entries := Some []; _revision := 1 |}] /\
  fired (events (listTests Sample.runner [Sample.a_spec] Sample.listed)) = 1.
Proof. repeat split. Qed.

(** A later discovery that lists chromium alone, with a.spec.ts and
    c.spec.ts: firefox and b.spec.ts are dropped, c.spec.ts is new. *)
Example later_discovery :
  let s' := final (listFiles Sample.narrow_runner Sample.parsed) in
  allProjects s' = [("chromium"%string, 0)] /\
  project_files s' 0 = [(Sample.a_spec, 0); (Sample.c_spec, 3)] /\
  file_entries s' 0 = Some [EntryCase (Sample.case "logs in" Sample.a_spec)] /\
  file_entries s' 3 = None.
Proof. repeat split. Qed.

(** A file suite without location makes the live run throw. *)
Example live_run_throws :
  outcome (updateFromRunningProjects
             [Sample.projectSuite "chromium"
                [mkSuite "anonymous" None None []
                   [Sample.case "t" Sample.a_spec]
                   [Sample.case "t" Sample.a_spec]]]
             Sample.parsed) = Thrown TypeError.
Proof. reflexivity. Qed.

(** Files deleted in both projects are announced once. *)
Example deletions_coalesce :
  let r := workspaceChanged Sample.runner
             {| created := []; changed := [];
                deleted := [Sample.a_spec; Sample.b_spec] |} Sample.parsed in
  project_files (final r) 0 = [] /\ project_files (final r) 1 = [] /\
  events r = [DidUpdate].
Proof. repeat split. Qed.

(** ** Rules for the effect monad *)

Section Rules.
Context {A B : Type}.

Lemma final_bind (m : M A) (k : A -> M B) s :
  final (bind m k s) =
  match outcome (m s) with
  | Returned a => final (k a (final (m s)))
  | Thrown _ => final (m s)
  end.
Proof. unfold bind. by destruct (outcome (m s)). Qed.

Lemma events_bind (m : M A) (k : A -> M B) s :
  events (bind m k s) =
  match outcome (m s) with
  | Returned a => events (m s) ++ events (k a (final (m s)))
  | Thrown _ => events (m s)
  end.
Proof. unfold bind. by destruct (outcome (m s)). Qed.

Lemma outcome_bind (m : M A) (k : A -> M B) s :
  outcome (bind m k s) =
  match outcome (m s) with
  | Returned a => outcome (k a (final (m s)))
  | Thrown e => Thrown e
  end.
Proof. unfold bind. by destruct (outcome (m s)). Qed.

Lemma bind_returned (m : M A) (k : A -> M B) s b :
  outcome (bind m k s) = Returned b ->
  exists a, outcome (m s) = Returned a /\
            outcome (k a (final (m s))) = Returned b.
Proof. rewrite outcome_bind. destruct (outcome (m s)); naive_solver. Qed.
End Rules.

Section Preserves.
Context (R : relation TestModel) `{!PreOrder R}.

Lemma preserves_ret {A} (a : A) : preserves R (ret a).
Proof. intros s. simpl. reflexivity. Qed.

Lemma preserves_throw {A} e : preserves R (@throw A e).
Proof. intros s. simpl. reflexivity. Qed.

Lemma preserves_emit e : preserves R (emit e).
Proof. intros s. simpl. reflexivity. Qed.

Lemma preserves_get : preserves R get_model.
Proof. intros s. simpl. reflexivity. Qed.

Lemma preserves_non_null {A} (o : option A) : preserves R (non_null o).
Proof. destruct o; [apply preserves_ret | apply preserves_throw]. Qed.

Lemma preserves_modify f : (forall s, R s (f s)) -> preserves R (modify f).
Proof. intros H s. apply H. Qed.

Lemma preserves_lift {A} (f : TestModel -> A * TestModel) :
  (forall s, R s (snd (f s))) -> preserves R (lift f).
Proof. intros H s. apply H. Qed.

Lemma preserves_bind {A B} (m : M A) (k : A -> M B) :
  preserves R m -> (forall a, preserves R (k a)) -> preserves R (bind m k).
Proof.
  intros Hm Hk s. rewrite final_bind.
  destruct (outcome (m s)) as [a|e]; [|apply Hm].
  transitivity (final (m s)); [apply Hm | apply Hk].
Qed.

Lemma preserves_for_of {A} (xs : list A) (body : A -> M unit) :
  (forall x, preserves R (body x)) -> preserves R (for_of xs body).
Proof.
  intros Hb. induction xs as [|x xs IH]; simpl.
  - apply preserves_ret.
  - apply preserves_bind; auto.
Qed.

Lemma preserves_for_of_acc {A B} (xs : list A) (body : B -> A -> M B) b :
  (forall b x, preserves R (body b x)) ->
  preserves R (for_of_acc xs body b).
Proof.
  intros Hb. revert b. induction xs as [|x xs IH]; intros b; simpl.
  - apply preserves_ret.
  - apply preserves_bind; auto.
Qed.

Lemma fold_left_rel {A} (f : TestModel -> A -> TestModel) (xs : list A) s :
  (forall s x, R s (f s x)) -> R s (fold_left f xs s).
Proof.
  intros Hf. revert s. induction xs as [|x xs IH]; intros s; simpl.
  - reflexivity.
  - transitivity (f s x); auto.
Qed.

Lemma fold_left_rel_snd {A C} (f : C * TestModel -> A -> C * TestModel)
    (xs : list A) acc :
  (forall acc x, R (snd acc) (snd (f acc x))) ->
  R (snd acc) (snd (fold_left f xs acc)).
Proof.
  intros Hf. revert acc. induction xs as [|x xs IH]; intros acc; simpl.
  - reflexivity.
  - transitivity (snd (f acc x)); auto.
Qed.
End Preserves.


(** ** Facts about [JsMap] and [JsSet] *)

Section JsMapFacts.
Context {V : Type}.
Implicit Types (m : JsMap.t V) (k : string) (v : V).

Lemma get_set_eq k v m : JsMap.get k (JsMap.set k v m) = Some v.
Proof.
  induction m as [|[k' v'] m IH]; simpl.
  - by rewrite decide_True.
  - destruct (decide (k' = k)) as [->|Hne]; simpl.
    + by rewrite decide_True.
    + by rewrite decide_False.
Qed.

Lemma get_set_ne k k' v m :
  k <> k' -> JsMap.get k' (JsMap.set k v m) = JsMap.get k' m.
Proof.
  intros Hne. induction m as [|[k0 v0] m IH]; simpl.
  - by rewrite decide_False.
  - destruct (decide (k0 = k)) as [->|Hne0]; simpl.
    + by rewrite !decide_False.
    + destruct (decide (k0 = k')); auto.
Qed.

Lemma get_delete_eq k m : JsMap.get k (JsMap.delete k m) = None.
Proof.
  induction m as [|[k' v'] m IH]; simpl; [done|].
  destruct (decide (k' = k)); simpl; [done|]. by rewrite decide_False.
Qed.

Lemma get_delete_ne k k' m :
  k <> k' -> JsMap.get k' (JsMap.delete k m) = JsMap.get k' m.
Proof.
  intros Hne. induction m as [|[k0 v0] m IH]; simpl; [done|].
  destruct (decide (k0 = k)) as [->|Hne0]; simpl.
  - by rewrite decide_False.
  - destruct (decide (k0 = k')); auto.
Qed.

Lemma get_None_keys k m : JsMap.get k m = None <-> k ∉ JsMap.keys m.
Proof.
  induction m as [|[k' v'] m IH]; simpl.
  - split; [intros _; apply not_elem_of_nil | done].
  - rewrite not_elem_of_cons. destruct (decide (k' = k)) as [->|Hne].
    + split; [done | intros [? _]; done].
    + rewrite IH. split; [intros ?; split; congruence | tauto].
Qed.

Lemma get_Some_keys k m : is_Some (JsMap.get k m) <-> k ∈ JsMap.keys m.
Proof.
  destruct (JsMap.get k m) as [v|] eqn:E.
  - split; [intros _ | eauto].
    destruct (decide (k ∈ JsMap.keys m)) as [|Hn]; [done|].
    apply get_None_keys in Hn. congruence.
  - split; [intros [? ?]; done|]. intros Hin.
    apply get_None_keys in E. done.
Qed.

Lemma get_Some_elem k v m : JsMap.get k m = Some v -> (k, v) ∈ m.
Proof.
  induction m as [|[k' v'] m IH]; simpl; [done|].
  destruct (decide (k' = k)) as [->|Hne].
  - intros [= ->]. apply list_elem_of_here.
  - intros H. apply list_elem_of_further; auto.
Qed.

Lemma get_Some_values k v m : JsMap.get k m = Some v -> v ∈ JsMap.values m.
Proof.
  intros H. apply get_Some_elem in H. unfold JsMap.values.
  apply list_elem_of_fmap. by exists (k, v).
Qed.

Lemma set_fresh k v m :
  JsMap.get k m = None -> JsMap.set k v m = m ++ [(k, v)].
Proof.
  induction m as [|[k' v'] m IH]; simpl; [done|].
  destruct (decide (k' = k)); [done|]. intros H. by rewrite IH.
Qed.

Lemma keys_delete k k' m :
  k' ∈ JsMap.keys (JsMap.delete k m) <-> k' ∈ JsMap.keys m /\ k' <> k.
Proof.
  induction m as [|[k0 v0] m IH]; simpl.
  - split; [intros H; by apply elem_of_nil in H | intros [H _]; done].
  - destruct (decide (k0 = k)) as [->|Hne]; simpl.
    + rewrite IH, elem_of_cons. naive_solver.
    + rewrite !elem_of_cons, IH. naive_solver.
Qed.

Lemma delete_absent k m : k ∉ JsMap.keys m -> JsMap.delete k m = m.
Proof.
  induction m as [|[k0 v0] m IH]; simpl; [done|].
  rewrite not_elem_of_cons. intros [Hne Hin].
  rewrite decide_False by done. by rewrite IH.
Qed.

Lemma delete_sublist k m : JsMap.delete k m `sublist_of` m.
Proof.
  induction m as [|[k0 v0] m IH]; simpl; [done|].
  destruct (decide (k0 = k)); [by apply sublist_cons | by apply sublist_skip].
Qed.
End JsMapFacts.

Lemma set_add_elem x y (s : JsSet.t) : x ∈ JsSet.add y s <-> x = y \/ x ∈ s.
Proof.
  unfold JsSet.add, JsSet.has. case_bool_decide.
  - naive_solver.
  - rewrite elem_of_app, list_elem_of_singleton. tauto.
Qed.

Lemma set_delete_elem x y (s : JsSet.t) :
  x ∈ JsSet.delete y s <-> x ∈ s /\ x <> y.
Proof.
  induction s as [|z s IH]; simpl.
  - split; [intros H; by apply elem_of_nil in H | intros [H _]; done].
  - destruct (decide (z = y)) as [->|Hne].
    + rewrite IH, elem_of_cons. naive_solver.
    + rewrite !elem_of_cons, IH. naive_solver.
Qed.

Lemma set_fold_add_elem x (l : list string) (s : JsSet.t) :
  x ∈ fold_left (fun s x => JsSet.add x s) l s <-> x ∈ l \/ x ∈ s.
Proof.
  revert s. induction l as [|y l IH]; intros s; simpl.
  - split; [auto | intros [H|H]; [by apply elem_of_nil in H | done]].
  - rewrite IH, set_add_elem, elem_of_cons. tauto.
Qed.

Lemma set_of_list_elem x (l : list string) : x ∈ JsSet.of_list l <-> x ∈ l.
Proof.
  unfold JsSet.of_list. rewrite set_fold_add_elem.
  split; [intros [H|H]; [done | by apply elem_of_nil in H] | auto].
Qed.

Lemma set_has_true x (s : JsSet.t) : JsSet.has x s = true <-> x ∈ s.
Proof. unfold JsSet.has. by rewrite bool_decide_eq_true. Qed.

Lemma set_has_false x (s : JsSet.t) : JsSet.has x s = false <-> x ∉ s.
Proof. unfold JsSet.has. by rewrite bool_decide_eq_false. Qed.

(** ** The store of [TestFile] objects only grows *)

#[local] Instance fileHeap_extends_preorder : PreOrder fileHeap_extends.
Proof.
  split.
  - intros s. unfold fileHeap_extends. reflexivity.
  - intros s1 s2 s3. unfold fileHeap_extends. intros H1 H2. by etrans.
Qed.

#[local] Instance files_grow_preorder : PreOrder files_grow.
Proof.
  split.
  - intros s r f Hf. exists f. repeat split; auto. lia.
  - intros s1 s2 s3 H1 H2 r f Hf.
    destruct (H1 r f Hf) as (f' & Hf' & Hp & Hn & Hr).
    destruct (H2 r f' Hf') as (f'' & Hf'' & Hp' & Hn' & Hr').
    exists f''. repeat split; try congruence. lia.
Qed.

Lemma extends_grow s s' : fileHeap_extends s s' -> files_grow s s'.
Proof.
  intros [k Hk] r f Hf. exists f. rewrite Hk.
  repeat split; [|lia]. by apply lookup_app_l_Some.
Qed.

Lemma files_grow_setEntries r es s : files_grow s (file_setEntries r es s).
Proof.
  intros r' f Hf. unfold file_setEntries. simpl.
  destruct (decide (r = r')) as [->|Hne].
  - exists (setEntries es f). rewrite list_lookup_alter_eq, Hf. simpl.
    repeat split. unfold revision. simpl. lia.
  - exists f. rewrite list_lookup_alter_ne by done.
    repeat split; [done|lia].
Qed.

Lemma extends_createFile p x s : fileHeap_extends s (snd (_createFile p x s)).
Proof. unfold fileHeap_extends. simpl. by apply prefix_app_r. Qed.

Lemma extends_files_delete p x s :
  fileHeap_extends s (project_files_delete p x s).
Proof. unfold fileHeap_extends. simpl. done. Qed.

Lemma extends_updateProject p rep s :
  fileHeap_extends s (_updateProject p rep s).
Proof.
  unfold _updateProject.
  set (acc := fold_left (_updateProject_add p) (pc_files rep) ([], s)).
  transitivity (snd acc).
  - apply (fold_left_rel_snd fileHeap_extends
             (_updateProject_add p) (pc_files rep) ([], s)).
    intros a x. unfold _updateProject_add. simpl.
    destruct (JsMap.get x _); [reflexivity | apply extends_createFile].
  - apply (fold_left_rel fileHeap_extends).
    intros s' x. unfold _updateProject_prune.
    destruct (JsSet.has x _); [reflexivity | apply extends_files_delete].
Qed.

Lemma fileHeap_resolve_projects rsm ps s :
  fileHeap (snd (resolve_projects rsm ps s)) = fileHeap s.
Proof.
  unfold resolve_projects.
  enough (forall acc, fileHeap (snd (fold_left (resolve_project rsm) ps acc))
                      = fileHeap (snd acc)) as H by apply H.
  induction ps as [|p ps IH]; intros acc; simpl; [done|].
  by rewrite IH.
Qed.

Lemma extends_listFiles_apply rsm report s :
  fileHeap_extends s (listFiles_apply rsm report s).
Proof.
  unfold listFiles_apply.
  set (resolved := resolve_projects rsm (rep_projects report) s).
  set (acc := fold_left listFiles_project (fst resolved) ([], snd resolved)).
  transitivity (snd resolved).
  { unfold fileHeap_extends, resolved.
    by rewrite fileHeap_resolve_projects. }
  transitivity (snd acc).
  - apply (fold_left_rel_snd fileHeap_extends listFiles_project
             (fst resolved) ([], snd resolved)).
    intros a x. unfold listFiles_project. simpl.
    destruct (JsMap.get _ _); simpl; [apply extends_updateProject|].
    etrans; [|apply extends_updateProject].
    unfold fileHeap_extends. simpl. done.
  - apply (fold_left_rel fileHeap_extends).
    intros s' x. unfold listFiles_prune.
    destruct (JsSet.has x _); [reflexivity|].
    unfold fileHeap_extends. simpl. done.
Qed.

Lemma extends_workspaceChanged_deleted del s :
  fileHeap_extends s (snd (workspaceChanged_deleted del s)).
Proof.
  unfold workspaceChanged_deleted. case_bool_decide; [reflexivity|].
  apply (fold_left_rel_snd fileHeap_extends
           (fun acc project =>
              fold_left (workspaceChanged_delete project) del acc)
           (JsMap.values (_projects s)) (false, s)).
  intros acc p.
  apply (fold_left_rel_snd fileHeap_extends (workspaceChanged_delete p)).
  intros a x. unfold workspaceChanged_delete.
  destruct (JsMap.has x _); [apply extends_files_delete | reflexivity].
Qed.

Ltac pres_step :=
  lazymatch goal with
  | |- preserves _ (ret _) => refine (preserves_ret _ _)
  | |- preserves _ (throw _) => refine (preserves_throw _ _)
  | |- preserves _ (emit _) => refine (preserves_emit _ _)
  | |- preserves _ fire => refine (preserves_emit _ _)
  | |- preserves _ get_model => refine (preserves_get _)
  | |- preserves _ (non_null _) => refine (preserves_non_null _ _)
  | |- preserves _ (bind _ _) => refine (preserves_bind _ _ _ _ _); [|intros ?]
  | |- preserves _ (for_of _ _) => refine (preserves_for_of _ _ _ _); intros ?
  | |- preserves _ (for_of_acc _ _ _) =>
      refine (preserves_for_of_acc _ _ _ _ _); intros ? ?
  | |- preserves _ (modify _) => refine (preserves_modify _ _ _); intros ?
  | |- preserves _ (lift _) => refine (preserves_lift _ _ _); intros ?
  end.

Ltac pres := repeat pres_step.

Ltac msimpl :=
  cbn [projHeap fileHeap config _projects _fileToSources _sourceToFile
       set_projHeap set_fileHeap set_projects set_sourceMaps
       set_testIdAttributeName fst snd name testDir files isEnabled
       set_files set_isEnabled outcome final events] in *.

Ltac mrun :=
  cbn [bind ret get_model throw modify emit lift non_null fire
       outcome final events fst snd] in *.

Section FilesGrow.
Lemma grow_setProjectEnabled p b : preserves files_grow (setProjectEnabled p b).
Proof.
  unfold setProjectEnabled, fire. pres.
  apply extends_grow. unfold fileHeap_extends. simpl. done.
Qed.

Lemma grow_listFiles c : preserves files_grow (listFiles c).
Proof.
  unfold listFiles, fire. pres.
  destruct (rep_error _); pres.
  apply extends_grow, extends_listFiles_apply.
Qed.

Lemma grow__updateProjects ps fs : preserves files_grow (_updateProjects ps fs).
Proof.
  unfold _updateProjects, fire. pres.
  unfold _updateProjects_project. pres.
  - induction ps as [|e ps IH]; simpl; pres.
    case_decide; pres. apply IH.
  - unfold _updateProjects_fileSuite. pres.
    destruct (JsMap.get _ _); pres. apply files_grow_setEntries.
  - unfold _updateProjects_missing. pres.
    destruct (JsMap.get _ _); pres. apply files_grow_setEntries.
Qed.

Lemma grow_listTests c fs : preserves files_grow (listTests c fs).
Proof. unfold listTests. pres. apply grow__updateProjects. Qed.

Lemma grow_updateFromRunningProjects ps :
  preserves files_grow (updateFromRunningProjects ps).
Proof.
  unfold updateFromRunningProjects. pres.
  unfold updateFromRunningProjects_projectSuite. pres.
  destruct (JsMap.get _ _); pres.
  unfold _updateFromRunningProject, fire. pres.
  unfold _updateFromRunningProject_fileSuite.
  case_bool_decide; pres.
  - destruct (JsMap.get _ _); pres.
    apply extends_grow, extends_createFile.
  - destruct (file_entries _ _); pres. apply files_grow_setEntries.
Qed.

Lemma grow_workspaceChanged c ch : preserves files_grow (workspaceChanged c ch).
Proof.
  unfold workspaceChanged, fire. pres.
  - apply extends_grow, extends_workspaceChanged_deleted.
  - unfold workspaceChanged_created. case_bool_decide; pres.
    destruct (hasMatchingFiles _ _); pres. apply grow_listFiles.
  - unfold workspaceChanged_changed. case_bool_decide; pres.
    case_bool_decide; pres. apply grow_listTests.
  - destruct a0; pres.
Qed.

Lemma grow_run_op op s : files_grow s (run_op op s).
Proof.
  destruct op; simpl.
  - apply grow_listFiles.
  - apply grow_listTests.
  - apply grow_updateFromRunningProjects.
  - apply grow_workspaceChanged.
  - apply grow_setProjectEnabled.
Qed.
End FilesGrow.

(** ** [TestFile]: the revision counter *)

(** C8. A new [TestFile] has revision 0 and no entries; every [setEntries]
    call stores the sequence it is given and adds exactly 1 to the revision,
    also when the sequence is the one already stored; so, through any
    sequence of model operations, every [TestFile] object stays in the store
    with a revision at least as large as before, and never goes back. *)
Theorem revision_counts_setEntries (project : ProjRef) (file : string)
    (f : TestFile) (es : list TestEntry)
    (ops : list ModelOp) (s : TestModel) (r : FileRef) (g : TestFile) :
  (revision (new_TestFile project file) = 0%Z /\
   entries (new_TestFile project file) = None) /\
  (revision (setEntries es f) = (revision f + 1)%Z /\
   entries (setEntries es f) = Some es /\
   revision (setEntries es (setEntries es f)) = (revision f + 2)%Z) /\
  (fileHeap s !! r = Some g ->
   exists g', fileHeap (run_ops ops s) !! r = Some g' /\
              tf_project g' = tf_project g /\ tf_file g' = tf_file g /\
              (revision g <= revision g')%Z).
Proof.
  split; [done|]. split.
  { unfold revision, entries. simpl. repeat split. lia. }
  revert s g. induction ops as [|op ops IH]; intros s g Hg; simpl.
  - exists g. repeat split; auto. lia.
  - destruct (grow_run_op op s r g Hg) as (f1 & Hf1 & Hp1 & Hn1 & Hr1).
    destruct (IH _ f1 Hf1) as (f2 & Hf2 & Hp2 & Hn2 & Hr2).
    exists f2. repeat split; try congruence. lia.
Qed.


Lemma revision_counts_setEntries_witness :
  exists g', fileHeap (run_ops [OpListTests Sample.runner [Sample.a_spec];
                                OpListFiles Sample.runner] Sample.listed) !! 0
             = Some g' /\
             tf_project g' = 0 /\ tf_file g' = Sample.a_spec /\
             (0 <= revision g')%Z.
Proof.
  apply (revision_counts_setEntries 0 Sample.a_spec
           (new_TestFile 0 Sample.a_spec) []
           [OpListTests Sample.runner [Sample.a_spec];
            OpListFiles Sample.runner]
           Sample.listed 0 (new_TestFile 0 Sample.a_spec)).
  reflexivity.
Defined.

(** ** [listFiles]: a failed discovery *)

(** C1. When the report of the test runner carries a top-level error,
    [listFiles] returns that error, the model (both object stores, the
    project map, the configuration, the source map caches) is the one from
    before the call, and no change event is fired. *)
Theorem listFiles_error_leaves_model (c : Collaborators) (s : TestModel)
    (e : TestError) :
  rep_error (pw_listFiles (playwrightTest c) (config s)) = Some e ->
  outcome (listFiles c s) = Returned (Some e) /\
  final (listFiles c s) = s /\
  fired (events (listFiles c s)) = 0.
Proof.
  intros He. unfold listFiles, bind, get_model, emit. simpl.
  rewrite He. simpl. done.
Qed.

Lemma listFiles_error_leaves_model_witness :
  outcome (listFiles Sample.broken_runner Sample.parsed) =
    Returned (Some {| err_location := None;
                      err_message := Some "config failed"%string;
                      err_snippet := None;
                      err_stack := None; err_value := None |}) /\
  final (listFiles Sample.broken_runner Sample.parsed) = Sample.parsed /\
  fired (events (listFiles Sample.broken_runner Sample.parsed)) = 0.
Proof.
  apply (listFiles_error_leaves_model Sample.broken_runner Sample.parsed).
  reflexivity.
Defined.

(** ** [setProjectEnabled] *)

(** C10. [setProjectEnabled(P, b)] returns, sets the flag of the project
    object [P] to [b] and keeps its name, directory and file map; every other
    project object, the project map, every [TestFile] object, the
    configuration and the source map caches are unchanged, and no project
    object is added to or dropped from the store. *)
Theorem setProjectEnabled_frame (s : TestModel) (project : ProjRef)
    (enabled : bool) (P : TestProject) :
  projHeap s !! project = Some P ->
  let r := setProjectEnabled project enabled s in
  outcome r = Returned tt /\
  (exists P', projHeap (final r) !! project = Some P' /\
              isEnabled P' = enabled /\ name P' = name P /\
              testDir P' = testDir P /\ files P' = files P) /\
  (forall q, q <> project -> projHeap (final r) !! q = projHeap s !! q) /\
  length (projHeap (final r)) = length (projHeap s) /\
  allProjects (final r) = allProjects s /\
  fileHeap (final r) = fileHeap s /\
  config (final r) = config s /\
  _fileToSources (final r) = _fileToSources s /\
  _sourceToFile (final r) = _sourceToFile s.
Proof.
  intros HP r.
  assert (final r =
          set_projHeap (alter (set_isEnabled enabled) project (projHeap s)) s)
    as -> by reflexivity.
  split; [done|]. unfold allProjects, set_projHeap.
  cbn [projHeap fileHeap config _projects _fileToSources _sourceToFile].
  split; [|split; [|split]]; try done.
  - exists (set_isEnabled enabled P).
    by rewrite list_lookup_alter_eq, HP.
  - intros q Hq. by rewrite list_lookup_alter_ne.
  - by rewrite length_alter.
Qed.

Lemma setProjectEnabled_frame_witness :
  let r := setProjectEnabled 1 false Sample.parsed in
  outcome r = Returned tt /\
  (exists P', projHeap (final r) !! 1 = Some P' /\
              isEnabled P' = false /\ name P' = "firefox"%string /\
              testDir P' = "/proj/tests"%string /\
              files P' = [(Sample.a_spec, 2)]) /\
  (forall q, q <> 1 -> projHeap (final r) !! q = projHeap Sample.parsed !! q) /\
  length (projHeap (final r)) = length (projHeap Sample.parsed) /\
  allProjects (final r) = allProjects Sample.parsed /\
  fileHeap (final r) = fileHeap Sample.parsed /\
  config (final r) = config Sample.parsed /\
  _fileToSources (final r) = _fileToSources Sample.parsed /\
  _sourceToFile (final r) = _sourceToFile Sample.parsed.
Proof.
  apply (setProjectEnabled_frame Sample.parsed 1 false
           {| name := "firefox"; testDir := "/proj/tests";
              files := [(Sample.a_spec, 2)]; isEnabled := true |}).
  reflexivity.
Defined.

(** ** [updateFromRunningProjects]: what a live run may change *)

#[local] Instance running_frame_preorder : PreOrder running_frame.
Proof.
  split.
  - intros s. unfold running_frame. repeat split; try done.
    + intros p P HP. exists P. repeat split; auto.
    + intros r f Hf. exists f. auto.
  - intros s1 s2 s3 (Hp1 & Hc1 & Ha1 & Hb1 & HP1 & HF1)
                    (Hp2 & Hc2 & Ha2 & Hb2 & HP2 & HF2).
    unfold running_frame. repeat split; try congruence.
    + intros p P HP.
      destruct (HP1 p P HP) as (P' & HP' & Hn & Ht & He & Hfs).
      destruct (HP2 p P' HP') as (P'' & HP'' & Hn' & Ht' & He' & Hfs').
      exists P''. repeat split; try congruence. auto.
    + intros r f Hf.
      destruct (HF1 r f Hf) as (f' & Hf' & Hcase).
      destruct (HF2 r f' Hf') as (f'' & Hf'' & Hcase').
      exists f''. split; [done|].
      destruct Hcase as [->|(Hnone & es & ->)]; [done|].
      destruct Hcase' as [->|(Habs & _)]; [|done].
      right. eauto.
Qed.

Lemma frame_setEntries r es s :
  file_entries s r = None -> running_frame s (file_setEntries r es s).
Proof.
  intros Hnone. unfold running_frame, file_setEntries. msimpl.
  repeat split; try done.
  - intros p P HP. exists P. repeat split; auto.
  - intros r' f Hf. destruct (decide (r = r')) as [->|Hne].
    + exists (setEntries es f). rewrite list_lookup_alter_eq, Hf. 
      split; [reflexivity|]. right. unfold file_entries in Hnone.
      rewrite Hf in Hnone. eauto.
    + exists f. rewrite list_lookup_alter_ne by done. auto.
Qed.

Lemma frame_createFile p x s :
  JsMap.get x (project_files s p) = None ->
  running_frame s (snd (_createFile p x s)).
Proof.
  intros Hnone. unfold running_frame, _createFile. msimpl.
  repeat split; try done.
  - intros q P HP. destruct (decide (p = q)) as [->|Hne].
    + eexists. rewrite list_lookup_alter_eq, HP. split; [done|]. msimpl.
      repeat split; auto. intros y r Hy.
      unfold project_files in Hnone. rewrite HP in Hnone.
      rewrite get_set_ne; [done|]. congruence.
    + exists P. rewrite list_lookup_alter_ne by done. repeat split; auto.
  - intros r f Hf. exists f. split; [|auto]. by apply lookup_app_l_Some.
Qed.

Lemma frame_fileSuite p fs :
  preserves running_frame (_updateFromRunningProject_fileSuite p fs).
Proof.
  intros s. unfold _updateFromRunningProject_fileSuite.
  case_bool_decide; [reflexivity|].
  destruct (s_location fs) as [loc|]; [|reflexivity].
  mrun.
  destruct (JsMap.get (loc_file loc) (project_files s p)) as [r|] eqn:Hget;
    mrun.
  - destruct (file_entries s r) eqn:He; mrun; [reflexivity|].
    by apply frame_setEntries.
  - set (s1 := snd (_createFile p (loc_file loc) s)).
    transitivity s1; [by apply frame_createFile|].
    destruct (file_entries s1 _) eqn:He; mrun; [reflexivity|].
    by apply frame_setEntries.
Qed.

Lemma frame_running_projectSuite x :
  preserves running_frame (updateFromRunningProjects_projectSuite x).
Proof.
  unfold updateFromRunningProjects_projectSuite. pres.
  destruct (JsMap.get _ _); pres.
  unfold _updateFromRunningProject. pres.
  apply frame_fileSuite.
Qed.

Lemma frame_updateFromRunningProjects ps :
  preserves running_frame (updateFromRunningProjects ps).
Proof.
  unfold updateFromRunningProjects. pres. apply frame_running_projectSuite.
Qed.

(** C4. A [TestFile] that already holds a parsed sequence, empty or not, is
    the same object with the same entries and revision after
    [updateFromRunningProjects], whatever the run reports; the pass changes a
    [TestFile] only by [setEntries] on one without entries, and removes no
    project and no file ([running_frame]). *)
Theorem updateFromRunningProjects_keeps_parsed (projectSuites : list Suite)
    (s : TestModel) (file : FileRef) (f : TestFile) (es : list TestEntry) :
  fileHeap s !! file = Some f ->
  entries f = Some es ->
  let s' := final (updateFromRunningProjects projectSuites s) in
  fileHeap s' !! file = Some f /\
  allProjects s' = allProjects s /\
  running_frame s s'.
Proof.
  intros Hf Hes s'.
  assert (running_frame s s') as Hframe
    by apply frame_updateFromRunningProjects.
  split; [|split; [apply Hframe | done]].
  destruct Hframe as (_ & _ & _ & _ & _ & HF).
  destruct (HF file f Hf) as (f' & Hf' & [->|(Hnone & _)]); [done|].
  congruence.
Qed.

Lemma updateFromRunningProjects_keeps_parsed_witness :
  let s' := final (updateFromRunningProjects
                     [Sample.projectSuite "chromium"
                        [Sample.fileSuite Sample.a_spec
                           [Sample.case "other" Sample.a_spec;
                            Sample.case "more" Sample.a_spec]];
                      Sample.projectSuite "firefox"
                        [Sample.fileSuite Sample.a_spec
                           [Sample.case "other" Sample.a_spec]]]
                     Sample.parsed) in
  fileHeap s' !! 2 = Some {| tf_project := 1; tf_file := Sample.a_spec;
                              _entries := Some []; _revision := 1 |} /\
  allProjects s' = allProjects Sample.parsed /\
  running_frame Sample.parsed s'.
Proof.
  apply (updateFromRunningProjects_keeps_parsed _ Sample.parsed 2
           {| tf_project := 1; tf_file := Sample.a_spec;
              _entries := Some []; _revision := 1 |} []);
    reflexivity.
Defined.

(** ** Counting change events *)

Lemma fired_app evs1 evs2 : fired (evs1 ++ evs2) = fired evs1 + fired evs2.
Proof. unfold fired. by rewrite List.filter_app, length_app. Qed.

Lemma silent_bind {A B} (m : M A) (k : A -> M B) :
  silent m -> (forall a, silent (k a)) -> silent (bind m k).
Proof.
  intros Hm Hk s. rewrite events_bind, Hm.
  destruct (outcome (m s)); [|done]. by rewrite Hk.
Qed.

Lemma silent_for_of {A} (xs : list A) (body : A -> M unit) :
  (forall x, silent (body x)) -> silent (for_of xs body).
Proof.
  intros Hb. induction xs as [|x xs IH]; simpl; [done|].
  apply silent_bind; auto.
Qed.

Lemma silent_for_of_acc {A B} (xs : list A) (body : B -> A -> M B) b :
  (forall b x, silent (body b x)) -> silent (for_of_acc xs body b).
Proof.
  intros Hb. revert b. induction xs as [|x xs IH]; intros b; simpl; [done|].
  apply silent_bind; auto.
Qed.

Lemma silent_non_null {A} (o : option A) : silent (non_null o).
Proof. by destruct o. Qed.

Ltac silent_step :=
  lazymatch goal with
  | |- silent (bind _ _) => apply silent_bind; [|intros ?]
  | |- silent (for_of _ _) => apply silent_for_of; intros ?
  | |- silent (for_of_acc _ _ _) => apply silent_for_of_acc; intros ? ?
  | |- silent (non_null _) => apply silent_non_null
  | |- silent (ret _) => intros ?; reflexivity
  | |- silent (throw _) => intros ?; reflexivity
  | |- silent get_model => intros ?; reflexivity
  | |- silent (modify _) => intros ?; reflexivity
  | |- silent (lift _) => intros ?; reflexivity
  end.






(** ** [workspaceChanged]: events and requests *)

Lemma events_listFiles c s :
  events (listFiles c s) =
  CallListFiles (config s) ::
  match rep_error (pw_listFiles (playwrightTest c) (config s)) with
  | Some _ => []
  | None => [DidUpdate]
  end.
Proof.
  unfold listFiles. mrun. by destruct (rep_error _).
Qed.

Lemma silent_find_projectSuite ps n : silent (find_projectSuite ps n).
Proof.
  induction ps as [|e ps IH]; simpl; repeat silent_step.
  case_decide; [repeat silent_step | apply IH].
Qed.

Lemma silent__updateProjects_project ps fs e :
  silent (_updateProjects_project ps fs e).
Proof.
  unfold _updateProjects_project. repeat silent_step.
  - apply silent_find_projectSuite.
  - unfold _updateProjects_fileSuite. repeat silent_step.
    destruct (JsMap.get _ _); repeat silent_step.
  - unfold _updateProjects_missing. repeat silent_step.
    destruct (JsMap.get _ _); repeat silent_step.
Qed.

Lemma events__updateProjects ps fs s :
  events (_updateProjects ps fs s) =
  if returned (_updateProjects ps fs s) then [DidUpdate] else [].
Proof.
  unfold _updateProjects, returned. mrun.
  rewrite events_bind, outcome_bind.
  rewrite (silent_for_of _ _ (silent__updateProjects_project ps fs)).
  by destruct (outcome _).
Qed.

Lemma events_listTests c fs s :
  events (listTests c fs s) =
  CallListTests (config s) fs ::
  if returned (listTests c fs s) then [DidUpdate] else [].
Proof.
  unfold listTests, returned. mrun.
  rewrite events_bind, outcome_bind, events__updateProjects. unfold returned.
  by destruct (outcome _).
Qed.

Lemma outcome_listFiles c s : returned (listFiles c s) = true.
Proof.
  unfold listFiles, returned. mrun. by destruct (rep_error _).
Qed.

Lemma fired_listFiles c s : fired (events (listFiles c s)) <= 1.
Proof. rewrite events_listFiles. destruct (rep_error _); unfold fired; simpl; lia. Qed.

Lemma fired_listTests c fs s : fired (events (listTests c fs s)) <= 1.
Proof. rewrite events_listTests. destruct (returned _); unfold fired; simpl; lia. Qed.

Lemma events_created c cr s :
  events (workspaceChanged_created c cr s) =
  if bool_decide (length cr = 0) then []
  else if hasMatchingFiles s cr then events (listFiles c s) else [].
Proof.
  unfold workspaceChanged_created. case_bool_decide; [done|]. mrun.
  destruct (hasMatchingFiles s cr); [|done].
  rewrite events_bind. pose proof (outcome_listFiles c s) as Hret.
  unfold returned in Hret. destruct (outcome (listFiles c s)); [|done].
  mrun. by rewrite app_nil_r.
Qed.

Lemma returned_created c cr s : returned (workspaceChanged_created c cr s) = true.
Proof.
  unfold workspaceChanged_created, returned. case_bool_decide; [done|]. mrun.
  destruct (hasMatchingFiles s cr); [|done].
  rewrite outcome_bind. pose proof (outcome_listFiles c s) as Hret.
  unfold returned in Hret. by destruct (outcome (listFiles c s)).
Qed.

Lemma events_changed c ch s :
  events (workspaceChanged_changed c ch s) =
  if bool_decide (length ch = 0) then []
  else if bool_decide (length (filesToLoad s ch) = 0) then []
  else events (listTests c (filesToLoad s ch) s).
Proof.
  unfold workspaceChanged_changed. case_bool_decide; [done|]. mrun.
  case_bool_decide; [done|].
  rewrite events_bind. destruct (outcome _); [|done].
  mrun. by rewrite app_nil_r.
Qed.

Lemma returned_changed c ch s :
  returned (workspaceChanged_changed c ch s) =
  if bool_decide (length ch = 0) then true
  else if bool_decide (length (filesToLoad s ch) = 0) then true
  else returned (listTests c (filesToLoad s ch) s).
Proof.
  unfold workspaceChanged_changed, returned. case_bool_decide; [done|]. mrun.
  case_bool_decide; [done|].
  rewrite outcome_bind. by destruct (outcome _).
Qed.

(** The shape of the log of [workspaceChanged]. *)
Lemma events_workspaceChanged c change s :
  events (workspaceChanged c change s) =
  events (workspaceChanged_created c (_mapFilesToSources s (created change))
            (after_deleted change s)) ++
  events (workspaceChanged_changed c (_mapFilesToSources s (changed change))
            (after_created c change s)) ++
  if fst (workspaceChanged_deleted (_mapFilesToSources s (deleted change)) s)
     && returned (workspaceChanged c change s)
  then [DidUpdate] else [].
Proof.
  unfold workspaceChanged, returned. mrun.
  fold (after_deleted change s).
  rewrite !events_bind, !outcome_bind.
  pose proof (returned_created c (_mapFilesToSources s (created change))
                (after_deleted change s)) as Hc.
  unfold returned in Hc.
  destruct (outcome (workspaceChanged_created _ _ _)) as [[]|]; [|done].
  cbn iota. fold (after_created c change s).
  destruct (outcome (workspaceChanged_changed _ _ _)) as [[]|]; cbn iota.
  - destruct (fst _); mrun; by rewrite ?andb_true_r, ?app_nil_r.
  - by rewrite andb_false_r, !app_nil_r.
Qed.

(** *** The files that are parsed again *)

Lemma filesToLoad_project_elem s ch acc p x :
  x ∈ filesToLoad_project s ch acc p <->
  x ∈ acc \/
  (x ∈ ch /\ exists testFile es,
     JsMap.get x (project_files s p) = Some testFile /\
     file_entries s testFile = Some es).
Proof.
  unfold filesToLoad_project. revert acc.
  induction ch as [|y ch IH]; intros acc; simpl.
  - split; [auto|]. intros [H|[H _]]; [done | by apply elem_of_nil in H].
  - rewrite IH, elem_of_cons. clear IH.
    destruct (JsMap.get y (project_files s p)) as [r|] eqn:Hget.
    + destruct (file_entries s r) as [es|] eqn:He.
      * rewrite set_add_elem. split.
        -- intros [[->|H]|H]; [|tauto|tauto]. right. split; [auto|]. eauto.
        -- intros [H|[[->|H] H']]; tauto.
      * split; [tauto|]. intros [H|[[->|H] H']]; [tauto| |tauto].
        destruct H' as (r' & es & Hr' & Hes). congruence.
    + split; [tauto|]. intros [H|[[->|H] H']]; [tauto| |tauto].
      destruct H' as (r' & es & Hr' & Hes). congruence.
Qed.

Lemma filesToLoad_elem s ch x :
  x ∈ filesToLoad s ch <->
  x ∈ ch /\ exists project testFile es,
    project ∈ JsMap.values (_projects s) /\
    JsMap.get x (project_files s project) = Some testFile /\
    file_entries s testFile = Some es.
Proof.
  unfold filesToLoad.
  enough (forall ps acc,
    x ∈ fold_left (filesToLoad_project s ch) ps acc <->
    x ∈ acc \/ (x ∈ ch /\ exists project testFile es,
      project ∈ ps /\
      JsMap.get x (project_files s project) = Some testFile /\
      file_entries s testFile = Some es)) as H.
  { rewrite H. split; [|tauto]. intros [Hnil|?]; [|done].
    by apply elem_of_nil in Hnil. }
  induction ps as [|p ps IH]; intros acc; simpl.
  - split; [auto|]. intros [H|[_ (p & _ & _ & H & _)]]; [done|].
    by apply elem_of_nil in H.
  - rewrite IH, filesToLoad_project_elem. clear IH. split.
    + intros [[H|[H (r & es & Hr & He)]]|[H (q & r & es & Hq & Hr & He)]].
      * tauto.
      * right. split; [done|]. exists p, r, es. rewrite elem_of_cons. auto.
      * right. split; [done|]. exists q, r, es. rewrite elem_of_cons. auto.
    + intros [H|[H (q & r & es & Hq & Hr & He)]]; [tauto|].
      apply elem_of_cons in Hq as [->|Hq].
      * left. right. eauto.
      * right. split; [done|]. eauto 6.
Qed.

(** *** The flag [modelChanged] *)

Lemma delete_sticky p del acc :
  fst acc = true -> fst (fold_left (workspaceChanged_delete p) del acc) = true.
Proof.
  revert acc. induction del as [|x del IH]; intros acc H; simpl; [done|].
  apply IH. unfold workspaceChanged_delete. by destruct (JsMap.has _ _).
Qed.

Lemma delete_none p del acc :
  removes_some (snd acc) del p = false ->
  fold_left (workspaceChanged_delete p) del acc = acc.
Proof.
  unfold removes_some. revert acc.
  induction del as [|x del IH]; intros acc; simpl; [done|].
  intros [Hx Hrest]%orb_false_iff.
  unfold workspaceChanged_delete at 2. rewrite Hx. by apply IH.
Qed.

Lemma delete_some p del acc :
  removes_some (snd acc) del p = true ->
  fst (fold_left (workspaceChanged_delete p) del acc) = true.
Proof.
  unfold removes_some. revert acc.
  induction del as [|x del IH]; intros acc; simpl; [done|].
  unfold workspaceChanged_delete at 2.
  destruct (JsMap.has x _) eqn:Hx; simpl.
  - intros _. by apply delete_sticky.
  - apply IH.
Qed.

Lemma deleted_flag del ps acc :
  fst (fold_left
         (fun acc project => fold_left (workspaceChanged_delete project) del acc)
         ps acc) =
  fst acc || existsb (removes_some (snd acc) del) ps.
Proof.
  revert acc. induction ps as [|p ps IH]; intros acc; simpl.
  - by rewrite orb_false_r.
  - destruct (removes_some (snd acc) del p) eqn:Hp.
    + rewrite orb_true_r.
      assert (forall qs a, fst a = true ->
        fst (fold_left (fun acc project =>
               fold_left (workspaceChanged_delete project) del acc) qs a)
        = true) as Hsticky.
      { induction qs as [|q qs IHq]; intros a Ha; simpl; [done|].
        apply IHq. by apply delete_sticky. }
      apply Hsticky. by apply delete_some.
    + rewrite delete_none by done. by rewrite IH.
Qed.

Lemma modelChanged_iff del s :
  fst (workspaceChanged_deleted del s) = true <->
  exists project x,
    project ∈ JsMap.values (_projects s) /\ x ∈ del /\
    JsMap.has x (project_files s project) = true.
Proof.
  unfold workspaceChanged_deleted. case_bool_decide as Hlen.
  - simpl. split; [done|]. intros (p & x & _ & Hx & _).
    destruct del; [by apply elem_of_nil in Hx | done].
  - rewrite deleted_flag. simpl. rewrite existsb_exists.
    unfold removes_some. split.
    + intros (p & Hp & Hex). apply existsb_exists in Hex as (x & Hx & Hhas).
      exists p, x. by rewrite !list_elem_of_In.
    + intros (p & x & Hp & Hx & Hhas). exists p.
      rewrite <- list_elem_of_In. split; [done|].
      apply existsb_exists. exists x. by rewrite <- list_elem_of_In.
Qed.

Lemma filesToLoad_nil s : filesToLoad s [] = [].
Proof.
  unfold filesToLoad. generalize (JsMap.values (_projects s)).
  intros ps. by induction ps.
Qed.

(** C9. When [workspaceChanged] turns to the changed files, a changed path
    that in a given project has no [TestFile], or one whose [entries()] is
    undefined, is not added to [filesToLoad] on behalf of that project; the
    set holds exactly the changed paths that some known project has parsed;
    and [listTests] is invoked only with that set and only when it is not
    empty. *)
Theorem workspaceChanged_reparse_request (c : Collaborators)
    (change : WorkspaceChange) (s : TestModel) :
  let s2 := after_created c change s in
  let changed' := _mapFilesToSources s (changed change) in
  (forall project acc x,
     x ∉ acc ->
     (forall testFile,
        JsMap.get x (project_files s2 project) = Some testFile ->
        file_entries s2 testFile = None) ->
     x ∉ filesToLoad_project s2 changed' acc project) /\
  (forall x,
     x ∈ filesToLoad s2 changed' <->
     x ∈ changed' /\ exists project testFile es,
       project ∈ JsMap.values (_projects s2) /\
       JsMap.get x (project_files s2 project) = Some testFile /\
       file_entries s2 testFile = Some es) /\
  (forall cfg requested,
     CallListTests cfg requested ∈ events (workspaceChanged c change s) ->
     requested = filesToLoad s2 changed' /\ requested <> []).
Proof.
  intros s2 changed'. split; [|split].
  - intros p acc x Hacc Hnone.
    rewrite filesToLoad_project_elem.
    intros [H|(_ & r & es & Hr & He)]; [done|].
    rewrite (Hnone r Hr) in He. done.
  - apply filesToLoad_elem.
  - intros cfg requested. rewrite events_workspaceChanged.
    rewrite !elem_of_app. intros [H|[H|H]].
    + rewrite events_created in H. case_bool_decide.
      { by apply elem_of_nil in H. }
      destruct (hasMatchingFiles _ _); [|by apply elem_of_nil in H].
      rewrite events_listFiles in H.
      apply elem_of_cons in H as [H|H]; [done|].
      destruct (rep_error _); [by apply elem_of_nil in H|].
      apply list_elem_of_singleton in H. done.
    + fold s2 changed' in H. rewrite events_changed in H.
      case_bool_decide; [by apply elem_of_nil in H|].
      case_bool_decide as Hlen; [by apply elem_of_nil in H|].
      rewrite events_listTests in H.
      apply elem_of_cons in H as [H|H].
      * injection H as -> ->. split; [done|].
        intros Hnil. by rewrite Hnil in Hlen.
      * destruct (returned _); [|by apply elem_of_nil in H].
        apply list_elem_of_singleton in H. done.
    + destruct (_ && _); [|by apply elem_of_nil in H].
      apply list_elem_of_singleton in H. done.
Qed.

Lemma workspaceChanged_reparse_request_witness :
  let change := {| created := []; changed := [Sample.a_spec; Sample.b_spec];
                   deleted := [] |} in
  [Sample.a_spec] =
    filesToLoad (after_created Sample.runner change Sample.parsed)
      (_mapFilesToSources Sample.parsed (changed change)) /\
  [Sample.a_spec] <> [].
Proof.
  intros change.
  assert (events (workspaceChanged Sample.runner change Sample.parsed) =
          [CallListTests (config Sample.parsed) [Sample.a_spec]; DidUpdate])
    as Hevents by (vm_compute; reflexivity).
  pose proof (proj2 (proj2 (workspaceChanged_reparse_request
                              Sample.runner change Sample.parsed))
                (config Sample.parsed) [Sample.a_spec]) as H.
  rewrite Hevents in H. exact (H (list_elem_of_here _ _)).
Defined.

(** ** [workspaceChanged]: how many change events *)

(** C6, as the code has it.  The files deleted in any number of projects
    are announced by a single change event at the end of the pass, fired
    exactly when some known project held one of the deleted files and the
    pass did not throw, also after [listFiles] or [listTests] have fired
    theirs; each of these two fires at most one, so a pass fires at most
    three change events. *)
Theorem workspaceChanged_notifications (c : Collaborators)
    (change : WorkspaceChange) (s : TestModel) :
  let r := workspaceChanged c change s in
  let deleted' := _mapFilesToSources s (deleted change) in
  let modelChanged := fst (workspaceChanged_deleted deleted' s) in
  let evs_created :=
    events (workspaceChanged_created c (_mapFilesToSources s (created change))
              (after_deleted change s)) in
  let evs_changed :=
    events (workspaceChanged_changed c (_mapFilesToSources s (changed change))
              (after_created c change s)) in
  (modelChanged = true <->
   exists project x,
     project ∈ JsMap.values (_projects s) /\ x ∈ deleted' /\
     JsMap.has x (project_files s project) = true) /\
  fired evs_created <= 1 /\
  fired evs_changed <= 1 /\
  fired (events r) =
    fired evs_created + fired evs_changed +
    (if modelChanged && returned r then 1 else 0) /\
  fired (events r) <= 3.
Proof.
  intros r deleted' modelChanged evs_created evs_changed.
  assert (fired evs_created <= 1) as H1.
  { subst evs_created. rewrite events_created.
    case_bool_decide; [unfold fired; simpl; lia|].
    destruct (hasMatchingFiles _ _); [apply fired_listFiles|].
    unfold fired; simpl; lia. }
  assert (fired evs_changed <= 1) as H2.
  { subst evs_changed. rewrite events_changed.
    case_bool_decide; [unfold fired; simpl; lia|].
    case_bool_decide; [unfold fired; simpl; lia|].
    apply fired_listTests. }
  assert (fired (events r) =
          fired evs_created + fired evs_changed +
          (if modelChanged && returned r then 1 else 0)) as H3.
  { subst r. rewrite events_workspaceChanged, !fired_app.
    fold deleted' modelChanged evs_created evs_changed.
    destruct (modelChanged && _); unfold fired; simpl; lia. }
  split; [apply modelChanged_iff|]. split; [done|]. split; [done|].
  split; [done|]. rewrite H3. destruct (modelChanged && _); lia.
Qed.

Lemma workspaceChanged_notifications_witness :
  let change := {| created := [Sample.c_spec]; changed := [Sample.a_spec];
                   deleted := [Sample.b_spec] |} in
  fired (events (workspaceChanged Sample.runner change Sample.parsed)) <= 3.
Proof.
  intros change.
  exact (proj2 (proj2 (proj2 (proj2
    (workspaceChanged_notifications Sample.runner change Sample.parsed))))).
Defined.

(** C6, where the sentence of the specification fails: with chromium's
    b.spec.ts deleted and a.spec.ts changed, the pass fires the event of
    [listTests] and then the one for the deletion, two in all. *)
Lemma workspaceChanged_fires_twice :
  ~ fired (events (workspaceChanged Sample.runner
                     {| created := []; changed := [Sample.a_spec];
                        deleted := [Sample.b_spec] |}
                     Sample.parsed)) <= 1.
Proof. vm_compute. lia. Qed.

(** ** The invariant [wf] *)

Section JsMapNoDup.
Context {V : Type}.
Implicit Types (m : JsMap.t V) (k : string) (v : V).

Lemma keys_set_fresh k v m :
  JsMap.get k m = None -> JsMap.keys (JsMap.set k v m) = JsMap.keys m ++ [k].
Proof.
  intros H. rewrite set_fresh by done. unfold JsMap.keys.
  by rewrite map_app.
Qed.

Lemma NoDup_keys_set k v m :
  JsMap.get k m = None -> NoDup (JsMap.keys m) ->
  NoDup (JsMap.keys (JsMap.set k v m)).
Proof.
  intros H Hnd. rewrite keys_set_fresh by done.
  apply NoDup_app. split; [done|]. split; [|apply NoDup_singleton].
  intros x Hx ->%list_elem_of_singleton. by apply get_None_keys in H.
Qed.

Lemma NoDup_keys_delete k m :
  NoDup (JsMap.keys m) -> NoDup (JsMap.keys (JsMap.delete k m)).
Proof.
  intros Hnd. eapply sublist_NoDup; [done|].
  unfold JsMap.keys. apply (fmap_sublist fst), delete_sublist.
Qed.

Lemma get_delete_Some k k' v m :
  JsMap.get k' (JsMap.delete k m) = Some v -> JsMap.get k' m = Some v /\ k' <> k.
Proof.
  destruct (decide (k = k')) as [->|Hne].
  - by rewrite get_delete_eq.
  - rewrite get_delete_ne by done. auto.
Qed.

Lemma elem_get k v m : NoDup (JsMap.keys m) -> (k, v) ∈ m -> JsMap.get k m = Some v.
Proof.
  induction m as [|[k' v'] m IH]; simpl.
  - intros _ H. by apply elem_of_nil in H.
  - intros [Hk Hnd]%NoDup_cons [H|H]%elem_of_cons.
    + injection H as -> ->. by rewrite decide_True.
    + destruct (decide (k' = k)) as [->|Hne]; [|by apply IH].
      exfalso. apply Hk. unfold JsMap.keys.
      apply list_elem_of_fmap. by exists (k, v).
Qed.
End JsMapNoDup.

Lemma project_files_createFile p x s q :
  project_files (snd (_createFile p x s)) q =
  if decide (q = p) then
    match projHeap s !! p with
    | Some P => JsMap.set x (length (fileHeap s)) (files P)
    | None => []
    end
  else project_files s q.
Proof.
  unfold project_files, _createFile. msimpl.
  destruct (decide (q = p)) as [->|Hne].
  - rewrite list_lookup_alter_eq. by destruct (projHeap s !! p).
  - by rewrite list_lookup_alter_ne.
Qed.

Lemma project_files_delete_files p x s q :
  project_files (project_files_delete p x s) q =
  if decide (q = p) then JsMap.delete x (project_files s p)
  else project_files s q.
Proof.
  unfold project_files, project_files_delete. msimpl.
  destruct (decide (q = p)) as [->|Hne].
  - rewrite list_lookup_alter_eq. by destruct (projHeap s !! p).
  - by rewrite list_lookup_alter_ne.
Qed.

Lemma slot_ok_extends s s' p x r :
  fileHeap_extends s s' -> slot_ok s p x r -> slot_ok s' p x r.
Proof.
  intros [k Hk] (f & Hf & Hp & Hx). exists f. rewrite Hk.
  split; [by apply lookup_app_l_Some | done].
Qed.

Lemma wf_setEntries r es s : wf s -> wf (file_setEntries r es s).
Proof.
  intros [Hnd Hok]. split; [done|]. intros n p Hget.
  destruct (Hok n p Hget) as (P & HP & Hn & Hk & Hslots).
  exists P. repeat split; try done. intros x r' Hx.
  destruct (Hslots x r' Hx) as (f & Hf & Hfp & Hfx).
  unfold slot_ok, file_setEntries. msimpl.
  destruct (decide (r = r')) as [->|Hne].
  - exists (setEntries es f). by rewrite list_lookup_alter_eq, Hf.
  - exists f. by rewrite list_lookup_alter_ne.
Qed.

Lemma wf_files_delete p x s : wf s -> wf (project_files_delete p x s).
Proof.
  intros [Hnd Hok]. split; [done|]. intros n q Hget.
  destruct (Hok n q Hget) as (P & HP & Hn & Hk & Hslots).
  unfold project_ok, project_files_delete. msimpl.
  destruct (decide (p = q)) as [->|Hne].
  - eexists. rewrite list_lookup_alter_eq, HP. split; [done|]. msimpl.
    split; [done|]. split; [by apply NoDup_keys_delete|].
    intros y r [Hy _]%get_delete_Some. by apply Hslots.
  - exists P. rewrite list_lookup_alter_ne by done. repeat split; try done.
Qed.

Lemma wf_createFile p x s :
  wf s -> JsMap.get x (project_files s p) = None ->
  wf (snd (_createFile p x s)).
Proof.
  intros [Hnd Hok] Hnone. split; [done|]. intros n q Hget.
  change (_projects (snd (_createFile p x s))) with (_projects s) in Hget.
  destruct (Hok n q Hget) as (P & HP & Hn & Hk & Hslots).
  assert (forall y r, slot_ok s q y r -> slot_ok (snd (_createFile p x s)) q y r)
    as Hkeep.
  { intros y r. apply slot_ok_extends, extends_createFile. }
  unfold project_ok. unfold _createFile at 1. msimpl.
  destruct (decide (p = q)) as [->|Hne].
  - eexists. rewrite list_lookup_alter_eq, HP. split; [done|]. msimpl.
    unfold project_files in Hnone. rewrite HP in Hnone.
    split; [done|]. split; [by apply NoDup_keys_set|].
    intros y r. destruct (decide (x = y)) as [->|Hxy].
    + rewrite get_set_eq. intros [= <-].
      exists (new_TestFile q y). unfold _createFile. msimpl.
      split; [|done]. by rewrite lookup_app_r, Nat.sub_diag.
    + rewrite get_set_ne by done. intros Hy. by apply Hkeep, Hslots.
  - exists P. rewrite list_lookup_alter_ne by done. repeat split; try done.
    intros y r Hy. by apply Hkeep, Hslots.
Qed.

Lemma wf_createProject rep s :
  wf s -> JsMap.get (pc_name rep) (_projects s) = None ->
  wf (snd (_createProject rep s)).
Proof.
  intros [Hnd Hok] Hnone. unfold _createProject. msimpl. split; msimpl.
  { by apply NoDup_keys_set. }
  intros n q. destruct (decide (pc_name rep = n)) as [<-|Hne].
  - rewrite get_set_eq. intros [= <-].
    eexists. msimpl. rewrite lookup_app_r, Nat.sub_diag by done.
    split; [done|]. msimpl. repeat split; [apply NoDup_nil_2|].
    intros y r Hy. done.
  - rewrite get_set_ne by done. intros Hget.
    destruct (Hok n q Hget) as (P & HP & Hn & Hk & Hslots).
    exists P. msimpl. split; [by apply lookup_app_l_Some|].
    repeat split; try done.
Qed.

Lemma wf_projects_delete n s :
  wf s -> wf (set_projects (JsMap.delete n (_projects s)) s).
Proof.
  intros [Hnd Hok]. split; msimpl; [by apply NoDup_keys_delete|].
  intros n' q [Hget _]%get_delete_Some. by apply Hok.
Qed.

Lemma wf_set_isEnabled p b s :
  wf s -> wf (set_projHeap (alter (set_isEnabled b) p (projHeap s)) s).
Proof.
  intros [Hnd Hok]. split; [done|]. intros n q Hget.
  destruct (Hok n q Hget) as (P & HP & Hn & Hk & Hslots).
  unfold project_ok. msimpl.
  destruct (decide (p = q)) as [->|Hne].
  - eexists. rewrite list_lookup_alter_eq, HP. split; [done|]. done.
  - exists P. by rewrite list_lookup_alter_ne.
Qed.

(** ** [_updateProject] and [listFiles]: reconciliation *)

Lemma projects_stable_refl s : projects_stable s s.
Proof. intros q P HP. exists P. auto. Qed.

Lemma projects_stable_trans s1 s2 s3 :
  projects_stable s1 s2 -> projects_stable s2 s3 -> projects_stable s1 s3.
Proof.
  intros H1 H2 q P HP.
  destruct (H1 q P HP) as (P' & HP' & ? & ? & ?).
  destruct (H2 q P' HP') as (P'' & HP'' & ? & ? & ?).
  exists P''. repeat split; congruence.
Qed.

Lemma slots_from_refl s : slots_from s s.
Proof. intros q x r H. auto. Qed.

Lemma fresh_slot_mono s1 s2 s3 q x r :
  fileHeap_extends s1 s2 -> fileHeap_extends s2 s3 ->
  fresh_slot s2 s3 q x r -> fresh_slot s1 s3 q x r.
Proof.
  intros [k1 H1] _ [Hlen Hf]. split; [|done].
  rewrite H1, length_app in Hlen. lia.
Qed.

Lemma fresh_slot_extends s1 s2 s3 q x r :
  fileHeap_extends s2 s3 ->
  fresh_slot s1 s2 q x r -> fresh_slot s1 s3 q x r.
Proof.
  intros [k Hk] [Hlen Hf]. split; [done|].
  rewrite Hk. by apply lookup_app_l_Some.
Qed.

Lemma slots_from_trans s1 s2 s3 :
  fileHeap_extends s1 s2 -> fileHeap_extends s2 s3 ->
  slots_from s1 s2 -> slots_from s2 s3 -> slots_from s1 s3.
Proof.
  intros He1 He2 H1 H2 q x r H.
  destruct (H2 q x r H) as [H'|Hfresh].
  - destruct (H1 q x r H') as [H''|Hfresh]; [by left|].
    right. by eapply fresh_slot_extends.
  - right. by eapply fresh_slot_mono.
Qed.

#[local] Instance updates_project_preorder p : PreOrder (updates_project p).
Proof.
  split.
  - intros s. unfold updates_project. split_and!; try done.
    + apply projects_stable_refl.
    + apply slots_from_refl.
  - intros s1 s2 s3 (Ha1 & Hb1 & Hc1 & Hd1 & He1 & Hf1)
                    (Ha2 & Hb2 & Hc2 & Hd2 & He2 & Hf2).
    unfold updates_project. split_and!; try congruence.
    + intros q Hq. rewrite Hc2, Hc1; done.
    + by eapply projects_stable_trans.
    + by etrans.
    + by eapply slots_from_trans.
Qed.

#[local] Instance reconciles_preorder : PreOrder reconciles.
Proof.
  split.
  - intros s. unfold reconciles. split_and!; try done.
    + apply projects_stable_refl.
    + apply slots_from_refl.
    + auto.
  - intros s1 s2 s3 (Ha1 & Hb1 & Hc1 & Hd1 & He1)
                    (Ha2 & Hb2 & Hc2 & Hd2 & He2).
    unfold reconciles. split_and!.
    + lia.
    + by eapply projects_stable_trans.
    + by etrans.
    + by eapply slots_from_trans.
    + intros n l Hl. destruct (He2 n l Hl) as [H|[H HP]].
      * destruct (He1 n l H) as [H'|[H' (P & HP & Hnm & Hen)]]; [by left|].
        right. split; [done|].
        destruct (Hb2 l P HP) as (P' & HP' & Hnm' & _ & Hen').
        exists P'. split_and!; [done | congruence | congruence].
      * right. split; [lia | done].
Qed.

Lemma updates_reconciles p s s' : updates_project p s s' -> reconciles s s'.
Proof.
  intros (Ha & Hb & Hc & Hd & He & Hf). unfold reconciles.
  split_and!; try done; [lia|]. intros n l Hl. left. congruence.
Qed.

Lemma updates_createFile p x s :
  updates_project p s (snd (_createFile p x s)).
Proof.
  unfold updates_project. split_and!.
  - done.
  - unfold _createFile. msimpl. by rewrite length_alter.
  - intros q Hq. unfold _createFile. msimpl.
    by rewrite list_lookup_alter_ne.
  - intros q P HP. unfold _createFile. msimpl.
    destruct (decide (p = q)) as [->|Hne].
    + eexists. rewrite list_lookup_alter_eq, HP. split; [done|]. done.
    + exists P. by rewrite list_lookup_alter_ne.
  - apply extends_createFile.
  - intros q y r. rewrite project_files_createFile.
    destruct (decide (q = p)) as [->|Hne]; [|auto].
    unfold project_files. destruct (projHeap s !! p) as [P|]; [|done].
    destruct (decide (x = y)) as [->|Hxy].
    + rewrite get_set_eq. intros [= <-]. right. split; [done|].
      unfold _createFile. msimpl. by rewrite lookup_app_r, Nat.sub_diag.
    + rewrite get_set_ne by done. auto.
Qed.

Lemma updates_files_delete p x s :
  updates_project p s (project_files_delete p x s).
Proof.
  unfold updates_project. split_and!.
  - done.
  - unfold project_files_delete. msimpl. by rewrite length_alter.
  - intros q Hq. unfold project_files_delete. msimpl.
    by rewrite list_lookup_alter_ne.
  - intros q P HP. unfold project_files_delete. msimpl.
    destruct (decide (p = q)) as [->|Hne].
    + eexists. rewrite list_lookup_alter_eq, HP. split; [done|]. done.
    + exists P. by rewrite list_lookup_alter_ne.
  - apply extends_files_delete.
  - intros q y r. rewrite project_files_delete_files.
    destruct (decide (q = p)) as [->|Hne]; [|auto].
    intros [H _]%get_delete_Some. auto.
Qed.

Lemma updates_updateProject p rep s :
  updates_project p s (_updateProject p rep s).
Proof.
  unfold _updateProject.
  set (acc := fold_left (_updateProject_add p) (pc_files rep) ([], s)).
  transitivity (snd acc).
  - apply (fold_left_rel_snd (updates_project p)
             (_updateProject_add p) (pc_files rep) ([], s)).
    intros a x. unfold _updateProject_add. msimpl.
    destruct (JsMap.get x _); [reflexivity | apply updates_createFile].
  - apply (fold_left_rel (updates_project p)).
    intros s' x. unfold _updateProject_prune.
    destruct (JsSet.has x _); [reflexivity | apply updates_files_delete].
Qed.

Lemma wf_updateProject_add p fs acc :
  wf (snd acc) -> wf (snd (fold_left (_updateProject_add p) fs acc)).
Proof.
  revert acc. induction fs as [|x fs IH]; intros acc Hwf; [done|].
  simpl. apply IH. unfold _updateProject_add. msimpl.
  destruct (JsMap.get x _) eqn:E; [done | by apply wf_createFile].
Qed.

Lemma wf_updateProject_prune p keep ks s :
  wf s -> wf (fold_left (_updateProject_prune p keep) ks s).
Proof.
  revert s. induction ks as [|x ks IH]; intros s Hwf; [done|].
  simpl. apply IH. unfold _updateProject_prune.
  destruct (JsSet.has x _); [done | by apply wf_files_delete].
Qed.

Lemma wf_updateProject p rep s : wf s -> wf (_updateProject p rep s).
Proof.
  intros Hwf. unfold _updateProject.
  by apply wf_updateProject_prune, wf_updateProject_add.
Qed.


Lemma updateProject_add_valid p fs acc :
  is_Some (projHeap (snd acc) !! p) ->
  is_Some (projHeap (snd (fold_left (_updateProject_add p) fs acc)) !! p).
Proof.
  intros [P HP].
  assert (updates_project p (snd acc)
            (snd (fold_left (_updateProject_add p) fs acc))) as Hrel.
  { apply (fold_left_rel_snd (updates_project p)).
    intros a x. unfold _updateProject_add. msimpl.
    destruct (JsMap.get x _); [reflexivity | apply updates_createFile]. }
  destruct Hrel as (_ & _ & _ & Hst & _).
  destruct (Hst p P HP) as (P' & HP' & _). eauto.
Qed.




(** *** [listFiles]: the reconciliation of the projects *)

Lemma same_graph_project_files s s' q :
  same_graph s s' -> project_files s' q = project_files s q.
Proof. intros (H & _). unfold project_files. by rewrite H. Qed.

Lemma same_graph_reconciles s s' : same_graph s s' -> reconciles s s'.
Proof.
  intros Hg. pose proof Hg as (Hp & Hf & Hm). unfold reconciles. split_and!.
  - by rewrite Hp.
  - intros q P HP. exists P. by rewrite Hp.
  - unfold fileHeap_extends. by rewrite Hf.
  - intros q x r. rewrite (same_graph_project_files s s') by done. auto.
  - intros n l. rewrite Hm. auto.
Qed.

Lemma same_graph_wf s s' : same_graph s s' -> wf s -> wf s'.
Proof.
  intros (Hp & Hf & Hm) [Hnd Hok]. split; [by rewrite Hm|].
  intros n l. rewrite Hm. intros Hl.
  destruct (Hok n l Hl) as (P & HP & Hn & Hk & Hslots).
  exists P. rewrite Hp. split_and!; try done.
  intros x r Hx. destruct (Hslots x r Hx) as (f & Hf' & ?).
  exists f. by rewrite Hf.
Qed.

Lemma resolve_projects_fold rsm ps acc :
  same_graph (snd acc) (snd (fold_left (resolve_project rsm) ps acc)) /\
  map pc_name (fst (fold_left (resolve_project rsm) ps acc)) =
  map pc_name (fst acc) ++ map pc_name ps.
Proof.
  revert acc. induction ps as [|p ps IH]; intros acc; simpl.
  - split; [done|]. by rewrite app_nil_r.
  - destruct (IH (resolve_project rsm acc p)) as [(Hp & Hf & Hm) Hn].
    split; [done|]. rewrite Hn. unfold resolve_project. msimpl.
    by rewrite map_app, <- app_assoc.
Qed.

Lemma resolve_projects_graph rsm ps s :
  same_graph s (snd (resolve_projects rsm ps s)).
Proof. apply (resolve_projects_fold rsm ps ([], s)). Qed.

Lemma resolve_projects_names rsm ps s :
  map pc_name (fst (resolve_projects rsm ps s)) = map pc_name ps.
Proof. apply (resolve_projects_fold rsm ps ([], s)). Qed.

Lemma project_files_createProject rep s q :
  project_files (snd (_createProject rep s)) q = project_files s q.
Proof.
  unfold project_files, _createProject. msimpl.
  destruct (decide (q < length (projHeap s))) as [Hlt|Hge].
  - by rewrite lookup_app_l.
  - rewrite (lookup_ge_None_2 (projHeap s)) by lia.
    destruct (decide (q = length (projHeap s))) as [->|Hne].
    + by rewrite lookup_app_r, Nat.sub_diag.
    + rewrite lookup_ge_None_2; [done|]. rewrite length_app. simpl. lia.
Qed.

Lemma reconciles_createProject rep s :
  reconciles s (snd (_createProject rep s)).
Proof.
  unfold reconciles. split_and!.
  - unfold _createProject. msimpl. rewrite length_app. lia.
  - intros q P HP. exists P. unfold _createProject. msimpl.
    split; [by apply lookup_app_l_Some | done].
  - unfold fileHeap_extends, _createProject. msimpl. done.
  - intros q x r. rewrite project_files_createProject. auto.
  - intros n l. unfold _createProject. msimpl.
    destruct (decide (pc_name rep = n)) as [<-|Hne].
    + rewrite get_set_eq. intros [= <-]. right. split; [done|].
      eexists. rewrite lookup_app_r, Nat.sub_diag by done. done.
    + rewrite get_set_ne by done. auto.
Qed.

Lemma final_listFiles c s :
  final (listFiles c s) =
  match rep_error (pw_listFiles (playwrightTest c) (config s)) with
  | Some _ => s
  | None => listFiles_apply (resolveSourceMap c)
              (pw_listFiles (playwrightTest c) (config s)) s
  end.
Proof. unfold listFiles. mrun. by destruct (rep_error _). Qed.

Lemma reconciles_listFiles_project acc rep :
  reconciles (snd acc) (snd (listFiles_project acc rep)).
Proof.
  unfold listFiles_project. msimpl.
  destruct (JsMap.get _ _); msimpl.
  - apply (updates_reconciles n), updates_updateProject.
  - etrans; [apply reconciles_createProject|].
    eapply updates_reconciles, updates_updateProject.
Qed.

Lemma wf_listFiles_project acc rep :
  wf (snd acc) -> wf (snd (listFiles_project acc rep)).
Proof.
  intros Hwf. unfold listFiles_project. msimpl.
  destruct (JsMap.get _ _) eqn:Hget; msimpl.
  - by apply wf_updateProject.
  - by apply wf_updateProject, wf_createProject.
Qed.

Lemma projects_updateProject p rep s :
  _projects (_updateProject p rep s) = _projects s.
Proof. apply updates_updateProject. Qed.

Lemma listFiles_project_get acc rep n :
  JsMap.get n (_projects (snd (listFiles_project acc rep))) =
  match JsMap.get n (_projects (snd acc)) with
  | Some l => Some l
  | None => if decide (pc_name rep = n)
            then Some (length (projHeap (snd acc))) else None
  end.
Proof.
  unfold listFiles_project. msimpl.
  destruct (JsMap.get (pc_name rep) (_projects (snd acc))) as [l|] eqn:Hget;
    msimpl; rewrite projects_updateProject.
  - destruct (JsMap.get n _) eqn:Hn; [done|].
    case_decide; [congruence | done].
  - unfold _createProject. msimpl.
    destruct (decide (pc_name rep = n)) as [<-|Hne].
    + by rewrite get_set_eq, Hget.
    + rewrite get_set_ne by done. by destruct (JsMap.get n _).
Qed.

Lemma listFiles_projects_fold reps acc n :
  let res := fold_left listFiles_project reps acc in
  (n ∈ fst res <-> n ∈ fst acc \/ n ∈ map pc_name reps) /\
  (is_Some (JsMap.get n (_projects (snd res))) <->
   is_Some (JsMap.get n (_projects (snd acc))) \/ n ∈ map pc_name reps) /\
  (forall l, JsMap.get n (_projects (snd acc)) = Some l ->
             JsMap.get n (_projects (snd res)) = Some l).
Proof.
  revert acc. induction reps as [|rep reps IH]; intros acc; simpl.
  - split_and!; [| |done].
    + split; [auto|]. intros [H|H]; [done | by apply elem_of_nil in H].
    + split; [auto|]. intros [H|H]; [done | by apply elem_of_nil in H].
  - destruct (IH (listFiles_project acc rep)) as (H1 & H2 & H3).
    split_and!.
    + rewrite H1. unfold listFiles_project at 1. msimpl.
      rewrite set_add_elem, elem_of_cons. tauto.
    + rewrite H2, listFiles_project_get, elem_of_cons.
      destruct (JsMap.get n (_projects (snd acc))) as [l|].
      * split; [intros _; left; eauto | intros _; left; eauto].
      * case_decide as Hn.
        -- split; [intros _; right; left; done | intros _; left; eauto].
        -- split.
           ++ intros [[? H]|H]; [done | auto].
           ++ intros [[? H]|[H|H]]; [done | congruence | auto].
    + intros l Hl. apply H3. by rewrite listFiles_project_get, Hl.
Qed.

Lemma listFiles_prune_get keep ks s n :
  JsMap.get n (_projects (fold_left (listFiles_prune keep) ks s)) =
  if decide (n ∈ ks /\ n ∉ keep) then None else JsMap.get n (_projects s).
Proof.
  revert s. induction ks as [|x ks IH]; intros s; cbn [fold_left].
  - rewrite decide_False; [done|]. intros [H _]. by apply elem_of_nil in H.
  - rewrite IH. clear IH. unfold listFiles_prune.
    destruct (JsSet.has x keep) eqn:Hhas.
    + apply set_has_true in Hhas.
      destruct (decide (n ∈ ks /\ n ∉ keep)) as [[H1 H2]|Hn].
      * rewrite decide_True; [done|]. rewrite elem_of_cons. auto.
      * rewrite decide_False; [done|]. rewrite elem_of_cons.
        intros [[->|H1] H2]; [done|]. apply Hn. auto.
    + apply set_has_false in Hhas. msimpl.
      destruct (decide (n ∈ ks /\ n ∉ keep)) as [[H1 H2]|Hn].
      * rewrite decide_True; [done|]. rewrite elem_of_cons. auto.
      * destruct (decide (x = n)) as [->|Hne].
        -- rewrite get_delete_eq. rewrite decide_True; [done|].
           rewrite elem_of_cons. auto.
        -- rewrite get_delete_ne by done. rewrite decide_False; [done|].
           rewrite elem_of_cons. intros [[->|H1] H2]; [done|]. apply Hn. auto.
Qed.

Lemma listFiles_prune_graph keep ks s :
  let s' := fold_left (listFiles_prune keep) ks s in
  projHeap s' = projHeap s /\ fileHeap s' = fileHeap s.
Proof.
  revert s. induction ks as [|x ks IH]; intros s; cbn [fold_left]; [done|].
  destruct (IH (listFiles_prune keep s x)) as [-> ->].
  unfold listFiles_prune. by destruct (JsSet.has x keep).
Qed.

Lemma wf_listFiles_prune keep ks s :
  wf s -> wf (fold_left (listFiles_prune keep) ks s).
Proof.
  revert s. induction ks as [|x ks IH]; intros s Hwf; [done|].
  simpl. apply IH. unfold listFiles_prune.
  destruct (JsSet.has x _); [done | by apply wf_projects_delete].
Qed.

Lemma reconciles_listFiles_prune keep ks s :
  reconciles s (fold_left (listFiles_prune keep) ks s).
Proof.
  destruct (listFiles_prune_graph keep ks s) as [Hp Hf].
  unfold reconciles. split_and!.
  - by rewrite Hp.
  - intros q P HP. exists P. by rewrite Hp.
  - unfold fileHeap_extends. by rewrite Hf.
  - intros q x r. unfold project_files. rewrite Hp. auto.
  - intros n l. rewrite listFiles_prune_get. case_decide; [done | auto].
Qed.

Lemma reconciles_listFiles_apply rsm report s :
  reconciles s (listFiles_apply rsm report s).
Proof.
  unfold listFiles_apply.
  set (resolved := resolve_projects rsm (rep_projects report) s).
  set (acc := fold_left listFiles_project (fst resolved) ([], snd resolved)).
  transitivity (snd resolved).
  { apply same_graph_reconciles, resolve_projects_graph. }
  transitivity (snd acc).
  - apply (fold_left_rel_snd reconciles listFiles_project
             (fst resolved) ([], snd resolved)).
    apply reconciles_listFiles_project.
  - apply reconciles_listFiles_prune.
Qed.

Lemma wf_listFiles_projects reps acc :
  wf (snd acc) -> wf (snd (fold_left listFiles_project reps acc)).
Proof.
  revert acc. induction reps as [|rep reps IH]; intros acc Hwf; [done|].
  simpl. by apply IH, wf_listFiles_project.
Qed.

Lemma wf_listFiles_apply rsm report s :
  wf s -> wf (listFiles_apply rsm report s).
Proof.
  intros Hwf. unfold listFiles_apply.
  apply wf_listFiles_prune, wf_listFiles_projects. msimpl.
  eapply same_graph_wf; [apply resolve_projects_graph | done].
Qed.

(** The project map after a discovery pass. *)
Lemma listFiles_apply_projects rsm report s n :
  (n ∈ JsMap.keys (_projects (listFiles_apply rsm report s)) <->
   n ∈ map pc_name (rep_projects report)) /\
  (forall l, n ∈ map pc_name (rep_projects report) ->
     JsMap.get n (_projects s) = Some l ->
     JsMap.get n (_projects (listFiles_apply rsm report s)) = Some l).
Proof.
  unfold listFiles_apply.
  pose proof (resolve_projects_names rsm (rep_projects report) s) as Hnames.
  destruct (resolve_projects_graph rsm (rep_projects report) s)
    as (_ & _ & Hm).
  destruct (listFiles_projects_fold
              (fst (resolve_projects rsm (rep_projects report) s))
              ([], snd (resolve_projects rsm (rep_projects report) s)) n)
    as (Hkeep & Hsome & Hmono).
  cbn [fst snd] in Hkeep, Hsome, Hmono.
  rewrite Hnames in Hkeep, Hsome. rewrite Hm in Hsome, Hmono.
  set (acc := fold_left listFiles_project _ _) in *.
  rewrite <- get_Some_keys, listFiles_prune_get.
  destruct (decide (n ∈ map pc_name (rep_projects report))) as [Hin|Hnin].
  - rewrite decide_False.
    + split; [split; [done|]; intros _; apply Hsome; auto|].
      intros l _ Hl. by apply Hmono.
    + intros [_ H]. apply H, Hkeep. auto.
  - split; [|done]. split; [|done].
    destruct (decide _) as [|Hn]; [intros [? ?]; done|].
    intros Hsm. exfalso. apply Hn. split.
    + by apply get_Some_keys.
    + rewrite Hkeep. intros [H|H]; [by apply elem_of_nil in H | done].
Qed.


(** C2. After a [listFiles] pass whose report has no top-level error, the
    keys of [allProjects()] are exactly the reported project names: a
    reported name that was not known has a new project object, named after
    it and enabled; a reported name that was known keeps its object; a known
    name that is not reported has no entry any more. *)
Theorem listFiles_reconciles_projects (c : Collaborators) (s : TestModel) :
  rep_error (pw_listFiles (playwrightTest c) (config s)) = None ->
  let report := pw_listFiles (playwrightTest c) (config s) in
  let s' := final (listFiles c s) in
  (forall n, n ∈ JsMap.keys (allProjects s') <->
             n ∈ map pc_name (rep_projects report)) /\
  (forall n, n ∈ map pc_name (rep_projects report) ->
             n ∉ JsMap.keys (allProjects s) ->
     exists project P,
       JsMap.get n (allProjects s') = Some project /\
       length (projHeap s) <= project /\
       projHeap s' !! project = Some P /\
       name P = n /\ isEnabled P = true) /\
  (forall n project, n ∈ map pc_name (rep_projects report) ->
     JsMap.get n (allProjects s) = Some project ->
     JsMap.get n (allProjects s') = Some project) /\
  (forall n, n ∈ JsMap.keys (allProjects s) ->
             n ∉ map pc_name (rep_projects report) ->
     JsMap.get n (allProjects s') = None).
Proof.
  intros Herr report s'. unfold allProjects.
  assert (s' = listFiles_apply (resolveSourceMap c) report s) as ->.
  { unfold s'. rewrite final_listFiles. by rewrite Herr. }
  split_and!.
  - intros n. apply listFiles_apply_projects.
  - intros n Hin Hnew.
    assert (is_Some (JsMap.get n
              (_projects (listFiles_apply (resolveSourceMap c) report s))))
      as [l Hl].
    { apply get_Some_keys, listFiles_apply_projects. done. }
    destruct (reconciles_listFiles_apply (resolveSourceMap c) report s)
      as (_ & _ & _ & _ & Hmap).
    destruct (Hmap n l Hl) as [Hold|(Hlen & P & HP & Hnm & Hen)].
    + exfalso. apply Hnew, get_Some_keys. eauto.
    + exists l, P. done.
  - intros n l Hin Hl. by apply listFiles_apply_projects.
  - intros n _ Hnin. apply get_None_keys.
    intros H. by apply listFiles_apply_projects in H.
Qed.

Lemma listFiles_reconciles_projects_witness :
  let report := pw_listFiles (playwrightTest Sample.runner)
                  (config Sample.empty_model) in
  let s' := final (listFiles Sample.runner Sample.empty_model) in
  (forall n, n ∈ JsMap.keys (allProjects s') <->
             n ∈ map pc_name (rep_projects report)) /\
  (forall n, n ∈ map pc_name (rep_projects report) ->
             n ∉ JsMap.keys (allProjects Sample.empty_model) ->
     exists project P,
       JsMap.get n (allProjects s') = Some project /\
       length (projHeap Sample.empty_model) <= project /\
       projHeap s' !! project = Some P /\
       name P = n /\ isEnabled P = true) /\
  (forall n project, n ∈ map pc_name (rep_projects report) ->
     JsMap.get n (allProjects Sample.empty_model) = Some project ->
     JsMap.get n (allProjects s') = Some project) /\
  (forall n, n ∈ JsMap.keys (allProjects Sample.empty_model) ->
             n ∉ map pc_name (rep_projects report) ->
     JsMap.get n (allProjects s') = None).
Proof.
  apply (listFiles_reconciles_projects Sample.runner Sample.empty_model).
  reflexivity.
Defined.

(** *** [listFiles]: the reconciliation of the files of a project *)


Lemma wf_project_inj s n n' l :
  wf s -> JsMap.get n (_projects s) = Some l ->
  JsMap.get n' (_projects s) = Some l -> n = n'.
Proof.
  intros [_ Hok] Hl Hl'.
  destruct (Hok n l Hl) as (P & HP & Hn & _).
  destruct (Hok n' l Hl') as (P' & HP' & Hn' & _). congruence.
Qed.






(** ** The invariant holds in every reachable model *)

#[local] Instance keeps_wf_preorder : PreOrder keeps_wf.
Proof. split; unfold keeps_wf; [intros s; auto | intros s1 s2 s3; auto]. Qed.

Lemma wf_new_TestModel w cf cl v : wf (new_TestModel w cf cl v).
Proof. split; [apply NoDup_nil_2 | done]. Qed.

Lemma wf_listFiles c : preserves keeps_wf (listFiles c).
Proof.
  intros s Hwf. rewrite final_listFiles.
  destruct (rep_error _); [done | by apply wf_listFiles_apply].
Qed.

Lemma wf__updateProjects ps fs : preserves keeps_wf (_updateProjects ps fs).
Proof.
  unfold _updateProjects, fire. pres.
  unfold _updateProjects_project. pres.
  - induction ps as [|e ps IH]; simpl; pres.
    case_decide; pres. apply IH.
  - unfold _updateProjects_fileSuite. pres.
    destruct (JsMap.get _ _); pres. intros ?. by apply wf_setEntries.
  - unfold _updateProjects_missing. pres.
    destruct (JsMap.get _ _); pres. intros ?. by apply wf_setEntries.
Qed.

Lemma wf_listTests c fs : preserves keeps_wf (listTests c fs).
Proof. unfold listTests. pres. apply wf__updateProjects. Qed.

Lemma wf_running_fileSuite p fs :
  preserves keeps_wf (_updateFromRunningProject_fileSuite p fs).
Proof.
  intros s Hwf. unfold _updateFromRunningProject_fileSuite.
  case_bool_decide; [done|].
  destruct (s_location fs) as [loc|]; [|done].
  mrun.
  destruct (JsMap.get (loc_file loc) (project_files s p)) as [r|] eqn:Hget;
    mrun.
  - destruct (file_entries s r) eqn:He; mrun; [done|].
    by apply wf_setEntries.
  - set (s1 := snd (_createFile p (loc_file loc) s)).
    assert (wf s1) by by apply wf_createFile.
    destruct (file_entries s1 _) eqn:He; mrun; [done|].
    by apply wf_setEntries.
Qed.

Lemma wf_updateFromRunningProjects ps :
  preserves keeps_wf (updateFromRunningProjects ps).
Proof.
  unfold updateFromRunningProjects. pres.
  unfold updateFromRunningProjects_projectSuite. pres.
  destruct (JsMap.get _ _); pres.
  unfold _updateFromRunningProject, fire. pres.
  apply wf_running_fileSuite.
Qed.

Lemma wf_workspaceChanged_deleted del s :
  wf s -> wf (snd (workspaceChanged_deleted del s)).
Proof.
  unfold workspaceChanged_deleted. case_bool_decide; [done|].
  apply (fold_left_rel_snd keeps_wf
           (fun acc project =>
              fold_left (workspaceChanged_delete project) del acc)
           (JsMap.values (_projects s)) (false, s)).
  intros acc p.
  apply (fold_left_rel_snd keeps_wf (workspaceChanged_delete p)).
  intros a x Hwf. unfold workspaceChanged_delete.
  destruct (JsMap.has x _); [by apply wf_files_delete | done].
Qed.

Lemma wf_workspaceChanged c ch : preserves keeps_wf (workspaceChanged c ch).
Proof.
  unfold workspaceChanged, fire. pres.
  - intros ?. by apply wf_workspaceChanged_deleted.
  - unfold workspaceChanged_created. case_bool_decide; pres.
    destruct (hasMatchingFiles _ _); pres. apply wf_listFiles.
  - unfold workspaceChanged_changed. case_bool_decide; pres.
    case_bool_decide; pres. apply wf_listTests.
  - destruct a0; pres.
Qed.

Lemma wf_setProjectEnabled p b : preserves keeps_wf (setProjectEnabled p b).
Proof.
  unfold setProjectEnabled, fire. pres. intros ?. by apply wf_set_isEnabled.
Qed.

(** Every model reached from a new one by the operations of the class
    satisfies the invariant. *)
Lemma wf_run_ops ops s : wf s -> wf (run_ops ops s).
Proof.
  revert s. induction ops as [|op ops IH]; intros s Hwf; [done|].
  simpl. apply IH. destruct op; simpl.
  - by apply wf_listFiles.
  - by apply wf_listTests.
  - by apply wf_updateFromRunningProjects.
  - by apply wf_workspaceChanged.
  - by apply wf_setProjectEnabled.
Qed.

Lemma wf_listed : wf Sample.listed.
Proof. apply wf_listFiles, wf_new_TestModel. Qed.

Lemma wf_parsed : wf Sample.parsed.
Proof. apply wf_listTests, wf_listed. Qed.









(** The same pass, spelled out; and a discovery through a source map: the
    bundle stands for a.spec.ts and c.spec.ts, so chromium keeps its
    a.spec.ts, loses b.spec.ts and gets a new c.spec.ts, and firefox gets
    b.spec.ts and c.spec.ts beside its a.spec.ts. *)
Example repeated_name_discovery :
  let s' := final (listFiles Sample.repeating_runner Sample.empty_model) in
  rep_error (pw_listFiles (playwrightTest Sample.repeating_runner)
               (config Sample.empty_model)) = None /\
  allProjects s' = [("chromium"%string, 0)] /\
  project_files s' 0 = [(Sample.b_spec, 1)].
Proof. repeat split. Qed.

Example bundled_discovery :
  let s' := final (listFiles Sample.bundling_runner Sample.parsed) in
  allProjects s' = [("chromium"%string, 0); ("firefox"%string, 1)] /\
  project_files s' 0 = [(Sample.a_spec, 0); (Sample.c_spec, 5)] /\
  project_files s' 1 =
    [(Sample.a_spec, 2); (Sample.b_spec, 3); (Sample.c_spec, 4)] /\
  _fileToSources s' = [(Sample.bundle, [Sample.a_spec; Sample.c_spec])] /\
  _sourceToFile s' =
    [(Sample.a_spec, Sample.bundle); (Sample.c_spec, Sample.bundle)].
Proof. repeat split. Qed.

(** ** [listTests]: a requested file without a suite *)

#[local] Instance entries_only_preorder l : PreOrder (entries_only l).
Proof.
  split.
  - intros s. by unfold entries_only.
  - intros s1 s2 s3 (Hp1 & Hm1 & Hf1) (Hp2 & Hm2 & Hf2).
    unfold entries_only. split_and!; try congruence.
    intros r Hr. rewrite Hf2, Hf1; [done..|].
    unfold project_files. by rewrite Hp1.
Qed.

Lemma entries_only_setEntries l x r es s :
  JsMap.get x (project_files s l) = Some r ->
  entries_only l s (file_setEntries r es s).
Proof.
  intros Hx. unfold entries_only, file_setEntries. msimpl.
  split_and!; [done..|]. intros r' Hr'.
  rewrite list_lookup_alter_ne; [done|]. intros ->.
  apply Hr'. by eapply get_Some_values.
Qed.

Lemma find_projectSuite_pure ps n s :
  final (find_projectSuite ps n s) = s /\
  forall o, outcome (find_projectSuite ps n s) = Returned o ->
            o = projectSuite_for ps n.
Proof.
  induction ps as [|e ps [IH1 IH2]]; simpl.
  - split; [done|]. by intros o [= <-].
  - destruct (s_project e) as [p|]; mrun; [|done].
    case_bool_decide as Hn.
    + rewrite decide_True by done. mrun. split; [done|]. by intros o [= <-].
    + rewrite decide_False by done. done.
Qed.

Lemma entries_only_fileSuite l ftd fs :
  preserves (entries_only l) (_updateProjects_fileSuite l ftd fs).
Proof.
  intros s. unfold _updateProjects_fileSuite.
  destruct (s_location fs) as [loc|]; mrun; [|reflexivity].
  destruct (JsMap.get (loc_file loc) (project_files s l)) as [r|] eqn:Hr;
    mrun; [|reflexivity].
  by eapply entries_only_setEntries.
Qed.

Lemma entries_only_missing l y :
  preserves (entries_only l) (_updateProjects_missing l y).
Proof.
  intros s. unfold _updateProjects_missing. mrun.
  destruct (JsMap.get y (project_files s l)) as [r|] eqn:Hr;
    mrun; [|reflexivity].
  by eapply entries_only_setEntries.
Qed.

Lemma entries_only_project ps fs e :
  preserves (entries_only (snd e)) (_updateProjects_project ps fs e).
Proof.
  unfold _updateProjects_project. pres.
  - intros s. by rewrite (proj1 (find_projectSuite_pure ps (fst e) s)).
  - apply entries_only_fileSuite.
  - apply entries_only_missing.
Qed.

Lemma grow_fileSuite l ftd fs :
  preserves files_grow (_updateProjects_fileSuite l ftd fs).
Proof.
  unfold _updateProjects_fileSuite. pres.
  destruct (JsMap.get _ _); pres. apply files_grow_setEntries.
Qed.

Lemma grow_missing l y : preserves files_grow (_updateProjects_missing l y).
Proof.
  unfold _updateProjects_missing. pres.
  destruct (JsMap.get _ _); pres. apply files_grow_setEntries.
Qed.

Lemma grow__updateProjects_project ps fs e :
  preserves files_grow (_updateProjects_project ps fs e).
Proof.
  unfold _updateProjects_project. pres.
  - intros s. by rewrite (proj1 (find_projectSuite_pure ps (fst e) s)).
  - apply grow_fileSuite.
  - apply grow_missing.
Qed.

(** The loop over the file suites leaves [x] in [filesToDelete] when no
    suite is located in [x]. *)
Lemma fileSuites_keep_requested l suites ftd s x ftd' :
  x ∈ ftd ->
  (forall fileSuite loc, fileSuite ∈ suites ->
     s_location fileSuite = Some loc -> loc_file loc <> x) ->
  outcome (for_of_acc suites (_updateProjects_fileSuite l) ftd s)
    = Returned ftd' ->
  x ∈ ftd'.
Proof.
  revert ftd s. induction suites as [|fs suites IH]; intros ftd s Hx Hloc.
  - simpl. by intros [= <-].
  - cbn [for_of_acc]. rewrite outcome_bind.
    destruct (outcome (_updateProjects_fileSuite l ftd fs s))
      as [ftd1|] eqn:Hout; [|done].
    apply IH.
    + unfold _updateProjects_fileSuite in Hout.
      destruct (s_location fs) as [loc|] eqn:Hl; mrun; [|done].
      assert (loc_file loc <> x) as Hne.
      { eapply Hloc; [apply list_elem_of_here | done]. }
      destruct (JsMap.get _ _); mrun; injection Hout as <-;
        apply set_delete_elem; auto.
    + intros fs' loc Hin. apply Hloc. by apply list_elem_of_further.
Qed.

Lemma confirmed_empty_setEntries r k r' s :
  confirmed_empty r k s -> confirmed_empty r k (file_setEntries r' [] s).
Proof.
  intros (f & Hf & He & Hk). unfold confirmed_empty, file_setEntries. msimpl.
  destruct (decide (r' = r)) as [->|Hne].
  - exists (setEntries [] f). rewrite list_lookup_alter_eq, Hf.
    split_and!; [done..|]. unfold revision in *. simpl. lia.
  - exists f. by rewrite list_lookup_alter_ne.
Qed.

Lemma missing_keeps_empty l ys r k s :
  confirmed_empty r k s ->
  confirmed_empty r k (final (for_of ys (_updateProjects_missing l) s)).
Proof.
  revert s. induction ys as [|y ys IH]; intros s Hs; [done|].
  cbn [for_of]. rewrite final_bind.
  assert (confirmed_empty r k (final (_updateProjects_missing l y s))) as H1.
  { unfold _updateProjects_missing. mrun.
    destruct (JsMap.get _ _); mrun; [|done].
    by apply confirmed_empty_setEntries. }
  destruct (outcome _); [by apply IH | done].
Qed.

Lemma missing_returns l ys s :
  outcome (for_of ys (_updateProjects_missing l) s) = Returned tt.
Proof.
  revert s. induction ys as [|y ys IH]; intros s; [done|].
  cbn [for_of]. rewrite outcome_bind.
  assert (outcome (_updateProjects_missing l y s) = Returned tt) as ->.
  { unfold _updateProjects_missing. mrun. by destruct (JsMap.get _ _). }
  apply IH.
Qed.

(** The loop over [filesToDelete] stores the empty sequence in the file of
    every path it visits. *)
Lemma missing_sets_empty l ys x r f s :
  x ∈ ys ->
  JsMap.get x (project_files s l) = Some r ->
  fileHeap s !! r = Some f ->
  confirmed_empty r (revision f)
    (final (for_of ys (_updateProjects_missing l) s)).
Proof.
  revert s f. induction ys as [|y ys IH]; intros s f Hx Hr Hf.
  { by apply elem_of_nil in Hx. }
  cbn [for_of]. rewrite final_bind.
  assert (outcome (_updateProjects_missing l y s) = Returned tt) as ->.
  { clear. unfold _updateProjects_missing. mrun. by destruct (JsMap.get _ _). }
  destruct (decide (y = x)) as [->|Hne].
  - apply missing_keeps_empty.
    unfold _updateProjects_missing. mrun. rewrite Hr. mrun.
    exists (setEntries [] f). unfold file_setEntries. msimpl.
    rewrite list_lookup_alter_eq, Hf. split_and!; [reflexivity..|].
    unfold revision. simpl. lia.
  - apply elem_of_cons in Hx as [->|Hx]; [done|].
    pose proof (entries_only_missing l y s) as (Hp & _ & _).
    pose proof (grow_missing l y s) as Hg.
    destruct (Hg r f Hf) as (f1 & Hf1 & _ & _ & Hrev).
    destruct (IH (final (_updateProjects_missing l y s)) f1 Hx)
      as (f2 & Hf2 & He2 & Hk2); [|done|].
    + unfold project_files. by rewrite Hp.
    + exists f2. split_and!; [done..|]. lia.
Qed.

Lemma for_of_app {A} (xs ys : list A) (body : A -> M unit) s :
  final (for_of (xs ++ ys) body s) =
    match outcome (for_of xs body s) with
    | Returned _ => final (for_of ys body (final (for_of xs body s)))
    | Thrown _ => final (for_of xs body s)
    end /\
  outcome (for_of (xs ++ ys) body s) =
    match outcome (for_of xs body s) with
    | Returned _ => outcome (for_of ys body (final (for_of xs body s)))
    | Thrown e => Thrown e
    end.
Proof.
  revert s. induction xs as [|x xs IH]; intros s; [done|].
  cbn [for_of app]. rewrite !final_bind, !outcome_bind.
  destruct (outcome (body x s)); [apply IH | done].
Qed.

(** The iteration of [_updateProjects] for the project that holds the file. *)
Lemma project_confirms_empty ps files n l x r f s :
  JsMap.get x (project_files s l) = Some r ->
  fileHeap s !! r = Some f ->
  x ∈ files ->
  (forall suite fileSuite loc,
     projectSuite_for ps n = Some suite -> fileSuite ∈ s_suites suite ->
     s_location fileSuite = Some loc -> loc_file loc <> x) ->
  outcome (_updateProjects_project ps files (n, l) s) = Returned tt ->
  confirmed_empty r (revision f)
    (final (_updateProjects_project ps files (n, l) s)).
Proof.
  intros Hr Hf Hx Hsuites. unfold _updateProjects_project.
  rewrite outcome_bind, final_bind. cbn [fst snd].
  destruct (find_projectSuite_pure ps n s) as [Hfin Hpure].
  destruct (outcome (find_projectSuite ps n s)) as [o|] eqn:Hfind; [|done].
  rewrite Hfin. rewrite (Hpure o eq_refl) in *. clear Hpure Hfind Hfin o.
  rewrite outcome_bind, final_bind.
  set (suites := match projectSuite_for ps n with
                 | Some suite => s_suites suite
                 | None => []
                 end).
  set (loop := for_of_acc suites (_updateProjects_fileSuite l)
                 (JsSet.of_list files) s).
  destruct (outcome loop) as [ftd|] eqn:Hloop; [|done]. intros _.
  assert (x ∈ ftd) as Hftd.
  { eapply (fileSuites_keep_requested l suites); [| |exact Hloop].
    - by apply set_of_list_elem.
    - intros fs loc Hin. unfold suites in Hin.
      destruct (projectSuite_for ps n) as [suite|] eqn:Hs.
      + by eapply Hsuites.
      + by apply elem_of_nil in Hin. }
  assert (entries_only l s (final loop)) as (Hp & _ & _).
  { unfold loop. refine (preserves_for_of_acc _ _ _ _ _ _).
    intros ? ?. apply entries_only_fileSuite. }
  assert (files_grow s (final loop)) as Hg.
  { unfold loop. refine (preserves_for_of_acc _ _ _ _ _ _).
    intros ? ?. apply grow_fileSuite. }
  destruct (Hg r f Hf) as (f1 & Hf1 & _ & _ & Hrev).
  destruct (missing_sets_empty l ftd x r f1 (final loop) Hftd)
    as (f2 & Hf2 & He2 & Hk2); [|done|].
  - unfold project_files. by rewrite Hp.
  - exists f2. split_and!; [done..|]. lia.
Qed.

(** The iterations for the other projects do not touch the file. *)
Lemma other_projects_frame ps files after r s :
  (forall e, e ∈ after -> r ∉ JsMap.values (project_files s (snd e))) ->
  fileHeap (final (for_of after (_updateProjects_project ps files) s)) !! r
  = fileHeap s !! r.
Proof.
  revert s. induction after as [|e after IH]; intros s Hr; [done|].
  cbn [for_of]. rewrite final_bind.
  destruct (entries_only_project ps files e s) as (Hp & _ & Hframe).
  assert (fileHeap (final (_updateProjects_project ps files e s)) !! r
          = fileHeap s !! r) as H1.
  { apply Hframe, Hr, list_elem_of_here. }
  destruct (outcome _); [|done].
  rewrite IH; [done|]. intros e' He'. unfold project_files. rewrite Hp.
  apply Hr. by apply list_elem_of_further.
Qed.

Lemma earlier_projects_frame ps files before s :
  let s' := final (for_of before (_updateProjects_project ps files) s) in
  projHeap s' = projHeap s /\ files_grow s s'.
Proof.
  revert s. induction before as [|e before IH]; intros s; [done|].
  cbn [for_of]. cbn zeta. rewrite final_bind.
  destruct (entries_only_project ps files e s) as (Hp & _ & _).
  pose proof (grow__updateProjects_project ps files e s) as Hg.
  destruct (outcome _); [|done].
  destruct (IH (final (_updateProjects_project ps files e s))) as [Hp' Hg'].
  split; [congruence | by etrans].
Qed.

(** In a consistent model a file object sits in one project only. *)
Lemma wf_file_owner s n l n' l' x r :
  wf s ->
  JsMap.get n (_projects s) = Some l -> JsMap.get n' (_projects s) = Some l' ->
  JsMap.get x (project_files s l) = Some r ->
  r ∈ JsMap.values (project_files s l') ->
  n = n'.
Proof.
  intros Hwf Hl Hl' Hx Hr.
  destruct (proj2 Hwf _ _ Hl) as (P & HP & _ & _ & Hok).
  destruct (proj2 Hwf _ _ Hl') as (P' & HP' & _ & Hnd' & Hok').
  unfold project_files in Hx, Hr. rewrite HP in Hx. rewrite HP' in Hr.
  unfold JsMap.values in Hr. apply list_elem_of_fmap in Hr as ([y r'] & -> & Hy).
  apply elem_get in Hy; [|done]. simpl in *.
  destruct (Hok _ _ Hx) as (f & Hf & Hfp & _).
  destruct (Hok' _ _ Hy) as (f' & Hf' & Hfp' & _).
  assert (l = l') as <- by congruence.
  by eapply wf_project_inj.
Qed.

Lemma updateProjects_confirms_empty ps files n l x r f s :
  wf s ->
  JsMap.get n (_projects s) = Some l ->
  JsMap.get x (project_files s l) = Some r ->
  fileHeap s !! r = Some f ->
  x ∈ files ->
  (forall suite fileSuite loc,
     projectSuite_for ps n = Some suite -> fileSuite ∈ s_suites suite ->
     s_location fileSuite = Some loc -> loc_file loc <> x) ->
  outcome (_updateProjects ps files s) = Returned tt ->
  confirmed_empty r (revision f) (final (_updateProjects ps files s)).
Proof.
  intros Hwf Hl Hx Hf Hin Hsuites. unfold _updateProjects. mrun.
  rewrite outcome_bind, final_bind.
  set (body := _updateProjects_project ps files).
  destruct (outcome (for_of (_projects s) body s)) as [[]|] eqn:Hout; [|done].
  intros _. mrun.
  pose proof (get_Some_elem _ _ _ Hl) as Hel.
  apply list_elem_of_split in Hel as (m1 & m2 & Hm).
  pose proof (proj1 Hwf) as Hnd. rewrite Hm in Hnd, Hout |- *.
  unfold JsMap.keys in Hnd. rewrite fmap_app, fmap_cons in Hnd.
  apply NoDup_app in Hnd as (_ & _ & Hnd).
  apply NoDup_cons in Hnd as [Hn2 _]. cbn [fst] in Hn2.
  destruct (for_of_app m1 ((n, l) :: m2) body s) as [Hfin1 Hout1].
  rewrite Hfin1. rewrite Hout1 in Hout. clear Hfin1 Hout1.
  destruct (outcome (for_of m1 body s)) as [[]|]; [|done].
  destruct (earlier_projects_frame ps files m1 s) as [Hp1 Hg1].
  fold body in Hp1, Hg1. set (s1 := final (for_of m1 body s)) in *.
  destruct (Hg1 r f Hf) as (f1 & Hf1 & _ & _ & Hrev1).
  cbn [for_of] in Hout |- *. rewrite outcome_bind in Hout. rewrite final_bind.
  destruct (outcome (body (n, l) s1)) as [[]|] eqn:Hbody; [|done].
  destruct (project_confirms_empty ps files n l x r f1 s1)
    as (f2 & Hf2 & He2 & Hk2); try done.
  { unfold project_files. by rewrite Hp1. }
  destruct (entries_only_project ps files (n, l) s1) as (Hp2 & _ & _).
  fold body in Hp2, Hf2. set (s2 := final (body (n, l) s1)) in *.
  exists f2. split_and!; [|done|lia].
  unfold body. rewrite other_projects_frame; [done|].
  intros [n' l'] He' Hr'. cbn [snd] in Hr'.
  unfold project_files in Hr'. rewrite Hp2, Hp1 in Hr'.
  fold (project_files s l') in Hr'.
  assert (JsMap.get n' (_projects s) = Some l') as Hl'.
  { apply elem_get; [apply Hwf|]. rewrite Hm.
    apply elem_of_app. right. by apply list_elem_of_further. }
  assert (n = n') as <- by by eapply wf_file_owner.
  apply Hn2. apply list_elem_of_fmap. by exists (n, l').
Qed.

Lemma projHeap__updateProjects ps files s :
  projHeap (final (_updateProjects ps files s)) = projHeap s.
Proof.
  unfold _updateProjects. mrun. rewrite final_bind.
  pose proof (earlier_projects_frame ps files (_projects s) s) as [Hp _].
  destruct (outcome _); [|done]. by mrun.
Qed.

(** C5. In a consistent model, when a [listTests] pass for the files [F]
    returns, a file [x] of [F] that a known project [P] holds and for which
    the suite found for [P] has no file suite located in [x] (or no suite
    is found for [P]) is still P's file for [x], and it now holds the empty
    sequence: [entries()] is [[]], set by a [setEntries] of this pass. *)
Theorem listTests_confirms_empty (c : Collaborators) (files : list string)
    (s : TestModel) (n : string) (project : ProjRef) (x : string)
    (testFile : FileRef) (f : TestFile) (errors : list TestError) :
  wf s ->
  JsMap.get n (allProjects s) = Some project ->
  JsMap.get x (project_files s project) = Some testFile ->
  fileHeap s !! testFile = Some f ->
  x ∈ files ->
  (forall suite fileSuite loc,
     projectSuite_for
       (s_suites (fst (pw_listTests (playwrightTest c) (config s) files))) n
       = Some suite ->
     fileSuite ∈ s_suites suite ->
     s_location fileSuite = Some loc -> loc_file loc <> x) ->
  outcome (listTests c files s) = Returned errors ->
  let s' := final (listTests c files s) in
  JsMap.get x (project_files s' project) = Some testFile /\
  exists f', fileHeap s' !! testFile = Some f' /\
             entries f' = Some [] /\
             (revision f < revision f')%Z.
Proof.
  intros Hwf Hl Hx Hf Hin Hsuites Hout s'.
  set (answer := pw_listTests (playwrightTest c) (config s) files) in *.
  assert (s' = final (_updateProjects (s_suites (fst answer)) files s)
          /\ outcome (_updateProjects (s_suites (fst answer)) files s)
             = Returned tt) as [-> Hout'].
  { unfold s', listTests in *. mrun. fold answer in Hout |- *.
    rewrite final_bind. rewrite outcome_bind in Hout.
    destruct (outcome (_updateProjects _ _ _)) as [[]|]; [|done]. by mrun. }
  split.
  - unfold project_files. by rewrite projHeap__updateProjects.
  - by eapply updateProjects_confirms_empty.
Qed.

Lemma listTests_confirms_empty_witness :
  let s' := final (listTests Sample.runner [Sample.a_spec; Sample.b_spec]
                     Sample.listed) in
  JsMap.get Sample.b_spec (project_files s' 0) = Some 1 /\
  exists f', fileHeap s' !! 1 = Some f' /\
             entries f' = Some [] /\
             (revision (new_TestFile 0 Sample.b_spec) < revision f')%Z.
Proof.
  apply (listTests_confirms_empty Sample.runner
           [Sample.a_spec; Sample.b_spec] Sample.listed
           "chromium" 0 Sample.b_spec 1 (new_TestFile 0 Sample.b_spec) []).
  - apply wf_listed.
  - reflexivity.
  - reflexivity.
  - reflexivity.
  - apply list_elem_of_further, list_elem_of_here.
  - intros suite fileSuite loc H Hin Hloc.
    injection H as <-. apply list_elem_of_singleton in Hin as ->.
    injection Hloc as <-. discriminate.
  - reflexivity.
Defined.

(** * Further properties *)

(** ** Once parsed, never unparsed *)

#[local] Instance stays_parsed_preorder : PreOrder stays_parsed.
Proof.
  split.
  - intros s r f Hf He. eauto.
  - intros s1 s2 s3 H1 H2 r f Hf He.
    destruct (H1 r f Hf He) as (f' & Hf' & He'). eauto.
Qed.

Lemma extends_stays_parsed s s' : fileHeap_extends s s' -> stays_parsed s s'.
Proof.
  intros [k Hk] r f Hf He. exists f. rewrite Hk.
  split; [by apply lookup_app_l_Some | done].
Qed.

Lemma stays_parsed_setEntries r es s : stays_parsed s (file_setEntries r es s).
Proof.
  intros r' f Hf He. unfold file_setEntries. msimpl.
  destruct (decide (r = r')) as [->|Hne].
  - exists (setEntries es f). rewrite list_lookup_alter_eq, Hf.
    split; [reflexivity | done].
  - exists f. by rewrite list_lookup_alter_ne.
Qed.

Lemma stays_parsed_listFiles c : preserves stays_parsed (listFiles c).
Proof.
  intros s. rewrite final_listFiles. destruct (rep_error _); [reflexivity|].
  apply extends_stays_parsed, extends_listFiles_apply.
Qed.

Lemma stays_parsed_listTests c fs : preserves stays_parsed (listTests c fs).
Proof.
  unfold listTests, _updateProjects, fire. pres.
  unfold _updateProjects_project. pres.
  - intros s. by rewrite (proj1 (find_projectSuite_pure _ (fst x) s)).
  - unfold _updateProjects_fileSuite. pres.
    destruct (JsMap.get _ _); pres. apply stays_parsed_setEntries.
  - unfold _updateProjects_missing. pres.
    destruct (JsMap.get _ _); pres. apply stays_parsed_setEntries.
Qed.

Lemma stays_parsed_running ps :
  preserves stays_parsed (updateFromRunningProjects ps).
Proof.
  unfold updateFromRunningProjects. pres.
  unfold updateFromRunningProjects_projectSuite. pres.
  destruct (JsMap.get _ _); pres.
  unfold _updateFromRunningProject, fire. pres.
  unfold _updateFromRunningProject_fileSuite.
  case_bool_decide; pres.
  - destruct (JsMap.get _ _); pres.
    apply extends_stays_parsed, extends_createFile.
  - destruct (file_entries _ _); pres. apply stays_parsed_setEntries.
Qed.

Lemma stays_parsed_workspaceChanged c ch :
  preserves stays_parsed (workspaceChanged c ch).
Proof.
  unfold workspaceChanged, fire. pres.
  - apply extends_stays_parsed, extends_workspaceChanged_deleted.
  - unfold workspaceChanged_created. case_bool_decide; pres.
    destruct (hasMatchingFiles _ _); pres. apply stays_parsed_listFiles.
  - unfold workspaceChanged_changed. case_bool_decide; pres.
    case_bool_decide; pres. apply stays_parsed_listTests.
  - destruct a0; pres.
Qed.

(** X1. A [TestFile] object never goes back to "not parsed": once its
    [entries()] is defined it stays defined through any sequence of
    operations of the model, also for an object that a pass has dropped
    from its project. *)
Theorem parsed_stays_parsed (ops : list ModelOp) (s : TestModel)
    (r : FileRef) (f : TestFile) (es : list TestEntry) :
  fileHeap s !! r = Some f ->
  entries f = Some es ->
  exists f' es', fileHeap (run_ops ops s) !! r = Some f' /\
                 entries f' = Some es'.
Proof.
  intros Hf He.
  assert (stays_parsed s (run_ops ops s)) as Hst.
  { clear. revert s. induction ops as [|op ops IH]; intros s; [reflexivity|].
    simpl. etrans; [|apply IH]. destruct op; simpl.
    - apply stays_parsed_listFiles.
    - apply stays_parsed_listTests.
    - apply stays_parsed_running.
    - apply stays_parsed_workspaceChanged.
    - unfold setProjectEnabled, fire.
      apply extends_stays_parsed. unfold fileHeap_extends. by mrun. }
  destruct (Hst r f Hf) as (f' & Hf' & He'); [by rewrite He|].
  destruct (entries f') as [es'|] eqn:E; [eauto | done].
Qed.

Lemma parsed_stays_parsed_witness :
  exists f' es',
    fileHeap (run_ops [OpListFiles Sample.narrow_runner;
                       OpListTests Sample.runner [Sample.b_spec]]
                Sample.parsed) !! 2 = Some f' /\
    entries f' = Some es'.
Proof.
  apply (parsed_stays_parsed _ Sample.parsed 2
           {| tf_project := 1; tf_file := Sample.a_spec;
              _entries := Some []; _revision := 1 |} []);
    reflexivity.
Defined.

(** ** A targeted parse changes no membership *)

#[local] Instance membership_kept_preorder : PreOrder membership_kept.
Proof.
  split.
  - intros s. by unfold membership_kept.
  - intros s1 s2 s3 (? & ? & ? & ? & ? & ?) (? & ? & ? & ? & ? & ?).
    unfold membership_kept. split_and!; congruence.
Qed.

Lemma membership_setEntries r es s : membership_kept s (file_setEntries r es s).
Proof.
  unfold membership_kept, file_setEntries. msimpl.
  split_and!; try done. by rewrite length_alter.
Qed.

Lemma membership_listTests c files :
  preserves membership_kept (listTests c files).
Proof.
  unfold listTests, _updateProjects, fire. pres.
  unfold _updateProjects_project. pres.
  - intros s. by rewrite (proj1 (find_projectSuite_pure _ (fst x) s)).
  - unfold _updateProjects_fileSuite. pres.
    destruct (JsMap.get _ _); pres. apply membership_setEntries.
  - unfold _updateProjects_missing. pres.
    destruct (JsMap.get _ _); pres. apply membership_setEntries.
Qed.

(** X2. [listTests] only replaces entries: whether it returns or throws,
    the project objects with their file maps, the project map, the
    configuration and the source map caches are the ones from before, and no
    [TestFile] object is made; every [TestFile] object is still the file of
    the same project and path. *)
Theorem listTests_keeps_membership (c : Collaborators) (files : list string)
    (s : TestModel) :
  let s' := final (listTests c files s) in
  projHeap s' = projHeap s /\
  allProjects s' = allProjects s /\
  config s' = config s /\
  _fileToSources s' = _fileToSources s /\
  _sourceToFile s' = _sourceToFile s /\
  length (fileHeap s') = length (fileHeap s) /\
  forall r f, fileHeap s !! r = Some f ->
    exists f', fileHeap s' !! r = Some f' /\
               tf_project f' = tf_project f /\ tf_file f' = tf_file f.
Proof.
  intros s'.
  destruct (membership_listTests c files s) as (H1 & H2 & H3 & H4 & H5 & H6).
  fold s' in H1, H2, H3, H4, H5, H6.
  split_and!; try done. intros r f Hf.
  destruct (grow_listTests c files s r f Hf) as (f' & Hf' & Hp & Hx & _).
  eauto.
Qed.

(** ** Only [setProjectEnabled] changes the flag of a project *)

#[local] Instance projects_stable_preorder : PreOrder projects_stable.
Proof.
  split; [exact projects_stable_refl | exact projects_stable_trans].
Qed.

Lemma stable_listFiles c : preserves projects_stable (listFiles c).
Proof.
  intros s. rewrite final_listFiles. destruct (rep_error _); [reflexivity|].
  apply reconciles_listFiles_apply.
Qed.

Lemma stable_listTests c fs : preserves projects_stable (listTests c fs).
Proof.
  intros s q P HP. exists P.
  destruct (membership_listTests c fs s) as (-> & _). done.
Qed.

Lemma stable_running ps :
  preserves projects_stable (updateFromRunningProjects ps).
Proof.
  intros s q P HP.
  destruct (frame_updateFromRunningProjects ps s) as (_ & _ & _ & _ & H & _).
  destruct (H q P HP) as (P' & HP' & ? & ? & ? & _). eauto.
Qed.

Lemma stable_deleted del s :
  projects_stable s (snd (workspaceChanged_deleted del s)).
Proof.
  unfold workspaceChanged_deleted. case_bool_decide; [reflexivity|].
  apply (fold_left_rel_snd projects_stable
           (fun acc project =>
              fold_left (workspaceChanged_delete project) del acc)
           (JsMap.values (_projects s)) (false, s)).
  intros acc p.
  apply (fold_left_rel_snd projects_stable (workspaceChanged_delete p)).
  intros a x. unfold workspaceChanged_delete.
  destruct (JsMap.has x _); [|reflexivity].
  apply (updates_files_delete p x (snd a)).
Qed.

Lemma stable_workspaceChanged c ch :
  preserves projects_stable (workspaceChanged c ch).
Proof.
  unfold workspaceChanged, fire. pres.
  - apply stable_deleted.
  - unfold workspaceChanged_created. case_bool_decide; pres.
    destruct (hasMatchingFiles _ _); pres. apply stable_listFiles.
  - unfold workspaceChanged_changed. case_bool_decide; pres.
    case_bool_decide; pres. apply stable_listTests.
  - destruct a0; pres.
Qed.

Lemma project_kept_of_stable flag q s s' :
  projects_stable s s' -> project_kept flag q s s'.
Proof.
  intros H P HP. destruct (H q P HP) as (P' & ? & ? & ? & ?). eauto 10.
Qed.

Lemma project_kept_trans f1 f2 q s1 s2 s3 :
  project_kept f1 q s1 s2 -> project_kept f2 q s2 s3 ->
  project_kept (f1 && f2) q s1 s3.
Proof.
  intros H1 H2 P HP.
  destruct (H1 P HP) as (P' & HP' & Hn & Ht & He).
  destruct (H2 P' HP') as (P'' & HP'' & Hn' & Ht' & He').
  exists P''. split_and!; [done | congruence | congruence |].
  intros [-> ->]%andb_true_iff. rewrite He', He; done.
Qed.

Lemma project_kept_run_op q op s :
  project_kept (negb (enables q op)) q s (run_op op s).
Proof.
  destruct op; simpl.
  - apply project_kept_of_stable, stable_listFiles.
  - apply project_kept_of_stable, stable_listTests.
  - apply project_kept_of_stable, stable_running.
  - apply project_kept_of_stable, stable_workspaceChanged.
  - intros P HP. unfold setProjectEnabled, fire. mrun. msimpl.
    case_bool_decide as Hq.
    + subst. eexists. rewrite list_lookup_alter_eq, HP.
      split; [reflexivity|]. split_and!; done.
    + exists P. rewrite list_lookup_alter_ne by done. split_and!; done.
Qed.

(** X3. Through any sequence of operations a project object keeps its name
    and its directory, and it keeps its enabled flag unless one of the
    operations is a [setProjectEnabled] on that very object: discovery,
    parsing, live runs and file system changes never enable or disable a
    project. *)
Theorem only_setProjectEnabled_changes_flag (ops : list ModelOp)
    (s : TestModel) (q : ProjRef) (P : TestProject) :
  projHeap s !! q = Some P ->
  exists P', projHeap (run_ops ops s) !! q = Some P' /\
             name P' = name P /\ testDir P' = testDir P /\
             (existsb (enables q) ops = false -> isEnabled P' = isEnabled P).
Proof.
  intros HP.
  assert (project_kept (negb (existsb (enables q) ops)) q s (run_ops ops s))
    as Hkept.
  { clear. revert s. induction ops as [|op ops IH]; intros s.
    - intros P HP. exists P. done.
    - simpl. rewrite negb_orb.
      eapply project_kept_trans; [apply project_kept_run_op | apply IH]. }
  destruct (Hkept P HP) as (P' & HP' & Hn & Ht & He).
  exists P'. split_and!; try done.
  intros Hno. apply He. by rewrite Hno.
Qed.

Lemma only_setProjectEnabled_changes_flag_witness :
  exists P',
    projHeap (run_ops [OpSetProjectEnabled 1 false;
                       OpListFiles Sample.runner;
                       OpWorkspaceChanged Sample.runner
                         {| created := [Sample.c_spec];
                            changed := [Sample.a_spec];
                            deleted := [Sample.b_spec] |}]
                Sample.parsed) !! 0 = Some P' /\
    name P' = "chromium"%string /\ testDir P' = "/proj/tests"%string /\
    (existsb (enables 0)
       [OpSetProjectEnabled 1 false; OpListFiles Sample.runner;
        OpWorkspaceChanged Sample.runner
          {| created := [Sample.c_spec]; changed := [Sample.a_spec];
             deleted := [Sample.b_spec] |}] = false ->
     isEnabled P' = true).
Proof.
  apply (only_setProjectEnabled_changes_flag _ Sample.parsed 0
           {| name := "chromium"; testDir := "/proj/tests";
              files := [(Sample.a_spec, 0); (Sample.b_spec, 1)];
              isEnabled := true |}).
  reflexivity.
Defined.

(** ** When the passes return *)

Lemma for_of_returns {A} (xs : list A) (body : A -> M unit) s :
  (forall x s, x ∈ xs -> outcome (body x s) = Returned tt) ->
  outcome (for_of xs body s) = Returned tt.
Proof.
  revert s. induction xs as [|x xs IH]; intros s Hb; [done|].
  cbn [for_of]. rewrite outcome_bind, Hb by apply list_elem_of_here.
  apply IH. intros y s' Hy. apply Hb. by apply list_elem_of_further.
Qed.

Lemma find_projectSuite_returns ps n s :
  (forall e, e ∈ ps -> is_Some (s_project e)) ->
  outcome (find_projectSuite ps n s) = Returned (projectSuite_for ps n).
Proof.
  induction ps as [|e ps IH]; intros Hp; [done|].
  destruct (Hp e (list_elem_of_here _ _)) as [p Hpe].
  cbn [find_projectSuite projectSuite_for List.find]. rewrite Hpe. mrun.
  case_bool_decide as Hn.
  - by rewrite decide_True.
  - rewrite decide_False by done. apply IH.
    intros e' He'. apply Hp. by apply list_elem_of_further.
Qed.

Lemma projectSuite_for_elem ps n suite :
  projectSuite_for ps n = Some suite -> suite ∈ ps.
Proof.
  unfold projectSuite_for. intros H. apply find_some in H as [H _].
  by apply list_elem_of_In.
Qed.

Lemma fileSuites_return l suites ftd s :
  (forall fs, fs ∈ suites -> is_Some (s_location fs)) ->
  exists ftd', outcome (for_of_acc suites (_updateProjects_fileSuite l) ftd s)
               = Returned ftd'.
Proof.
  revert ftd s. induction suites as [|fs suites IH]; intros ftd s Hloc.
  - by exists ftd.
  - cbn [for_of_acc]. rewrite outcome_bind.
    destruct (Hloc fs (list_elem_of_here _ _)) as [loc Hl].
    assert (exists ftd1, outcome (_updateProjects_fileSuite l ftd fs s)
                         = Returned ftd1) as [ftd1 ->].
    { unfold _updateProjects_fileSuite. rewrite Hl. mrun.
      destruct (JsMap.get (loc_file loc) (project_files s l)); mrun; eauto. }
    apply IH. intros fs' Hfs'. apply Hloc. by apply list_elem_of_further.
Qed.

(** X4. When every project suite of the answer has a project and every file
    suite under them has a location, [listTests] returns the errors the
    runner reported, after one call to the runner with the current
    configuration and the requested files and one change event. *)
Theorem listTests_returns (c : Collaborators) (files : list string)
    (s : TestModel) :
  (forall projectSuite,
     projectSuite ∈ s_suites
       (fst (pw_listTests (playwrightTest c) (config s) files)) ->
     suite_located (fun _ => true) projectSuite) ->
  outcome (listTests c files s) =
    Returned (snd (pw_listTests (playwrightTest c) (config s) files)) /\
  events (listTests c files s) =
    [CallListTests (config s) files; DidUpdate].
Proof.
  intros Hloc.
  set (answer := pw_listTests (playwrightTest c) (config s) files) in *.
  assert (outcome (_updateProjects (s_suites (fst answer)) files s)
          = Returned tt) as Hret.
  { unfold _updateProjects. mrun. rewrite outcome_bind.
    rewrite for_of_returns; [done|]. intros [n l] s1 _.
    unfold _updateProjects_project. cbn [fst snd].
    rewrite outcome_bind, find_projectSuite_returns
      by (intros e He; apply (Hloc e He)).
    rewrite (proj1 (find_projectSuite_pure _ n s1)), outcome_bind.
    destruct (fileSuites_return l
                (match projectSuite_for (s_suites (fst answer)) n with
                 | Some ps => s_suites ps
                 | None => []
                 end) (JsSet.of_list files) s1) as [ftd Hftd].
    { intros fs Hfs.
      destruct (projectSuite_for _ n) as [suite|] eqn:Hs;
        [|by apply elem_of_nil in Hfs].
      apply projectSuite_for_elem in Hs.
      by apply (proj2 (Hloc suite Hs)). }
    rewrite Hftd. apply missing_returns. }
  split.
  - unfold listTests. mrun. fold answer. rewrite outcome_bind, Hret. by mrun.
  - rewrite events_listTests. unfold returned, listTests. mrun. fold answer.
    rewrite outcome_bind, Hret. by mrun.
Qed.

Lemma listTests_returns_witness :
  outcome (listTests Sample.runner [Sample.a_spec] Sample.listed) =
    Returned [] /\
  events (listTests Sample.runner [Sample.a_spec] Sample.listed) =
    [CallListTests (config Sample.listed) [Sample.a_spec]; DidUpdate].
Proof.
  apply (listTests_returns Sample.runner [Sample.a_spec] Sample.listed).
  intros ps Hps. apply list_elem_of_singleton in Hps as ->.
  split; [by eexists|].
  intros fs Hfs _. apply list_elem_of_singleton in Hfs as ->. by eexists.
Defined.

Lemma running_fileSuite_returns project fs s :
  (has_tests fs = true -> is_Some (s_location fs)) ->
  outcome (_updateFromRunningProject_fileSuite project fs s) = Returned tt.
Proof.
  intros Hloc. unfold _updateFromRunningProject_fileSuite.
  unfold has_tests in Hloc. case_bool_decide; [done|].
  destruct (Hloc eq_refl) as [loc ->]. mrun.
  destruct (JsMap.get (loc_file loc) (project_files s project)); mrun.
  - by destruct (file_entries s n).
  - by destruct (file_entries _ _).
Qed.

(** X5. When every reported project suite has a project and each of its
    file suites that has a test has a location, [updateFromRunningProjects]
    returns; file suites without tests need no location. *)
Theorem updateFromRunningProjects_returns (projectSuites : list Suite)
    (s : TestModel) :
  (forall projectSuite, projectSuite ∈ projectSuites ->
     suite_located has_tests projectSuite) ->
  outcome (updateFromRunningProjects projectSuites s) = Returned tt.
Proof.
  intros Hloc. unfold updateFromRunningProjects.
  apply for_of_returns. intros ps s1 Hps.
  destruct (Hloc ps Hps) as [[p Hp] Hfiles].
  unfold updateFromRunningProjects_projectSuite. rewrite Hp. mrun.
  destruct (JsMap.get (fp_name p) (_projects s1)) as [project|]; [|done].
  unfold _updateFromRunningProject. rewrite outcome_bind.
  rewrite for_of_returns; [done|].
  intros fs s2 Hfs. apply running_fileSuite_returns. by apply Hfiles.
Qed.

Lemma updateFromRunningProjects_returns_witness :
  outcome (updateFromRunningProjects
             [Sample.projectSuite "chromium"
                [mkSuite "placeholder" None None [] [] [];
                 Sample.fileSuite Sample.c_spec
                   [Sample.case "adds" Sample.c_spec]]]
             Sample.parsed) = Returned tt.
Proof.
  apply updateFromRunningProjects_returns.
  intros ps Hps. apply list_elem_of_singleton in Hps as ->.
  split; [by eexists|].
  intros fs Hfs Htests.
  apply elem_of_cons in Hfs as [->|Hfs]; [discriminate Htests|].
  apply list_elem_of_singleton in Hfs as ->. by eexists.
Defined.

(** X6. A live run that reports only file suites without tests changes
    nothing: no [TestFile] is made for their paths and the model is the one
    from before, whether or not the project is known and whether or not the
    suites have a location. *)
Theorem updateFromRunningProjects_ignores_empty_suites
    (projectSuites : list Suite) (s : TestModel) :
  (forall projectSuite, projectSuite ∈ projectSuites ->
     is_Some (s_project projectSuite) /\
     forall fileSuite, fileSuite ∈ s_suites projectSuite ->
       has_tests fileSuite = false) ->
  outcome (updateFromRunningProjects projectSuites s) = Returned tt /\
  final (updateFromRunningProjects projectSuites s) = s.
Proof.
  unfold updateFromRunningProjects.
  induction projectSuites as [|ps rest IH]; intros Hempty; [done|].
  destruct (Hempty ps (list_elem_of_here _ _)) as [[p Hp] Hfiles].
  assert (outcome (updateFromRunningProjects_projectSuite ps s) = Returned tt
          /\ final (updateFromRunningProjects_projectSuite ps s) = s)
    as [Hout Hfin].
  { unfold updateFromRunningProjects_projectSuite. rewrite Hp. mrun.
    destruct (JsMap.get (fp_name p) (_projects s)) as [project|]; [|done].
    unfold _updateFromRunningProject. rewrite outcome_bind, final_bind.
    assert (outcome (for_of (s_suites ps)
                       (_updateFromRunningProject_fileSuite project) s)
            = Returned tt /\
            final (for_of (s_suites ps)
                     (_updateFromRunningProject_fileSuite project) s) = s)
      as [-> ->]; [|done].
    clear Hempty IH. induction (s_suites ps) as [|fs fss IHf]; [done|].
    cbn [for_of]. rewrite outcome_bind, final_bind.
    assert (_updateFromRunningProject_fileSuite project fs s = ret tt s)
      as ->.
    { unfold _updateFromRunningProject_fileSuite.
      pose proof (Hfiles fs (list_elem_of_here _ _)) as Hfs.
      unfold has_tests in Hfs. apply negb_false_iff in Hfs. by rewrite Hfs. }
    mrun. apply IHf. intros fs' Hfs'. apply Hfiles. by apply list_elem_of_further. }
  cbn [for_of]. rewrite outcome_bind, final_bind, Hout, Hfin.
  apply IH. intros ps' Hps'. apply Hempty. by apply list_elem_of_further.
Qed.

Lemma updateFromRunningProjects_ignores_empty_suites_witness :
  outcome (updateFromRunningProjects
             [Sample.projectSuite "chromium"
                [Sample.fileSuite Sample.c_spec [];
                 mkSuite "placeholder" None None [] [] []]]
             Sample.parsed) = Returned tt /\
  final (updateFromRunningProjects
           [Sample.projectSuite "chromium"
              [Sample.fileSuite Sample.c_spec [];
               mkSuite "placeholder" None None [] [] []]]
           Sample.parsed) = Sample.parsed.
Proof.
  apply updateFromRunningProjects_ignores_empty_suites.
  intros ps Hps. apply list_elem_of_singleton in Hps as ->.
  split; [by eexists|].
  intros fs Hfs.
  apply elem_of_cons in Hfs as [->|Hfs]; [reflexivity|].
  apply list_elem_of_singleton in Hfs as ->. reflexivity.
Defined.

(** ** Source maps, enabled projects *)

Lemma set_add_NoDup x (s : JsSet.t) : NoDup s -> NoDup (JsSet.add x s).
Proof.
  intros Hnd. unfold JsSet.add, JsSet.has. case_bool_decide; [done|].
  apply NoDup_app. split_and!; [done| |apply NoDup_singleton].
  intros y Hy ->%list_elem_of_singleton. done.
Qed.

Lemma set_fold_add_NoDup (l : list string) (s : JsSet.t) :
  NoDup s -> NoDup (fold_left (fun r f => JsSet.add f r) l s).
Proof.
  revert s. induction l as [|x l IH]; intros s Hnd; [done|].
  simpl. by apply IH, set_add_NoDup.
Qed.

(** X7. [_mapFilesToSources] gives a set (no path twice) that holds, for
    each given file, its cached sources when the cache knows the file and
    the file itself when it does not; a file cached with no source at all
    contributes nothing. *)
Theorem mapFilesToSources_spec (s : TestModel) (fs : JsSet.t) :
  NoDup (_mapFilesToSources s fs) /\
  forall x, x ∈ _mapFilesToSources s fs <->
    exists file, file ∈ fs /\
      match JsMap.get file (_fileToSources s) with
      | Some sources => x ∈ sources
      | None => x = file
      end.
Proof.
  unfold _mapFilesToSources.
  set (step := fun (result : JsSet.t) (file : string) => _).
  assert (forall acc, NoDup acc ->
    NoDup (fold_left step fs acc) /\
    forall x, x ∈ fold_left step fs acc <->
      x ∈ acc \/ exists file, file ∈ fs /\
        match JsMap.get file (_fileToSources s) with
        | Some sources => x ∈ sources
        | None => x = file
        end) as H.
  { induction fs as [|file fs IH]; intros acc Hnd.
    - split; [done|]. intros x. split; [auto|].
      intros [H|(f & Hf & _)]; [done | by apply elem_of_nil in Hf].
    - cbn [fold_left].
      assert (NoDup (step acc file)) as Hnd'.
      { unfold step. destruct (JsMap.get file _).
        - by apply set_fold_add_NoDup.
        - by apply set_add_NoDup. }
      destruct (IH _ Hnd') as [IH1 IH2]. split; [done|].
      intros x. rewrite IH2. unfold step at 1.
      destruct (JsMap.get file (_fileToSources s)) as [sources|] eqn:Hget.
      + rewrite set_fold_add_elem. split.
        * intros [[H|H]|(f & Hf & Hx)]; [|by left|].
          -- right. exists file. rewrite Hget. split; [left|done].
          -- right. exists f. split; [by right | done].
        * intros [H|(f & Hf & Hx)]; [by left; right|].
          apply elem_of_cons in Hf as [->|Hf].
          -- rewrite Hget in Hx. by left; left.
          -- right. eauto.
      + rewrite set_add_elem. split.
        * intros [[->|H]|(f & Hf & Hx)]; [|by left|].
          -- right. exists file. rewrite Hget. split; [left|done].
          -- right. exists f. split; [by right | done].
        * intros [H|(f & Hf & Hx)]; [by left; right|].
          apply elem_of_cons in Hf as [->|Hf].
          -- rewrite Hget in Hx. by left; left.
          -- right. eauto. }
  destruct (H [] (NoDup_nil_2)) as [H1 H2]. split; [done|].
  intros x. rewrite H2. split; [|auto].
  intros [Hnil|?]; [by apply elem_of_nil in Hnil | done].
Qed.

Lemma enabledProjects_elem s p :
  p ∈ enabledProjects s <->
  p ∈ JsMap.values (_projects s) /\
  exists P, projHeap s !! p = Some P /\ isEnabled P = true.
Proof.
  unfold enabledProjects. rewrite list_elem_of_In, filter_In.
  rewrite <- list_elem_of_In.
  destruct (projHeap s !! p) as [P|]; [|naive_solver].
  split; [intros [? ?]; eauto | intros [? (P' & [= <-] & ?)]; done].
Qed.

Lemma enabledFiles_elem s x :
  x ∈ enabledFiles s <->
  exists p, p ∈ enabledProjects s /\ x ∈ JsMap.keys (project_files s p).
Proof.
  unfold enabledFiles. rewrite list_elem_of_In, in_concat. split.
  - intros (l & Hl & Hx). apply in_map_iff in Hl as (p & <- & Hp).
    exists p. rewrite !list_elem_of_In. auto.
  - intros (p & Hp & Hx). exists (JsMap.keys (project_files s p)).
    split; [|by apply list_elem_of_In].
    apply in_map_iff. exists p. split; [done|]. by apply list_elem_of_In.
Qed.

Lemma has_true_keys {V} k (m : JsMap.t V) :
  JsMap.has k m = true <-> k ∈ JsMap.keys m.
Proof.
  unfold JsMap.has. rewrite <- get_Some_keys.
  destruct (JsMap.get k m).
  - split; [intros _; eauto | done].
  - split; [done | intros [? ?]; done].
Qed.

(** X8. [narrowDownFilesToEnabledProjects] gives, without repetition, the
    given file names that are files of an enabled project, that is the given
    names that occur in [enabledFiles()]; a project is enabled when it is in
    the project map and its flag is set. *)
Theorem narrowDown_is_intersection (s : TestModel) (fileNames : JsSet.t) :
  NoDup (narrowDownFilesToEnabledProjects s fileNames) /\
  (forall x, x ∈ narrowDownFilesToEnabledProjects s fileNames <->
             x ∈ fileNames /\ x ∈ enabledFiles s) /\
  (forall x, x ∈ enabledFiles s <->
     exists p P, p ∈ JsMap.values (allProjects s) /\
                 projHeap s !! p = Some P /\ isEnabled P = true /\
                 x ∈ JsMap.keys (files P)).
Proof.
  unfold narrowDownFilesToEnabledProjects.
  set (inner := fun (p : nat) (result : JsSet.t) (fileName : string) =>
         if JsMap.has fileName (project_files s p)
         then JsSet.add fileName result else result).
  assert (forall p names acc, NoDup acc ->
    NoDup (fold_left (inner p) names acc) /\
    forall x, x ∈ fold_left (inner p) names acc <->
      x ∈ acc \/ (x ∈ names /\ x ∈ JsMap.keys (project_files s p))) as Hin.
  { intros p names. induction names as [|y names IH]; intros acc Hnd.
    - split; [done|]. intros x. split; [auto|].
      intros [?|[H _]]; [done | by apply elem_of_nil in H].
    - cbn [fold_left].
      assert (NoDup (inner p acc y)) as Hnd'.
      { unfold inner. destruct (JsMap.has y _); [by apply set_add_NoDup|done]. }
      destruct (IH _ Hnd') as [IH1 IH2]. split; [done|].
      intros x. rewrite IH2, elem_of_cons. unfold inner at 1.
      destruct (JsMap.has y (project_files s p)) eqn:Hhas.
      + apply has_true_keys in Hhas. rewrite set_add_elem. naive_solver.
      + assert (y ∉ JsMap.keys (project_files s p)) as Hn.
        { intros H. apply has_true_keys in H. congruence. }
        naive_solver. }
  assert (forall ps acc, NoDup acc ->
    NoDup (fold_left (fun result p => fold_left (inner p) fileNames result)
             ps acc) /\
    forall x, x ∈ fold_left
                    (fun result p => fold_left (inner p) fileNames result)
                    ps acc <->
      x ∈ acc \/ (x ∈ fileNames /\ exists p, p ∈ ps /\
                    x ∈ JsMap.keys (project_files s p))) as Hout.
  { induction ps as [|p ps IH]; intros acc Hnd.
    - split; [done|]. intros x. split; [auto|].
      intros [?|[_ (p & H & _)]]; [done | by apply elem_of_nil in H].
    - cbn [fold_left]. destruct (Hin p fileNames acc Hnd) as [Hnd' Hx'].
      destruct (IH _ Hnd') as [IH1 IH2]. split; [done|].
      intros x. rewrite IH2, Hx'. split.
      + intros [[?|[? ?]]|[? (q & Hq & ?)]]; [by left| |].
        * right. split; [done|]. exists p. split; [left|done].
        * right. split; [done|]. exists q. split; [by right|done].
      + intros [?|[? (q & Hq & ?)]]; [by left; left|].
        apply elem_of_cons in Hq as [->|Hq]; [by left; right|].
        right. eauto. }
  destruct (Hout (enabledProjects s) [] (NoDup_nil_2)) as [H1 H2].
  split; [exact H1|]. split.
  - intros x. etrans; [exact (H2 x)|]. rewrite enabledFiles_elem.
    split; [|naive_solver].
    intros [Hnil|?]; [by apply elem_of_nil in Hnil | done].
  - intros x. rewrite enabledFiles_elem. unfold allProjects. split.
    + intros (p & Hp & Hx). apply enabledProjects_elem in Hp
        as (Hv & P & HP & He).
      exists p, P. unfold project_files in Hx. rewrite HP in Hx. done.
    + intros (p & P & Hv & HP & He & Hx). exists p. split.
      * apply enabledProjects_elem. eauto.
      * unfold project_files. by rewrite HP.
Qed.

(** X9. After [setProjectEnabled(p, b)] the enabled projects are the ones
    that were enabled, without [p], together with [p] itself when [b] is
    true and [p] is a project of the map; the call fires one change event,
    and of two calls on the same project the later one decides. *)
Theorem setProjectEnabled_enabledProjects (s : TestModel) (p : ProjRef)
    (b b' : bool) :
  (forall q, q ∈ enabledProjects (final (setProjectEnabled p b s)) <->
     (q <> p /\ q ∈ enabledProjects s) \/
     (q = p /\ b = true /\ p ∈ JsMap.values (allProjects s) /\
      p < length (projHeap s))) /\
  events (setProjectEnabled p b s) = [DidUpdate] /\
  final (setProjectEnabled p b (final (setProjectEnabled p b' s))) =
  final (setProjectEnabled p b s).
Proof.
  split_and!.
  - intros q. rewrite !enabledProjects_elem. unfold allProjects.
    unfold setProjectEnabled, fire. mrun. msimpl.
    destruct (decide (q = p)) as [->|Hne].
    + rewrite list_lookup_alter_eq. split.
      * intros (Hv & P & HP & He). right.
        destruct (projHeap s !! p) as [P0|] eqn:HP0; [|done].
        injection HP as <-. simpl in He. split_and!; try done.
        by eapply lookup_lt_Some.
      * intros [[? _]|(_ & -> & Hv & Hlt)]; [done|]. split; [done|].
        apply lookup_lt_is_Some_2 in Hlt as [P0 HP0]. rewrite HP0.
        eexists. split; [reflexivity|]. done.
    + rewrite list_lookup_alter_ne by done. naive_solver.
  - reflexivity.
  - unfold setProjectEnabled, fire. mrun. unfold set_projHeap. msimpl.
    f_equal. rewrite list_alter_alter_eq. apply list_alter_ext; [|done].
    intros P _. done.
Qed.

(** ** [listFiles]: the configuration *)

#[local] Instance config_kept_preorder : PreOrder config_kept.
Proof.
  split; unfold config_kept; [done | intros s1 s2 s3; congruence].
Qed.

Lemma config_updateProject p rep s : config_kept s (_updateProject p rep s).
Proof.
  unfold _updateProject.
  set (acc := fold_left (_updateProject_add p) (pc_files rep) ([], s)).
  transitivity (snd acc).
  - apply (fold_left_rel_snd config_kept
             (_updateProject_add p) (pc_files rep) ([], s)).
    intros a x. unfold _updateProject_add. msimpl.
    by destruct (JsMap.get x _).
  - apply (fold_left_rel config_kept).
    intros s' x. unfold _updateProject_prune. by destruct (JsSet.has x _).
Qed.

Lemma resolve_projects_config rsm ps acc :
  let cfg := config (snd acc) in
  let cfg' := config (snd (fold_left (resolve_project rsm) ps acc)) in
  workspaceFolder cfg' = workspaceFolder cfg /\
  configFile cfg' = configFile cfg /\
  cli cfg' = cli cfg /\
  version cfg' = version cfg /\
  testIdAttributeName cfg' =
    last_testIdAttribute ps (testIdAttributeName cfg).
Proof.
  revert acc. induction ps as [|p ps IH]; intros acc; [done|].
  cbn [fold_left]. cbn zeta.
  destruct (IH (resolve_project rsm acc p)) as (H1 & H2 & H3 & H4 & H5).
  rewrite H1, H2, H3, H4, H5. unfold resolve_project. msimpl.
  cbn [workspaceFolder configFile cli version testIdAttributeName].
  do 4 (split; [reflexivity|]).
  unfold last_testIdAttribute. destruct ps as [|p' ps]; [done|].
  rewrite last_cons_cons.
  destruct (last (p' :: ps)) eqn:E; [done|]. by apply last_None in E.
Qed.

(** X10. A [listFiles] pass without error leaves the workspace folder, the
    configuration file, the runner and its version as they are and sets the
    test-ID attribute name from the last reported project: to that
    project's [use.testIdAttribute], or to undefined when the project has no
    [use]; a report without projects leaves the name as it is. *)
Theorem listFiles_testIdAttributeName (c : Collaborators) (s : TestModel) :
  rep_error (pw_listFiles (playwrightTest c) (config s)) = None ->
  let report := pw_listFiles (playwrightTest c) (config s) in
  let cfg' := config (final (listFiles c s)) in
  workspaceFolder cfg' = workspaceFolder (config s) /\
  configFile cfg' = configFile (config s) /\
  cli cfg' = cli (config s) /\
  version cfg' = version (config s) /\
  testIdAttributeName cfg' =
    last_testIdAttribute (rep_projects report)
      (testIdAttributeName (config s)).
Proof.
  intros Herr report cfg'. unfold cfg'.
  rewrite final_listFiles, Herr. fold report.
  unfold listFiles_apply.
  set (resolved := resolve_projects (resolveSourceMap c)
                     (rep_projects report) s).
  set (acc := fold_left listFiles_project (fst resolved) ([], snd resolved)).
  assert (config_kept (snd resolved) (snd acc)) as H1.
  { apply (fold_left_rel_snd config_kept listFiles_project
             (fst resolved) ([], snd resolved)).
    intros a rep. unfold listFiles_project. msimpl.
    destruct (JsMap.get _ _); msimpl; [apply config_updateProject|].
    etrans; [|apply config_updateProject]. done. }
  assert (config_kept (snd acc)
            (fold_left (listFiles_prune (fst acc))
               (JsMap.keys (_projects (snd acc))) (snd acc))) as H2.
  { apply (fold_left_rel config_kept).
    intros s' x. unfold listFiles_prune. by destruct (JsSet.has x _). }
  unfold config_kept in H1, H2. rewrite H2, H1.
  apply (resolve_projects_config (resolveSourceMap c)
           (rep_projects report) ([], s)).
Qed.

Lemma listFiles_testIdAttributeName_witness :
  let cfg' := config (final (listFiles Sample.runner Sample.empty_model)) in
  workspaceFolder cfg' = "/proj"%string /\
  configFile cfg' = "/proj/playwright.config.ts"%string /\
  cli cfg' = "cli.js"%string /\
  version cfg' = 1%Z /\
  testIdAttributeName cfg' = None.
Proof.
  apply (listFiles_testIdAttributeName Sample.runner Sample.empty_model).
  reflexivity.
Defined.

(** ** [workspaceChanged]: deleted and created files *)

Lemma deleted_files_get p del acc q x :
  JsMap.get x (project_files
                 (snd (fold_left (workspaceChanged_delete p) del acc)) q) =
  if decide (q = p /\ x ∈ del) then None
  else JsMap.get x (project_files (snd acc) q).
Proof.
  revert acc. induction del as [|y del IH]; intros acc; cbn [fold_left].
  - rewrite decide_False; [done|]. intros [_ H]. by apply elem_of_nil in H.
  - rewrite IH. clear IH. unfold workspaceChanged_delete.
    destruct (JsMap.has y (project_files (snd acc) p)) eqn:Hhas; msimpl.
    + rewrite project_files_delete_files.
      destruct (decide (q = p /\ x ∈ del)) as [[-> H]|Hn].
      * rewrite decide_True; [done|]. split; [done | by right].
      * destruct (decide (q = p)) as [->|Hqp].
        -- destruct (decide (y = x)) as [->|Hyx].
           ++ rewrite get_delete_eq. rewrite decide_True; [done|].
              split; [done | left].
           ++ rewrite get_delete_ne by done. rewrite decide_False; [done|].
              rewrite elem_of_cons. intros [_ [->|H]]; [done|]. apply Hn. auto.
        -- rewrite decide_False; [done|]. intros [? _]. done.
    + destruct (decide (q = p /\ x ∈ del)) as [[-> H]|Hn].
      * rewrite decide_True; [done|]. split; [done | by right].
      * destruct (decide (q = p /\ x ∈ y :: del)) as [[-> H]|Hn']; [|done].
        apply elem_of_cons in H as [->|H]; [|exfalso; apply Hn; auto].
        unfold JsMap.has in Hhas.
        by destruct (JsMap.get y (project_files (snd acc) p)).
Qed.

Lemma deleted_projects_get del ps acc q x :
  JsMap.get x (project_files
    (snd (fold_left
            (fun acc project =>
               fold_left (workspaceChanged_delete project) del acc)
            ps acc)) q) =
  if decide (q ∈ ps /\ x ∈ del) then None
  else JsMap.get x (project_files (snd acc) q).
Proof.
  revert acc. induction ps as [|p ps IH]; intros acc; cbn [fold_left].
  - rewrite decide_False; [done|]. intros [H _]. by apply elem_of_nil in H.
  - rewrite IH, deleted_files_get. clear IH.
    destruct (decide (q ∈ ps /\ x ∈ del)) as [[H1 H2]|Hn].
    + rewrite decide_True; [done|]. split; [by right | done].
    + destruct (decide (q = p /\ x ∈ del)) as [[-> H]|Hn'].
      * rewrite decide_True; [done|]. split; [left | done].
      * rewrite decide_False; [done|]. rewrite elem_of_cons.
        intros [[->|H1] H2]; [apply Hn' | apply Hn]; auto.
Qed.

Lemma after_deleted_get del s q x :
  JsMap.get x (project_files (snd (workspaceChanged_deleted del s)) q) =
  if decide (q ∈ JsMap.values (_projects s) /\ x ∈ del) then None
  else JsMap.get x (project_files s q).
Proof.
  unfold workspaceChanged_deleted. case_bool_decide as Hlen.
  - rewrite decide_False; [done|]. intros [_ H].
    destruct del; [by apply elem_of_nil in H | done].
  - apply deleted_projects_get.
Qed.

#[local] Instance dirs_kept_preorder : PreOrder dirs_kept.
Proof.
  split.
  - intros s. by unfold dirs_kept.
  - intros s1 s2 s3 (? & ? & H1) (? & ? & H2). unfold dirs_kept.
    split; [congruence|]. split; [congruence|].
    intros q. by rewrite H2, H1.
Qed.

Lemma dirs_kept_delete p x s : dirs_kept s (project_files_delete p x s).
Proof.
  unfold dirs_kept, project_files_delete. msimpl. split_and!; try done.
  intros q. destruct (decide (p = q)) as [->|Hne].
  - rewrite list_lookup_alter_eq. by destruct (projHeap s !! q).
  - by rewrite list_lookup_alter_ne.
Qed.

Lemma dirs_kept_deleted del s :
  dirs_kept s (snd (workspaceChanged_deleted del s)).
Proof.
  unfold workspaceChanged_deleted. case_bool_decide; [reflexivity|].
  apply (fold_left_rel_snd dirs_kept
           (fun acc project =>
              fold_left (workspaceChanged_delete project) del acc)
           (JsMap.values (_projects s)) (false, s)).
  intros acc p.
  apply (fold_left_rel_snd dirs_kept (workspaceChanged_delete p)).
  intros a x. unfold workspaceChanged_delete.
  destruct (JsMap.has x _); [apply dirs_kept_delete | reflexivity].
Qed.

Lemma mapFilesToSources_nil s : _mapFilesToSources s [] = [].
Proof. reflexivity. Qed.

(** X11. A [workspaceChanged] pass without created files removes, from the
    file map of every project of the project map, exactly the deleted paths
    (translated through the source map cache) and leaves every other path
    with the [TestFile] it had; the project map is the same. *)
Theorem workspaceChanged_removes_deleted (c : Collaborators)
    (change : WorkspaceChange) (s : TestModel) :
  created change = [] ->
  let s' := final (workspaceChanged c change s) in
  let deleted' := _mapFilesToSources s (deleted change) in
  allProjects s' = allProjects s /\
  forall q x,
    JsMap.get x (project_files s' q) =
    if decide (q ∈ JsMap.values (allProjects s) /\ x ∈ deleted') then None
    else JsMap.get x (project_files s q).
Proof.
  intros Hcreated s' deleted'. unfold allProjects.
  assert (projHeap s' = projHeap (after_deleted change s) /\
          _projects s' = _projects (after_deleted change s)) as [Hp Hm].
  { unfold s', workspaceChanged. mrun. fold (after_deleted change s).
    rewrite Hcreated, mapFilesToSources_nil.
    unfold workspaceChanged_created. rewrite bool_decide_true by done. mrun.
    rewrite final_bind.
    set (s1 := after_deleted change s).
    set (m := workspaceChanged_changed _ _).
    assert (membership_kept s1 (final (m s1))) as (Hp & Hm & _).
    { unfold m, workspaceChanged_changed. case_bool_decide; [reflexivity|].
      mrun. case_bool_decide; [reflexivity|]. rewrite final_bind.
      pose proof (membership_listTests c
                    (filesToLoad s1 (_mapFilesToSources s (changed change)))
                    s1) as Hlt.
      by destruct (outcome _). }
    destruct (outcome (m s1)) as [[]|]; [|done].
    by destruct (fst _). }
  split.
  - rewrite Hm. apply dirs_kept_deleted.
  - intros q x. unfold project_files at 1. rewrite Hp.
    apply after_deleted_get.
Qed.

Lemma workspaceChanged_removes_deleted_witness :
  let change := {| created := []; changed := [Sample.a_spec];
                   deleted := [Sample.b_spec] |} in
  let s' := final (workspaceChanged Sample.runner change Sample.parsed) in
  let deleted' := _mapFilesToSources Sample.parsed (deleted change) in
  allProjects s' = allProjects Sample.parsed /\
  forall q x,
    JsMap.get x (project_files s' q) =
    if decide (q ∈ JsMap.values (allProjects Sample.parsed) /\ x ∈ deleted')
    then None
    else JsMap.get x (project_files Sample.parsed q).
Proof.
  intros change.
  apply (workspaceChanged_removes_deleted Sample.runner change Sample.parsed).
  reflexivity.
Defined.

Lemma hasMatchingFiles_file s p cr acc :
  fold_left
    (fun acc file =>
       match projHeap s !! p with
       | Some P => if String.prefix (testDir P) file then true else acc
       | None => acc
       end) cr acc = true <->
  acc = true \/
  exists P x, projHeap s !! p = Some P /\ x ∈ cr /\
              String.prefix (testDir P) x = true.
Proof.
  revert acc. induction cr as [|y cr IH]; intros acc; cbn [fold_left].
  - split; [auto|]. intros [H|(P & x & _ & H & _)]; [done|].
    by apply elem_of_nil in H.
  - rewrite IH. clear IH. split.
    + intros [H|(P & x & HP & Hx & Hpre)].
      * destruct (projHeap s !! p) as [P|] eqn:HP; [|auto].
        destruct (String.prefix (testDir P) y) eqn:Hpre; [|auto].
        right. exists P, y. split_and!; [done | left | done].
      * right. exists P, x. split_and!; [done | by right | done].
    + intros [->|(P & x & HP & Hx & Hpre)].
      * left. destruct (projHeap s !! p) as [P|]; [|done].
        by destruct (String.prefix _ _).
      * apply elem_of_cons in Hx as [->|Hx].
        -- left. by rewrite HP, Hpre.
        -- right. eauto.
Qed.

Lemma hasMatchingFiles_iff s cr :
  hasMatchingFiles s cr = true <-> under_testDir s cr.
Proof.
  unfold hasMatchingFiles, under_testDir.
  enough (forall ps acc,
    fold_left
      (fun acc project =>
         fold_left
           (fun acc file =>
              match projHeap s !! project with
              | Some P => if String.prefix (testDir P) file then true else acc
              | None => acc
              end) cr acc) ps acc = true <->
    acc = true \/
    exists q P x, q ∈ ps /\ projHeap s !! q = Some P /\ x ∈ cr /\
                  String.prefix (testDir P) x = true) as H.
  { rewrite H. split; [|auto]. by intros [?|?]. }
  induction ps as [|p ps IH]; intros acc; cbn [fold_left].
  - split; [auto|]. intros [H|(q & P & x & H & _)]; [done|].
    by apply elem_of_nil in H.
  - rewrite IH, hasMatchingFiles_file. clear IH. split.
    + intros [[H|(P & x & HP & Hx & Hpre)]|(q & P & x & Hq & HP & Hx & Hpre)].
      * by left.
      * right. exists p, P, x. split_and!; [left | done..].
      * right. exists q, P, x. split_and!; [by right | done..].
    + intros [H|(q & P & x & Hq & HP & Hx & Hpre)]; [auto|].
      apply elem_of_cons in Hq as [->|Hq].
      * left. right. eauto.
      * right. exists q, P, x. done.
Qed.

Lemma under_testDir_kept s s' cr :
  dirs_kept s s' -> under_testDir s' cr <-> under_testDir s cr.
Proof.
  intros (Hm & _ & Hd). unfold under_testDir. rewrite Hm.
  split; intros (q & P & x & Hq & HP & Hx & Hpre).
  - specialize (Hd q). rewrite HP in Hd.
    destruct (projHeap s !! q) as [P0|] eqn:HP0; [|done].
    injection Hd as Hd. exists q, P0, x. by rewrite <- Hd.
  - specialize (Hd q). rewrite HP in Hd.
    destruct (projHeap s' !! q) as [P0|] eqn:HP0; [|done].
    injection Hd as Hd. exists q, P0, x. by rewrite Hd.
Qed.

(** X12. [workspaceChanged] asks the runner to list the files exactly when a
    created path (translated through the source map cache) starts with the
    directory of a project of the project map; it asks at most for the
    configuration of the model, and deleted and changed paths never make it
    ask. *)
Theorem workspaceChanged_lists_files_iff (c : Collaborators)
    (change : WorkspaceChange) (s : TestModel) (cfg : TestConfig) :
  CallListFiles cfg ∈ events (workspaceChanged c change s) <->
  cfg = config s /\
  under_testDir s (_mapFilesToSources s (created change)).
Proof.
  pose proof (dirs_kept_deleted (_mapFilesToSources s (deleted change)) s)
    as Hkept.
  fold (after_deleted change s) in Hkept.
  rewrite events_workspaceChanged, !elem_of_app.
  rewrite events_created, events_changed.
  rewrite <- (under_testDir_kept s (after_deleted change s) _ Hkept).
  rewrite <- hasMatchingFiles_iff.
  destruct Hkept as (_ & Hcfg & _).
  split.
  - intros [H|[H|H]].
    + case_bool_decide; [by apply elem_of_nil in H|].
      destruct (hasMatchingFiles _ _); [|by apply elem_of_nil in H].
      rewrite events_listFiles in H.
      apply elem_of_cons in H as [H|H]; [split; [congruence | done]|].
      destruct (rep_error _); [by apply elem_of_nil in H|].
      apply elem_of_cons in H as [H|H]; [done | by apply elem_of_nil in H].
    + case_bool_decide; [by apply elem_of_nil in H|].
      case_bool_decide; [by apply elem_of_nil in H|].
      rewrite events_listTests in H.
      apply elem_of_cons in H as [H|H]; [done|].
      destruct (returned _); [|by apply elem_of_nil in H].
      apply elem_of_cons in H as [H|H]; [done | by apply elem_of_nil in H].
    + destruct (_ && _); [|by apply elem_of_nil in H].
      apply elem_of_cons in H as [H|H]; [done | by apply elem_of_nil in H].
  - intros [-> Hmatch]. left. rewrite Hmatch.
    case_bool_decide as Hlen.
    + apply hasMatchingFiles_iff in Hmatch as (q & P & x & _ & _ & Hx & _).
      destruct (_mapFilesToSources s (created change));
        [by apply elem_of_nil in Hx | done].
    + rewrite events_listFiles, Hcfg. left.
Qed.

Lemma deleted_noop del s :
  (forall q x, q ∈ JsMap.values (_projects s) -> x ∈ del ->
               JsMap.get x (project_files s q) = None) ->
  workspaceChanged_deleted del s = (false, s).
Proof.
  intros Hnone. unfold workspaceChanged_deleted.
  case_bool_decide; [done|].
  revert Hnone. generalize (JsMap.values (_projects s)). intros ps Hnone.
  induction ps as [|p ps IH]; cbn [fold_left]; [done|].
  rewrite delete_none.
  - apply IH. intros q x Hq. apply Hnone. by right.
  - unfold removes_some. cbn [snd].
    apply not_true_is_false. intros (x & Hx & Hhas)%existsb_exists.
    apply list_elem_of_In in Hx. unfold JsMap.has in Hhas.
    rewrite (Hnone p x) in Hhas; [done | left | done].
Qed.

(** X13. A [workspaceChanged] pass is a no-op when no project of the
    project map holds one of the deleted paths, no created path lies under
    the directory of such a project and no such project has parsed one of
    the changed paths (paths translated through the source map cache): it
    returns, the model is as before, nothing is asked of the runner and no
    change event is fired. *)
Theorem workspaceChanged_unrelated_is_noop (c : Collaborators)
    (change : WorkspaceChange) (s : TestModel) :
  (forall q x,
     q ∈ JsMap.values (_projects s) ->
     x ∈ _mapFilesToSources s (deleted change) ->
     JsMap.get x (project_files s q) = None) ->
  ~ under_testDir s (_mapFilesToSources s (created change)) ->
  (forall q x testFile,
     q ∈ JsMap.values (_projects s) ->
     x ∈ _mapFilesToSources s (changed change) ->
     JsMap.get x (project_files s q) = Some testFile ->
     file_entries s testFile = None) ->
  outcome (workspaceChanged c change s) = Returned tt /\
  final (workspaceChanged c change s) = s /\
  events (workspaceChanged c change s) = [].
Proof.
  intros Hdel Hcre Hchg.
  assert (hasMatchingFiles s (_mapFilesToSources s (created change)) = false)
    as Hmatch.
  { apply not_true_is_false. by rewrite hasMatchingFiles_iff. }
  assert (filesToLoad s (_mapFilesToSources s (changed change)) = [])
    as Hload.
  { destruct (filesToLoad s _) as [|x l] eqn:E; [done|]. exfalso.
    assert (x ∈ filesToLoad s (_mapFilesToSources s (changed change)))
      as Hx by (rewrite E; left).
    apply filesToLoad_elem in Hx as (Hx & q & r & es & Hq & Hr & He).
    by rewrite (Hchg q x r Hq Hx Hr) in He. }
  unfold workspaceChanged. mrun.
  rewrite (deleted_noop _ s Hdel). mrun.
  unfold workspaceChanged_created, workspaceChanged_changed.
  destruct (bool_decide (length (_mapFilesToSources s (created change)) = 0));
    destruct (bool_decide (length (_mapFilesToSources s (changed change)) = 0));
    unfold bind, get_model, ret; cbn [outcome final events];
    rewrite ?Hmatch; cbn [outcome final events]; rewrite ?Hload;
    cbn [outcome final events length app]; rewrite ?bool_decide_true by done;
    cbn [outcome final events length app]; done.
Qed.

Lemma workspaceChanged_unrelated_is_noop_witness :
  let change := {| created := ["/elsewhere/c.spec.ts"%string];
                   changed := ["/proj/tests/c.spec.ts"%string];
                   deleted := ["/proj/tests/d.spec.ts"%string] |} in
  outcome (workspaceChanged Sample.runner change Sample.parsed) = Returned tt /\
  final (workspaceChanged Sample.runner change Sample.parsed) = Sample.parsed /\
  events (workspaceChanged Sample.runner change Sample.parsed) = [].
Proof.
  intros change.
  apply (workspaceChanged_unrelated_is_noop Sample.runner change Sample.parsed).
  - intros q x Hq Hx. vm_compute in Hq, Hx.
    apply list_elem_of_In in Hq, Hx. simpl in Hq, Hx.
    destruct Hx as [<-|[]].
    destruct Hq as [<-|[<-|[]]]; reflexivity.
  - intros (q & P & x & Hq & HP & Hx & Hpre).
    vm_compute in Hq, Hx. apply list_elem_of_In in Hq, Hx. simpl in Hq, Hx.
    destruct Hx as [<-|[]].
    destruct Hq as [<-|[<-|[]]]; vm_compute in HP;
      injection HP as <-; vm_compute in Hpre; discriminate.
  - intros q x r Hq Hx Hr. vm_compute in Hq, Hx.
    apply list_elem_of_In in Hq, Hx. simpl in Hq, Hx.
    destruct Hx as [<-|[]].
    destruct Hq as [<-|[<-|[]]]; vm_compute in Hr; discriminate.
Defined.

(** ** The object graph of a model built by its own operations *)

(** X14. Whatever operations were invoked on a model since its
    construction, and whatever the runner answered: the names of
    [allProjects()] are distinct; the project stored under a name is an
    object with that name; the paths of its file map are distinct; and the
    [TestFile] stored under a path in the file map of a project is an object
    whose [project] is that project and whose [file] is that path. *)
Theorem reachable_model_is_consistent (w cf cl : string) (v : Z)
    (ops : list ModelOp) :
  let s := run_ops ops (new_TestModel w cf cl v) in
  NoDup (JsMap.keys (allProjects s)) /\
  forall n project,
    JsMap.get n (allProjects s) = Some project ->
    exists P,
      projHeap s !! project = Some P /\
      name P = n /\
      NoDup (JsMap.keys (files P)) /\
      forall x testFile,
        JsMap.get x (files P) = Some testFile ->
        exists f, fileHeap s !! testFile = Some f /\
                  tf_project f = project /\ tf_file f = x.
Proof.
  intros s. change (wf s). unfold s.
  generalize (wf_new_TestModel w cf cl v).
  generalize (new_TestModel w cf cl v). clear s.
  induction ops as [|op ops IH]; intros s Hwf; [done|].
  cbn [run_ops fold_left]. apply IH. destruct op; cbn [run_op].
  - by apply wf_listFiles.
  - by apply wf_listTests.
  - by apply wf_updateFromRunningProjects.
  - by apply wf_workspaceChanged.
  - by apply wf_setProjectEnabled.
Qed.

(** ** [listTests]: which files it touches, and what it stores *)

Lemma for_of_acc_app {A B} (xs ys : list A) (body : B -> A -> M B) b s :
  final (for_of_acc (xs ++ ys) body b s) =
    match outcome (for_of_acc xs body b s) with
    | Returned b' =>
        final (for_of_acc ys body b' (final (for_of_acc xs body b s)))
    | Thrown _ => final (for_of_acc xs body b s)
    end /\
  outcome (for_of_acc (xs ++ ys) body b s) =
    match outcome (for_of_acc xs body b s) with
    | Returned b' =>
        outcome (for_of_acc ys body b' (final (for_of_acc xs body b s)))
    | Thrown e => Thrown e
    end.
Proof.
  revert b s. induction xs as [|x xs IH]; intros b s; [done|].
  cbn [for_of_acc app]. rewrite !final_bind, !outcome_bind.
  destruct (outcome (body b x s)); [apply IH | done].
Qed.

Lemma fileSuite_frame l ftd fs r s :
  (forall loc, s_location fs = Some loc ->
     JsMap.get (loc_file loc) (project_files s l) <> Some r) ->
  fileHeap (final (_updateProjects_fileSuite l ftd fs s)) !! r =
  fileHeap s !! r.
Proof.
  intros Hloc. unfold _updateProjects_fileSuite.
  destruct (s_location fs) as [loc|]; mrun; [|done].
  destruct (JsMap.get (loc_file loc) (project_files s l)) as [r'|] eqn:Hr;
    mrun; [|done].
  unfold file_setEntries. msimpl.
  rewrite list_lookup_alter_ne; [done|]. intros ->. by eapply Hloc.
Qed.

Lemma fileSuites_frame l suites ftd r s :
  (forall fs loc, fs ∈ suites -> s_location fs = Some loc ->
     JsMap.get (loc_file loc) (project_files s l) <> Some r) ->
  fileHeap (final (for_of_acc suites (_updateProjects_fileSuite l) ftd s)) !! r
  = fileHeap s !! r.
Proof.
  revert ftd s. induction suites as [|fs suites IH]; intros ftd s Hloc; [done|].
  cbn [for_of_acc]. rewrite final_bind.
  assert (fileHeap (final (_updateProjects_fileSuite l ftd fs s)) !! r =
          fileHeap s !! r) as H1.
  { apply fileSuite_frame. intros loc. apply Hloc. left. }
  destruct (entries_only_fileSuite l ftd fs s) as (Hp & _ & _).
  destruct (outcome _); [|done].
  rewrite IH; [done|]. intros fs' loc Hin. unfold project_files. rewrite Hp.
  apply Hloc. by right.
Qed.

Lemma missing_frame l ys r s :
  (forall y, y ∈ ys -> JsMap.get y (project_files s l) <> Some r) ->
  fileHeap (final (for_of ys (_updateProjects_missing l) s)) !! r =
  fileHeap s !! r.
Proof.
  revert s. induction ys as [|y ys IH]; intros s Hys; [done|].
  cbn [for_of]. rewrite final_bind.
  assert (fileHeap (final (_updateProjects_missing l y s)) !! r =
          fileHeap s !! r) as H1.
  { unfold _updateProjects_missing. mrun.
    destruct (JsMap.get y (project_files s l)) as [r'|] eqn:Hr; mrun; [|done].
    unfold file_setEntries. msimpl.
    rewrite list_lookup_alter_ne; [done|]. intros ->.
    by eapply Hys; [left|]. }
  destruct (entries_only_missing l y s) as (Hp & _ & _).
  destruct (outcome _); [|done].
  rewrite IH; [done|]. intros y' Hin. unfold project_files. rewrite Hp.
  apply Hys. by right.
Qed.

(** What is left of [filesToDelete] after the loop over the file suites. *)
Lemma fileSuites_result l suites ftd s ftd' x :
  outcome (for_of_acc suites (_updateProjects_fileSuite l) ftd s)
    = Returned ftd' ->
  x ∈ ftd' ->
  x ∈ ftd /\
  forall fs loc, fs ∈ suites -> s_location fs = Some loc -> loc_file loc <> x.
Proof.
  revert ftd s. induction suites as [|fs suites IH]; intros ftd s.
  - simpl. intros [= <-] Hx. split; [done|]. intros fs loc H.
    by apply elem_of_nil in H.
  - cbn [for_of_acc]. rewrite outcome_bind.
    destruct (outcome (_updateProjects_fileSuite l ftd fs s))
      as [ftd1|] eqn:Hout; [|done].
    intros Hrest Hx. destruct (IH _ _ Hrest Hx) as [Hx1 Hlater].
    unfold _updateProjects_fileSuite in Hout.
    destruct (s_location fs) as [loc|] eqn:Hloc; mrun; [|done].
    assert (ftd1 = JsSet.delete (loc_file loc) ftd) as ->.
    { destruct (JsMap.get _ _); mrun; congruence. }
    apply set_delete_elem in Hx1 as [Hx1 Hne]. split; [done|].
    intros fs' loc' [->|Hin]%elem_of_cons Hloc'; [congruence|].
    by eapply Hlater.
Qed.

(** The iteration of [_updateProjects] for one project leaves alone a file
    object that the project holds only under paths that are neither
    requested nor reported. *)
Lemma project_frame ps files e r s :
  (forall y, JsMap.get y (project_files s (snd e)) = Some r ->
     y ∉ files /\ unreported ps (fst e) y) ->
  fileHeap (final (_updateProjects_project ps files e s)) !! r =
  fileHeap s !! r.
Proof.
  intros Hr. unfold _updateProjects_project. rewrite final_bind.
  destruct (find_projectSuite_pure ps (fst e) s) as [Hfin Hpure].
  destruct (outcome (find_projectSuite ps (fst e) s)) as [o|] eqn:Hfind;
    [|by rewrite Hfin].
  rewrite Hfin. rewrite (Hpure o eq_refl). clear Hpure Hfind Hfin o.
  rewrite final_bind.
  set (suites := match projectSuite_for ps (fst e) with
                 | Some suite => s_suites suite
                 | None => []
                 end).
  set (loop := for_of_acc suites (_updateProjects_fileSuite (snd e))
                 (JsSet.of_list files) s).
  assert (fileHeap (final loop) !! r = fileHeap s !! r) as H1.
  { apply fileSuites_frame. intros fs loc Hin Hloc Hget.
    destruct (Hr _ Hget) as [_ Hun]. unfold suites in Hin.
    destruct (projectSuite_for ps (fst e)) as [suite|] eqn:Hs.
    - by eapply Hun.
    - by apply elem_of_nil in Hin. }
  assert (entries_only (snd e) s (final loop)) as (Hp & _ & _).
  { unfold loop. refine (preserves_for_of_acc _ _ _ _ _ _).
    intros ? ?. apply entries_only_fileSuite. }
  destruct (outcome loop) as [ftd|] eqn:Hloop; [|done].
  rewrite missing_frame; [done|].
  intros y Hy Hget. unfold project_files in Hget. rewrite Hp in Hget.
  destruct (Hr _ Hget) as [Hnot _]. apply Hnot.
  destruct (fileSuites_result _ _ _ _ _ y Hloop Hy) as [Hin _].
  exact (proj1 (set_of_list_elem _ _) Hin).
Qed.

Lemma projects_frame ps files es r s :
  (forall e y, e ∈ es ->
     JsMap.get y (project_files s (snd e)) = Some r ->
     y ∉ files /\ unreported ps (fst e) y) ->
  fileHeap (final (for_of es (_updateProjects_project ps files) s)) !! r =
  fileHeap s !! r.
Proof.
  revert s. induction es as [|e es IH]; intros s Hr; [done|].
  cbn [for_of]. rewrite final_bind.
  assert (fileHeap (final (_updateProjects_project ps files e s)) !! r =
          fileHeap s !! r) as H1.
  { apply project_frame. intros y. apply Hr. left. }
  destruct (entries_only_project ps files e s) as (Hp & _ & _).
  destruct (outcome _); [|done].
  rewrite IH; [done|]. intros e' y Hin. unfold project_files. rewrite Hp.
  apply Hr. by right.
Qed.

(** X15. In a consistent model, [listTests] touches a [TestFile] only
    through a path that was requested or that a file suite of the answer
    reports for the project: a file object that every project holding it
    holds under paths that are neither requested nor located by a file suite
    of the suite picked for that project is, after the pass, exactly the
    object it was (same entries, same revision), also when the pass
    throws. *)
Theorem listTests_touches_requested_or_reported (c : Collaborators)
    (files : list string) (s : TestModel) (testFile : FileRef) :
  wf s ->
  (forall n project y,
     JsMap.get n (allProjects s) = Some project ->
     JsMap.get y (project_files s project) = Some testFile ->
     y ∉ files /\
     unreported
       (s_suites (fst (pw_listTests (playwrightTest c) (config s) files)))
       n y) ->
  fileHeap (final (listTests c files s)) !! testFile =
  fileHeap s !! testFile.
Proof.
  intros Hwf Hr. unfold listTests. mrun. rewrite final_bind.
  set (ps := s_suites (fst (pw_listTests (playwrightTest c) (config s) files))).
  assert (fileHeap (final (_updateProjects ps files s)) !! testFile =
          fileHeap s !! testFile) as H1.
  { unfold _updateProjects. mrun. rewrite final_bind.
    assert (fileHeap (final (for_of (_projects s)
                               (_updateProjects_project ps files) s))
              !! testFile = fileHeap s !! testFile) as H2.
    { apply projects_frame. intros [n l] y Hin. cbn [fst snd].
      apply Hr. apply elem_get; [apply Hwf | done]. }
    destruct (outcome _); [|done]. by mrun. }
  destruct (outcome _); [|done]. by mrun.
Qed.

Lemma listTests_touches_requested_or_reported_witness :
  fileHeap (final (listTests Sample.runner [Sample.a_spec] Sample.parsed)) !! 1
  = fileHeap Sample.parsed !! 1.
Proof.
  apply (listTests_touches_requested_or_reported
           Sample.runner [Sample.a_spec] Sample.parsed 1).
  - apply wf_parsed.
  - intros n project y Hn Hy.
    assert (n ∈ JsMap.keys (allProjects Sample.parsed)) as Hk
      by (apply get_Some_keys; eauto).
    assert (y ∈ JsMap.keys (project_files Sample.parsed project)) as Hky
      by (apply get_Some_keys; eauto).
    vm_compute in Hk. apply list_elem_of_In in Hk. simpl in Hk.
    destruct Hk as [<-|[<-|[]]]; vm_compute in Hn; injection Hn as <-;
      vm_compute in Hky; apply list_elem_of_In in Hky; simpl in Hky.
    + destruct Hky as [<-|[<-|[]]]; [vm_compute in Hy; discriminate|].
      split.
      * intros H. apply list_elem_of_In in H. simpl in H.
        destruct H as [H|[]]. discriminate.
      * intros suite fs loc Hs Hin Hloc. vm_compute in Hs.
        injection Hs as <-. apply list_elem_of_In in Hin. simpl in Hin.
        destruct Hin as [<-|[]]. injection Hloc as <-. discriminate.
    + destruct Hky as [<-|[]]. vm_compute in Hy. discriminate.
Defined.

(** In a consistent model a project holds a file object under one path. *)
Lemma wf_one_path s n l x y r :
  wf s -> JsMap.get n (_projects s) = Some l ->
  JsMap.get x (project_files s l) = Some r ->
  JsMap.get y (project_files s l) = Some r -> y = x.
Proof.
  intros Hwf Hl Hx Hy.
  destruct (proj2 Hwf _ _ Hl) as (P & HP & _ & _ & Hok).
  unfold project_files in Hx, Hy. rewrite HP in Hx, Hy.
  destruct (Hok _ _ Hx) as (f & Hf & _ & Hfx).
  destruct (Hok _ _ Hy) as (f' & Hf' & _ & Hfy).
  congruence.
Qed.

(** The iteration of [_updateProjects] for the project that holds the
    file: the last file suite located in the path decides. *)
Lemma project_stores_entries ps files n l x r f suite before fileSuite
    after loc s :
  JsMap.get x (project_files s l) = Some r ->
  fileHeap s !! r = Some f ->
  (forall y, JsMap.get y (project_files s l) = Some r -> y = x) ->
  projectSuite_for ps n = Some suite ->
  s_suites suite = before ++ fileSuite :: after ->
  s_location fileSuite = Some loc ->
  loc_file loc = x ->
  (forall fs loc', fs ∈ after -> s_location fs = Some loc' ->
                   loc_file loc' <> x) ->
  outcome (_updateProjects_project ps files (n, l) s) = Returned tt ->
  holds_entries r (suite_entries fileSuite) (revision f)
    (final (_updateProjects_project ps files (n, l) s)).
Proof.
  intros Hr Hf Hone Hsuite Hsplit Hloc Hfile Hafter.
  unfold _updateProjects_project.
  rewrite outcome_bind, final_bind. cbn [fst snd].
  destruct (find_projectSuite_pure ps n s) as [Hfin Hpure].
  destruct (outcome (find_projectSuite ps n s)) as [o|] eqn:Hfind; [|done].
  rewrite Hfin. rewrite (Hpure o eq_refl) in *. clear Hpure Hfind Hfin o.
  rewrite Hsuite, Hsplit. rewrite outcome_bind, final_bind.
  set (body := _updateProjects_fileSuite l).
  destruct (for_of_acc_app before (fileSuite :: after) body
              (JsSet.of_list files) s) as [Hfin1 Hout1].
  rewrite Hfin1, Hout1. clear Hfin1 Hout1.
  assert (entries_only l s (final (for_of_acc before body
                                     (JsSet.of_list files) s)))
    as (Hp1 & _ & _).
  { refine (preserves_for_of_acc _ _ _ _ _ _).
    intros ? ?. apply entries_only_fileSuite. }
  assert (files_grow s (final (for_of_acc before body
                                 (JsSet.of_list files) s))) as Hg1.
  { refine (preserves_for_of_acc _ _ _ _ _ _).
    intros ? ?. apply grow_fileSuite. }
  destruct (outcome (for_of_acc before body (JsSet.of_list files) s))
    as [ftd1|]; [|done].
  set (s1 := final (for_of_acc before body (JsSet.of_list files) s)) in *.
  destruct (Hg1 r f Hf) as (f1 & Hf1 & _ & _ & Hrev1).
  assert (JsMap.get x (project_files s1 l) = Some r) as Hr1.
  { unfold project_files. by rewrite Hp1. }
  cbn [for_of_acc]. rewrite outcome_bind, final_bind.
  assert (outcome (body ftd1 fileSuite s1) = Returned (JsSet.delete x ftd1) /\
          final (body ftd1 fileSuite s1) =
            file_setEntries r (suite_entries fileSuite) s1) as [Ho2 Hf2].
  { unfold body, _updateProjects_fileSuite. rewrite Hloc. mrun.
    rewrite Hfile, Hr1. by mrun. }
  rewrite Ho2, Hf2.
  set (s2 := file_setEntries r (suite_entries fileSuite) s1).
  assert (projHeap s2 = projHeap s) as Hp2 by (by rewrite <- Hp1).
  assert (forall y, JsMap.get y (project_files s2 l) = Some r -> y = x)
    as Hone2.
  { intros y. unfold project_files. rewrite Hp2. apply Hone. }
  assert (fileHeap s2 !! r = Some (setEntries (suite_entries fileSuite) f1))
    as Hs2.
  { unfold s2, file_setEntries. msimpl.
    by rewrite list_lookup_alter_eq, Hf1. }
  set (loop := for_of_acc after body (JsSet.delete x ftd1) s2).
  assert (fileHeap (final loop) !! r = fileHeap s2 !! r) as Hf3.
  { apply fileSuites_frame. intros fs loc' Hin Hloc' Hget.
    apply Hone2 in Hget. by eapply Hafter. }
  assert (entries_only l s2 (final loop)) as (Hp3 & _ & _).
  { refine (preserves_for_of_acc _ _ _ _ _ _).
    intros ? ?. apply entries_only_fileSuite. }
  destruct (outcome loop) as [ftd|] eqn:Hloop; [|done]. intros _.
  exists (setEntries (suite_entries fileSuite) f1).
  split; [|split; [done|]].
  - rewrite missing_frame; [by rewrite Hf3|].
    intros y Hy Hget. unfold project_files in Hget. rewrite Hp3 in Hget.
    apply Hone2 in Hget as ->.
    destruct (fileSuites_result _ _ _ _ _ x Hloop Hy) as [Hin _].
    apply set_delete_elem in Hin as [_ Hne]. done.
  - unfold revision in *. simpl. lia.
Qed.

(** X16. In a consistent model, when a [listTests] pass returns, a file
    that a known project holds under a path for which the suite picked for
    that project has a file suite holds the entries of the last such file
    suite (its suites, then its tests), set by a [setEntries] of this pass;
    it is still the project's file for that path. *)
Theorem listTests_stores_reported_entries (c : Collaborators)
    (files : list string) (s : TestModel) (n : string) (project : ProjRef)
    (x : string) (testFile : FileRef) (f : TestFile)
    (suite fileSuite : Suite) (before after : list Suite) (loc : Location)
    (errors : list TestError) :
  wf s ->
  JsMap.get n (allProjects s) = Some project ->
  JsMap.get x (project_files s project) = Some testFile ->
  fileHeap s !! testFile = Some f ->
  projectSuite_for
    (s_suites (fst (pw_listTests (playwrightTest c) (config s) files))) n
    = Some suite ->
  s_suites suite = before ++ fileSuite :: after ->
  s_location fileSuite = Some loc ->
  loc_file loc = x ->
  (forall fs loc', fs ∈ after -> s_location fs = Some loc' ->
                   loc_file loc' <> x) ->
  outcome (listTests c files s) = Returned errors ->
  let s' := final (listTests c files s) in
  JsMap.get x (project_files s' project) = Some testFile /\
  exists f', fileHeap s' !! testFile = Some f' /\
             entries f' = Some (suite_entries fileSuite) /\
             (revision f < revision f')%Z.
Proof.
  intros Hwf Hl Hx Hf Hsuite Hsplit Hloc Hfile Hafter Hret s'.
  unfold allProjects in Hl.
  set (ps := s_suites (fst (pw_listTests (playwrightTest c) (config s) files)))
    in *.
  assert (outcome (_updateProjects ps files s) = Returned tt /\
          s' = final (_updateProjects ps files s)) as [Hret' ->].
  { unfold s'. unfold listTests in *. mrun.
    rewrite outcome_bind in Hret. rewrite final_bind. fold ps in Hret |- *.
    by destruct (outcome (_updateProjects ps files s)) as [[]|]. }
  clear Hret. split.
  { unfold project_files. by rewrite projHeap__updateProjects. }
  revert Hret'. unfold _updateProjects. mrun.
  rewrite outcome_bind, final_bind.
  set (body := _updateProjects_project ps files).
  destruct (outcome (for_of (_projects s) body s)) as [[]|] eqn:Hout; [|done].
  intros _. mrun.
  pose proof (get_Some_elem _ _ _ Hl) as Hel.
  apply list_elem_of_split in Hel as (m1 & m2 & Hm).
  pose proof (proj1 Hwf) as Hnd. rewrite Hm in Hnd, Hout |- *.
  unfold JsMap.keys in Hnd. rewrite fmap_app, fmap_cons in Hnd.
  apply NoDup_app in Hnd as (_ & _ & Hnd).
  apply NoDup_cons in Hnd as [Hn2 _]. cbn [fst] in Hn2.
  destruct (for_of_app m1 ((n, project) :: m2) body s) as [Hfin1 Hout1].
  rewrite Hfin1. rewrite Hout1 in Hout. clear Hfin1 Hout1.
  destruct (outcome (for_of m1 body s)) as [[]|]; [|done].
  destruct (earlier_projects_frame ps files m1 s) as [Hp1 Hg1].
  fold body in Hp1, Hg1. set (s1 := final (for_of m1 body s)) in *.
  destruct (Hg1 testFile f Hf) as (f1 & Hf1 & _ & _ & Hrev1).
  cbn [for_of] in Hout |- *. rewrite outcome_bind in Hout. rewrite final_bind.
  destruct (outcome (body (n, project) s1)) as [[]|] eqn:Hbody; [|done].
  destruct (project_stores_entries ps files n project x testFile f1 suite
              before fileSuite after loc s1)
    as (f2 & Hf2 & He2 & Hk2); try done.
  { unfold project_files. by rewrite Hp1. }
  { intros y. unfold project_files. rewrite Hp1.
    fold (project_files s project). intros Hy.
    by eapply (wf_one_path s n project x y testFile). }
  destruct (entries_only_project ps files (n, project) s1) as (Hp2 & _ & _).
  fold body in Hp2, Hf2. set (s2 := final (body (n, project) s1)) in *.
  exists f2. split_and!; [|done|lia].
  unfold body. rewrite other_projects_frame; [done|].
  intros [n' l'] He' Hr'. cbn [snd] in Hr'.
  unfold project_files in Hr'. rewrite Hp2, Hp1 in Hr'.
  fold (project_files s l') in Hr'.
  assert (JsMap.get n' (_projects s) = Some l') as Hl'.
  { apply elem_get; [apply Hwf|]. rewrite Hm.
    apply elem_of_app. right. by apply list_elem_of_further. }
  assert (n = n') as <- by by eapply wf_file_owner.
  apply Hn2. apply list_elem_of_fmap. by exists (n, l').
Qed.

Lemma listTests_stores_reported_entries_witness :
  let s' := final (listTests Sample.runner [Sample.a_spec] Sample.listed) in
  JsMap.get Sample.a_spec (project_files s' 0) = Some 0 /\
  exists f', fileHeap s' !! 0 = Some f' /\
             entries f' =
               Some (suite_entries
                       (Sample.fileSuite Sample.a_spec
                          [Sample.case "logs in" Sample.a_spec])) /\
             (revision (new_TestFile 0 Sample.a_spec) < revision f')%Z.
Proof.
  apply (listTests_stores_reported_entries
           Sample.runner [Sample.a_spec] Sample.listed "chromium" 0
           Sample.a_spec 0 (new_TestFile 0 Sample.a_spec)
           (Sample.projectSuite "chromium"
              [Sample.fileSuite Sample.a_spec
                 [Sample.case "logs in" Sample.a_spec]])
           (Sample.fileSuite Sample.a_spec
              [Sample.case "logs in" Sample.a_spec])
           [] []
           {| loc_file := Sample.a_spec; loc_line := 0; loc_column := 0 |}
           []).
  - apply wf_listed.
  - reflexivity.
  - reflexivity.
  - reflexivity.
  - reflexivity.
  - reflexivity.
  - reflexivity.
  - reflexivity.
  - intros fs loc' H. by apply elem_of_nil in H.
  - vm_compute. reflexivity.
Defined.

(** ** [updateFromRunningProjects]: what a live run adds *)

Lemma parsed_at_frame p x s s' :
  running_frame s s' -> parsed_at p x s -> parsed_at p x s'.
Proof.
  intros (_ & _ & _ & _ & Hproj & Hfile) (r & f & es & Hr & Hf & He).
  unfold project_files in Hr.
  destruct (projHeap s !! p) as [P|] eqn:HP; [|done].
  destruct (Hproj p P HP) as (P' & HP' & _ & _ & _ & Hslots).
  destruct (Hfile r f Hf) as (f' & Hf' & [->|[Hnone _]]); [|congruence].
  exists r, f, es. unfold project_files. rewrite HP'. auto.
Qed.

(** One reported file suite with tests: afterwards the project holds a
    parsed file under its path. *)
Lemma running_fileSuite_parses n p fs loc s :
  wf s -> JsMap.get n (_projects s) = Some p ->
  has_tests fs = true -> s_location fs = Some loc ->
  parsed_at p (loc_file loc)
    (final (_updateFromRunningProject_fileSuite p fs s)).
Proof.
  intros Hwf Hp Htests Hloc.
  destruct (proj2 Hwf _ _ Hp) as (P & HP & _ & _ & Hok).
  unfold _updateFromRunningProject_fileSuite. unfold has_tests in Htests.
  apply negb_true_iff in Htests. rewrite Htests, Hloc. mrun.
  destruct (JsMap.get (loc_file loc) (project_files s p)) as [r|] eqn:Hget;
    mrun.
  - unfold project_files in Hget. rewrite HP in Hget.
    destruct (Hok _ _ Hget) as (f & Hf & _).
    unfold file_entries. rewrite Hf.
    destruct (entries f) as [es|] eqn:He; mrun.
    + exists r, f, es. unfold project_files. by rewrite HP.
    + exists r, (setEntries (suite_entries fs) f), (suite_entries fs).
      unfold project_files, file_setEntries. msimpl.
      by rewrite HP, list_lookup_alter_eq, Hf.
  - set (s1 := snd (_createFile p (loc_file loc) s)).
    assert (fileHeap s1 !! length (fileHeap s) =
            Some (new_TestFile p (loc_file loc))) as Hnew.
    { unfold s1, _createFile. msimpl. by apply list_lookup_middle. }
    assert (JsMap.get (loc_file loc) (project_files s1 p) =
            Some (length (fileHeap s))) as Hslot.
    { unfold s1. rewrite project_files_createFile, decide_True by done.
      rewrite HP. apply get_set_eq. }
    change (fst (_createFile p (loc_file loc) s)) with (length (fileHeap s)).
    unfold file_entries. rewrite Hnew. cbn [entries new_TestFile _entries].
    mrun.
    exists (length (fileHeap s)),
      (setEntries (suite_entries fs) (new_TestFile p (loc_file loc))),
      (suite_entries fs).
    split_and!; [|unfold file_setEntries; msimpl|done].
    + exact Hslot.
    + by rewrite list_lookup_alter_eq, Hnew.
Qed.

Lemma running_fileSuites_parse n p suites fs loc s :
  wf s -> JsMap.get n (_projects s) = Some p ->
  fs ∈ suites -> has_tests fs = true -> s_location fs = Some loc ->
  outcome (for_of suites (_updateFromRunningProject_fileSuite p) s)
    = Returned tt ->
  parsed_at p (loc_file loc)
    (final (for_of suites (_updateFromRunningProject_fileSuite p) s)).
Proof.
  intros Hwf Hp Hin Htests Hloc. revert s Hwf Hp.
  induction suites as [|fs' suites IH]; intros s Hwf Hp.
  { by apply elem_of_nil in Hin. }
  cbn [for_of]. rewrite outcome_bind, final_bind.
  pose proof (wf_running_fileSuite p fs' s Hwf) as Hwf1.
  pose proof (frame_fileSuite p fs' s) as Hframe.
  destruct (outcome (_updateFromRunningProject_fileSuite p fs' s))
    as [[]|] eqn:Hout; [|done].
  intros Hrest.
  set (s1 := final (_updateFromRunningProject_fileSuite p fs' s)) in *.
  apply elem_of_cons in Hin as [->|Hin].
  - apply (parsed_at_frame _ _ s1).
    + refine (preserves_for_of _ _ _ _ _). intros ?. apply frame_fileSuite.
    + by eapply running_fileSuite_parses.
  - apply IH; try done. by rewrite (proj1 Hframe).
Qed.

Lemma running_projectSuite_parses n project e fp fs loc s :
  wf s -> JsMap.get n (_projects s) = Some project ->
  s_project e = Some fp -> fp_name fp = n ->
  fs ∈ s_suites e -> has_tests fs = true -> s_location fs = Some loc ->
  outcome (updateFromRunningProjects_projectSuite e s) = Returned tt ->
  parsed_at project (loc_file loc)
    (final (updateFromRunningProjects_projectSuite e s)).
Proof.
  intros Hwf Hp He Hn Hin Htests Hloc.
  unfold updateFromRunningProjects_projectSuite. rewrite He. mrun.
  rewrite Hn, Hp. unfold _updateFromRunningProject.
  rewrite outcome_bind, final_bind.
  destruct (outcome (for_of (s_suites e) _ s)) as [[]|] eqn:Hout; [|done].
  intros _. unfold fire. mrun.
  by eapply running_fileSuites_parse.
Qed.

Lemma wf_running_projectSuite e :
  preserves keeps_wf (updateFromRunningProjects_projectSuite e).
Proof.
  unfold updateFromRunningProjects_projectSuite. pres.
  destruct (JsMap.get _ _); pres.
  unfold _updateFromRunningProject, fire. pres.
  apply wf_running_fileSuite.
Qed.

(** X17. In a consistent model, when [updateFromRunningProjects] returns,
    every file suite with tests that is reported under a project suite of a
    known project has a parsed file in that project: the project holds a
    [TestFile] under the path of the file suite, and its [entries()] is
    defined. *)
Theorem updateFromRunningProjects_parses_reported (projectSuites : list Suite)
    (s : TestModel) (n : string) (project : ProjRef) (projectSuite : Suite)
    (fp : FullProject) (fileSuite : Suite) (loc : Location) :
  wf s ->
  JsMap.get n (allProjects s) = Some project ->
  projectSuite ∈ projectSuites ->
  s_project projectSuite = Some fp ->
  fp_name fp = n ->
  fileSuite ∈ s_suites projectSuite ->
  has_tests fileSuite = true ->
  s_location fileSuite = Some loc ->
  outcome (updateFromRunningProjects projectSuites s) = Returned tt ->
  let s' := final (updateFromRunningProjects projectSuites s) in
  exists testFile f es,
    JsMap.get (loc_file loc) (project_files s' project) = Some testFile /\
    fileHeap s' !! testFile = Some f /\
    entries f = Some es.
Proof.
  intros Hwf Hp Hin He Hn Hfs Htests Hloc Hret s'.
  change (parsed_at project (loc_file loc) s'). unfold s'. clear s'.
  unfold allProjects in Hp. unfold updateFromRunningProjects in *.
  revert s Hwf Hp Hret.
  induction projectSuites as [|e rest IH]; intros s Hwf Hp.
  { by apply elem_of_nil in Hin. }
  cbn [for_of]. rewrite outcome_bind, final_bind.
  pose proof (wf_running_projectSuite e s Hwf) as Hwf1.
  pose proof (frame_running_projectSuite e s) as Hframe.
  destruct (outcome (updateFromRunningProjects_projectSuite e s))
    as [[]|] eqn:Hout; [|done].
  intros Hrest.
  set (s1 := final (updateFromRunningProjects_projectSuite e s)) in *.
  apply elem_of_cons in Hin as [->|Hin].
  - apply (parsed_at_frame _ _ s1).
    + refine (preserves_for_of _ _ _ _ _).
      intros ?. apply frame_running_projectSuite.
    + by eapply running_projectSuite_parses.
  - apply IH; try done. by rewrite (proj1 Hframe).
Qed.

Lemma updateFromRunningProjects_parses_reported_witness :
  let s' := final (updateFromRunningProjects
                     [Sample.projectSuite "firefox"
                        [Sample.fileSuite Sample.c_spec
                           [Sample.case "new" Sample.c_spec]]]
                     Sample.parsed) in
  exists testFile f es,
    JsMap.get Sample.c_spec (project_files s' 1) = Some testFile /\
    fileHeap s' !! testFile = Some f /\
    entries f = Some es.
Proof.
  apply (updateFromRunningProjects_parses_reported
           [Sample.projectSuite "firefox"
              [Sample.fileSuite Sample.c_spec
                 [Sample.case "new" Sample.c_spec]]]
           Sample.parsed "firefox" 1
           (Sample.projectSuite "firefox"
              [Sample.fileSuite Sample.c_spec
                 [Sample.case "new" Sample.c_spec]])
           {| fp_name := "firefox"; fp_testDir := "/proj/tests" |}
           (Sample.fileSuite Sample.c_spec [Sample.case "new" Sample.c_spec])
           {| loc_file := Sample.c_spec; loc_line := 0; loc_column := 0 |}).
  - apply wf_parsed.
  - reflexivity.
  - left.
  - reflexivity.
  - reflexivity.
  - left.
  - reflexivity.
  - reflexivity.
  - vm_compute. reflexivity.
Defined.
